(** * Snapchat Memories Organizer: a shallow embedding and its properties

    The repository holds two variants of one program,
    [organize_memories_gui.py] and [organize_memories_gui2.py].  Both read
    an HTML export, collect (src, date) pairs with an [HTMLParser] subclass
    and copy every referenced media file to
    [OUT/YYYY/YYYY-MM/YYYY-MM-DD_<name>].

    - The parsers and [date_from_name] of the two files are in the modules
      [V1] and [V2].
    - [Worker.run] is the same in both files but for a few places; it is
      written once, in the section [Worker], and a [variant] says which
      file is meant at each of those places.
    - What belongs to the Python standard library ([re], [datetime],
      [pathlib], [os], [shutil]) is modelled before the code that uses it.
      Text has 8-bit characters; the character classes agree with Python's
      on code points below 128.
    - The window (class [App]) comes after the worker: its handlers
      [_on_start], [_on_cancel] and [_pump] act on a record of what they
      read and write.  The layout ([_build_ui]) and the timer are left
      out; the thread sees of the window the value of the [cancel] flag
      and the queue that it writes to. *)

From Stdlib Require Import Ascii String ZArith Lia.
From stdpp Require Import base option list strings pretty gmap sorting.

Local Open Scope string_scope.
Local Open Scope Z_scope.

(** ** Python exceptions and results *)

Inductive exn :=
| ValueError
| UnicodeDecodeError
| TypeError
| IndexError
| OSError
| OutOfFuel.   (* not a Python exception: the bound put on the model's
                  [while] loop, shown below never to be reached *)

Inductive res (A : Type) :=
| Ret (a : A)
| Raise (e : exn).
Arguments Ret {A} a.
Arguments Raise {A} e.

#[global] Instance res_ret : MRet res := fun A a => Ret a.

#[global] Instance res_bind : MBind res := fun A B k m =>
  match m with
  | Ret a => k a
  | Raise e => Raise e
  end.

(** ** Characters and strings (Python [str]) *)

Definition code (c : ascii) : Z := Z.of_N (N_of_ascii c).

Definition in_range (lo hi : Z) (c : ascii) : bool :=
  (lo <=? code c) && (code c <=? hi).

(** [\d] *)
Definition is_digit (c : ascii) : bool := in_range 48 57 c.

(** [\w]: letters, digits and the underscore. *)
Definition is_word (c : ascii) : bool :=
  is_digit c || in_range 65 90 c || in_range 97 122 c || (code c =? 95).

(** [str.isspace]: tab to carriage return, the separators 28 to 31, space. *)
Definition is_space (c : ascii) : bool :=
  in_range 9 13 c || in_range 28 32 c.

Definition lower_char (c : ascii) : ascii :=
  if in_range 65 90 c then ascii_of_N (N_of_ascii c + 32) else c.

Fixpoint lower (s : string) : string :=
  match s with
  | "" => ""
  | String c s' => String (lower_char c) (lower s')
  end.

Fixpoint startswith (p s : string) : bool :=
  match p, s with
  | "", _ => true
  | String a p', String b s' => if Ascii.eqb a b then startswith p' s' else false
  | String _ _, "" => false
  end.

(** [p in s] *)
Fixpoint contains (p s : string) : bool :=
  startswith p s ||
  match s with
  | "" => false
  | String _ s' => contains p s'
  end.

(** [s[n:]] and [s[:n]] for [0 <= n]. *)
Fixpoint drop_str (n : nat) (s : string) : string :=
  match n, s with
  | O, _ => s
  | S n', String _ s' => drop_str n' s'
  | S _, "" => ""
  end.

Fixpoint take_str (n : nat) (s : string) : string :=
  match n, s with
  | O, _ => ""
  | S n', String c s' => String c (take_str n' s')
  | S _, "" => ""
  end.

(** [s[i:j]] *)
Definition slice (i j : nat) (s : string) : string :=
  take_str (j - i) (drop_str i s).

(** [s.replace(a, b)] for one-character [a] and [b]. *)
Fixpoint replace_char (a b : ascii) (s : string) : string :=
  match s with
  | "" => ""
  | String c s' => String (if Ascii.eqb c a then b else c) (replace_char a b s')
  end.

Fixpoint lstrip (s : string) : string :=
  match s with
  | "" => ""
  | String c s' => if is_space c then lstrip s' else s
  end.

(** Drops trailing white space: a character is kept when it is not a space
    or when something is kept after it. *)
Fixpoint rstrip (s : string) : string :=
  match s with
  | "" => ""
  | String c s' =>
      match rstrip s' with
      | "" => if is_space c then "" else String c ""
      | r => String c r
      end
  end.

(** [s.strip()] *)
Definition strip (s : string) : string := rstrip (lstrip s).

(** [s.split(sep, 1)[0]] for a one-character separator. *)
Fixpoint before_char (sep : ascii) (s : string) : string :=
  match s with
  | "" => ""
  | String c s' => if Ascii.eqb c sep then "" else String c (before_char sep s')
  end.

(** ** Character classes and fixed-width patterns (the part of [re] in use) *)

Inductive cset :=
| Digit
| Range (lo hi : ascii)
| Lit (c : ascii).

Definition cset_mem (k : cset) (c : ascii) : bool :=
  match k with
  | Digit => is_digit c
  | Range lo hi => in_range (code lo) (code hi) c
  | Lit a => Ascii.eqb c a
  end.

(** Matches a sequence of character classes at the head of [s]; gives the
    matched text and what follows it. *)
Fixpoint match_seq (p : list cset) (s : string) : option (string * string) :=
  match p with
  | [] => Some ("", s)
  | k :: p' =>
      match s with
      | "" => None
      | String c s' =>
          if cset_mem k c then
            match match_seq p' s' with
            | Some (m, r) => Some (String c m, r)
            | None => None
            end
          else None
      end
  end.

Definition head_char (s : string) : option ascii :=
  match s with
  | "" => None
  | String c _ => Some c
  end.

Fixpoint last_char (prev : option ascii) (s : string) : option ascii :=
  match s with
  | "" => prev
  | String c s' => last_char (Some c) s'
  end.

Definition word_at (c : option ascii) : bool :=
  match c with
  | Some a => is_word a
  | None => false
  end.

(** [\b] between the characters [prev] and [next] ([None] at either end of
    the subject). *)
Definition boundary (prev next : option ascii) : bool :=
  xorb (word_at prev) (word_at next).

(** [\b p \b] at the current position, [prev] being the character before it. *)
Definition match_bounded (p : list cset) (prev : option ascii) (s : string)
  : option string :=
  if boundary prev (head_char s) then
    match match_seq p s with
    | Some (m, r) => if boundary (last_char prev m) (head_char r) then Some m else None
    | None => None
    end
  else None.

(** [re.search(r"\b p \b", s)]: the leftmost match, [m.group(0)]. *)
Fixpoint search_from (p : list cset) (prev : option ascii) (s : string)
  : option string :=
  match match_bounded p prev s with
  | Some m => Some m
  | None =>
      match s with
      | "" => None
      | String c s' => search_from p (Some c) s'
      end
  end.

Definition re_search (p : list cset) (s : string) : option string :=
  search_from p None s.

(** [re.match(p, s)] without anchors: [p] at the start of [s]. *)
Definition re_match (p : list cset) (s : string) : bool :=
  match match_seq p s with
  | Some _ => true
  | None => false
  end.

(** ** Calendar dates ([datetime]) *)

Record datetime := Datetime { year : Z; month : Z; day : Z }.

#[global] Instance datetime_eq_dec : EqDecision datetime.
Proof. solve_decision. Defined.

Definition is_leap (y : Z) : bool :=
  (y mod 4 =? 0) && (negb (y mod 100 =? 0) || (y mod 400 =? 0)).

Definition days_in_month (y m : Z) : Z :=
  if m =? 2 then (if is_leap y then 29 else 28)
  else if (m =? 4) || (m =? 6) || (m =? 9) || (m =? 11) then 30
  else 31.

(** What the [datetime] constructor accepts: [MINYEAR = 1], [MAXYEAR = 9999]. *)
Definition valid_date (d : datetime) : bool :=
  (1 <=? year d) && (year d <=? 9999) &&
  (1 <=? month d) && (month d <=? 12) &&
  (1 <=? day d) && (day d <=? days_in_month (year d) (month d)).

Definition digit_val (c : ascii) : option Z :=
  if is_digit c then Some (code c - 48) else None.

Definition digit_char (d : Z) : ascii := ascii_of_N (Z.to_N (48 + d)).

(** [int(text)] on the text of a matched group: decimal digits, a leading
    blank (as in the day alternative [" [1-9]"]) is skipped. *)
Fixpoint int_acc (acc : Z) (s : string) : Z :=
  match s with
  | "" => acc
  | String c s' =>
      match digit_val c with
      | Some d => int_acc (10 * acc + d) s'
      | None => int_acc acc s'
      end
  end.

Definition int_of (s : string) : Z := int_acc 0 s.

Definition pad2 (n : Z) : string :=
  String (digit_char (n / 10 mod 10)) (String (digit_char (n mod 10)) "").

Definition pad4 (n : Z) : string :=
  String (digit_char (n / 1000 mod 10)) (String (digit_char (n / 100 mod 10)) (pad2 n)).

(** [dt.strftime("%Y-%m-%d")], the year written with four digits (as the
    library documents it). *)
Definition strftime (d : datetime) : string :=
  pad4 (year d) +:+ "-" +:+ pad2 (month d) +:+ "-" +:+ pad2 (day d).

(** *** [datetime.strptime]

    [strptime] turns the format into a regular expression, one group per
    directive, matches it at the start of the text (alternatives are tried
    in order, with backtracking), refuses text left over after the match,
    and builds the date.  The groups below are the ones of CPython's
    [_strptime.TimeRE]. *)

Inductive fmt_item :=
| FY                 (* %Y *)
| Fm                 (* %m *)
| Fd                 (* %d *)
| Fy                 (* %y *)
| FLit (c : ascii).

Definition d19 : cset := Range "1" "9".

Definition directive_re (f : fmt_item) : list (list cset) :=
  match f with
  | FY => [[Digit; Digit; Digit; Digit]]
  | Fy => [[Digit; Digit]]
  | Fm => [[Lit "1"; Range "0" "2"]; [Lit "0"; d19]; [d19]]
  | Fd => [[Lit "3"; Range "0" "1"]; [Range "1" "2"; Digit]; [Lit "0"; d19];
           [d19]; [Lit " "; d19]]
  | FLit c => [[Lit c]]
  end.

(** The ways one group matches at the head of [s], in the order of its
    alternatives. *)
Fixpoint alts (re : list (list cset)) (s : string) : list (string * string) :=
  match re with
  | [] => []
  | p :: re' =>
      match match_seq p s with
      | Some mr => mr :: alts re' s
      | None => alts re' s
      end
  end.

(** All the matches of a format at the head of [s], in the order a
    backtracking matcher finds them: the texts of the groups and the rest. *)
Fixpoint fmt_match (fmt : list fmt_item) (s : string)
  : list (list string * string) :=
  match fmt with
  | [] => [([], s)]
  | f :: fmt' =>
      flat_map
        (fun mr => map (fun gr => (fst mr :: fst gr, snd gr)) (fmt_match fmt' (snd mr)))
        (alts (directive_re f) s)
  end.

(** [%y]: values 69 to 99 are in the 1900s, 0 to 68 in the 2000s. *)
Definition pivot_year (y : Z) : Z :=
  if y <=? 68 then 2000 + y else 1900 + y.

Fixpoint date_of_groups (fmt : list fmt_item) (gs : list string) (d : datetime)
  : datetime :=
  match fmt, gs with
  | f :: fmt', g :: gs' =>
      date_of_groups fmt' gs'
        match f with
        | FY => Datetime (int_of g) (month d) (day d)
        | Fy => Datetime (pivot_year (int_of g)) (month d) (day d)
        | Fm => Datetime (year d) (int_of g) (day d)
        | Fd => Datetime (year d) (month d) (int_of g)
        | FLit _ => d
        end
  | _, _ => d
  end.

(** [None] stands for [ValueError] (no match, unconverted data, or a day
    that the month does not have). *)
Definition strptime (fmt : list fmt_item) (s : string) : option datetime :=
  match fmt_match fmt s with
  | [] => None
  | (gs, rest) :: _ =>
      match rest with
      | "" =>
          let d := date_of_groups fmt gs (Datetime 1900 1 1) in
          if valid_date d then Some d else None
      | String _ _ => None
      end
  end.

Definition fmt_Ymd : list fmt_item := [FY; FLit "-"; Fm; FLit "-"; Fd].  (* "%Y-%m-%d" *)
Definition fmt_mdY : list fmt_item := [Fm; FLit "-"; Fd; FLit "-"; FY].  (* "%m-%d-%Y" *)
Definition fmt_ymd : list fmt_item := [Fy; Fm; Fd].                      (* "%y%m%d" *)
Definition fmt_mdy : list fmt_item := [Fm; Fd; Fy].                      (* "%m%d%y" *)

(** ** Date patterns of the two variants *)

Definition pat_iso : list cset :=    (* \d{4}-\d{2}-\d{2} *)
  [Digit; Digit; Digit; Digit; Lit "-"; Digit; Digit; Lit "-"; Digit; Digit].
Definition pat_mdy : list cset :=    (* \d{2}-\d{2}-\d{4} *)
  [Digit; Digit; Lit "-"; Digit; Digit; Lit "-"; Digit; Digit; Digit; Digit].
Definition pat_und : list cset :=    (* \d{4}_\d{2}_\d{2} *)
  [Digit; Digit; Digit; Digit; Lit "_"; Digit; Digit; Lit "_"; Digit; Digit].
Definition pat_d8 : list cset := repeat Digit 8.   (* \d{8} *)
Definition pat_d6 : list cset := repeat Digit 6.   (* \d{6} *)

(** [DATE_RE] of [organize_memories_gui.py]. *)
Definition DATE_RE : list cset := pat_iso.

(** [DATE_PATTERNS] of [organize_memories_gui2.py], each between two [\b]. *)
Definition DATE_PATTERNS : list (list cset) :=
  [pat_iso; pat_mdy; pat_und; pat_d8; pat_d6].

(** The body of the [try] block shared by [handle_data] and
    [date_from_name] in [organize_memories_gui2.py]: normalise the matched
    text, then validate it.  [None] is the [ValueError] caught by the
    [except] clause. *)
Definition normalize_date (date_str : string) : option string :=
  date_str' ←
    (if contains "_" date_str then
       Some (replace_char "_" "-" date_str)
     else if (String.length date_str =? 8)%nat && negb (contains "-" date_str) then
       Some (slice 0 4 date_str +:+ "-" +:+ slice 4 6 date_str +:+ "-" +:+ slice 6 8 date_str)
     else if (String.length date_str =? 6)%nat then
       dt ← match strptime fmt_ymd date_str with
            | Some dt => Some dt
            | None => strptime fmt_mdy date_str
            end;
       Some (strftime dt)
     else if re_match pat_mdy date_str then
       dt ← strptime fmt_mdY date_str;
       Some (strftime dt)
     else Some date_str);
  _ ← strptime fmt_Ymd date_str';
  Some date_str'.

(** The [for pattern in DATE_PATTERNS] loop: the first pattern whose leftmost
    match normalises to a valid date decides; a pattern whose match is
    refused is skipped ([continue]). *)
Fixpoint first_date (pats : list (list cset)) (text : string) : option string :=
  match pats with
  | [] => None
  | p :: pats' =>
      match re_search p text with
      | Some m =>
          match normalize_date m with
          | Some d => Some d
          | None => first_date pats' text
          end
      | None => first_date pats' text
      end
  end.

(** ** Paths ([pathlib], POSIX flavour)

    A path is the list of its components below the root; the paths the
    program starts from ([html_path], [out_dir]) are absolute. *)

Abbreviation path := (list string).

Fixpoint split_slash (s : string) : list string :=
  match s with
  | "" => [""]
  | String c s' =>
      if Ascii.eqb c "/" then "" :: split_slash s'
      else match split_slash s' with
           | h :: t => String c h :: t
           | [] => [String c ""]
           end
  end.

Definition real_part (s : string) : bool :=
  negb (String.eqb s "") && negb (String.eqb s ".").

(** [PurePath(s).parts] without the root: empty components and single dots
    are dropped when a path is parsed. *)
Definition parts (s : string) : path := filter (fun c => real_part c = true) (split_slash s).

(** [p / s]: an absolute right operand replaces the left one. *)
Definition join_path (p : path) (s : string) : path :=
  if startswith "/" s then parts s else (p ++ parts s)%list.

(** [PurePath.name] *)
Definition path_name (p : path) : string := List.last p "".

Fixpoint resolve_go (acc : path) (p : path) : path :=
  match p with
  | [] => rev acc
  | c :: p' =>
      if String.eqb c ".." then resolve_go (tail acc) p'
      else resolve_go (c :: acc) p'
  end.

(** [Path.resolve()] of an absolute path in a tree without symbolic links:
    [..] steps back. *)
Definition resolve (p : path) : path := resolve_go [] p.

Fixpoint rfind_go (c : ascii) (i : nat) (found : option nat) (s : string) : option nat :=
  match s with
  | "" => found
  | String a s' => rfind_go c (S i) (if Ascii.eqb a c then Some i else found) s'
  end.

(** [s.rfind(c)] *)
Definition rfind (c : ascii) (s : string) : option nat := rfind_go c 0 None s.

(** Where [PurePath.stem] ends and [PurePath.suffix] starts: at the last dot
    of the name, unless it is the first or the last character. *)
Definition suffix_index (name : string) : option nat :=
  match rfind "." name with
  | Some i => if (0 <? i)%nat && (i <? String.length name - 1)%nat then Some i else None
  | None => None
  end.

Definition path_stem (name : string) : string :=
  match suffix_index name with
  | Some i => take_str i name
  | None => name
  end.

Definition path_suffix (name : string) : string :=
  match suffix_index name with
  | Some i => drop_str i name
  | None => ""
  end.

(** ** The file system ([os], [shutil])

    A node is a regular file with its bytes or a directory; [allowed] says
    whether a file may be read, or whether entries may be added to a
    directory.  [mtime] is the local calendar date of [st_mtime], that is
    [datetime.fromtimestamp(st_mtime)] cut to the day.  Directories keep
    the stamp they were created with. *)

Inductive kind :=
| File (content : string)
| Dir.

Record node := Node { nkind : kind; mtime : datetime; allowed : bool }.

Abbreviation fsys := (gmap (list string) node).

Definition is_dir (n : node) : bool :=
  match nkind n with
  | Dir => true
  | File _ => false
  end.

(** The root always is a directory. *)
Definition node_at (fs : fsys) (p : path) : option node :=
  match p with
  | [] => Some (Node Dir (Datetime 1970 1 1) false)
  | _ => fs !! p
  end.

(** [p.exists()] *)
Definition path_exists (fs : fsys) (p : path) : bool :=
  match node_at fs (resolve p) with
  | Some _ => true
  | None => false
  end.

(** [datetime.fromtimestamp(p.stat().st_mtime)] *)
Definition stat_mtime (fs : fsys) (p : path) : res datetime :=
  match node_at fs (resolve p) with
  | Some n => Ret (mtime n)
  | None => Raise OSError
  end.

(** [p.mkdir(parents=True, exist_ok=True)], walking down from [pre]: an
    existing directory is entered, a missing one is created when its parent
    takes new entries, anything else raises. *)
Fixpoint mkdir_from (now : datetime) (fs : fsys) (pre : path) (rest : path) : res fsys :=
  match rest with
  | [] => Ret fs
  | c :: rest' =>
      let p := (pre ++ [c])%list in
      match node_at fs p with
      | Some n => if is_dir n then mkdir_from now fs p rest' else Raise OSError
      | None =>
          match node_at fs pre with
          | Some parent =>
              if is_dir parent && allowed parent
              then mkdir_from now (<[p := Node Dir now true]> fs) p rest'
              else Raise OSError
          | None => Raise OSError
          end
      end
  end.

Definition mkdir_p (now : datetime) (fs : fsys) (p : path) : res fsys :=
  mkdir_from now fs [] (resolve p).

(** [shutil.copy2(src, dst)]: the bytes and the metadata of a readable
    regular file are written to [dst] (into [dst], under the name of the
    source, when [dst] is a directory), replacing a file that is there.
    Source and destination must differ, and the directory of the
    destination must take entries. *)
Definition copy2 (fs : fsys) (src dst : path) : res fsys :=
  match node_at fs (resolve src) with
  | Some (Node (File c) mt true) =>
      let dst :=
        match node_at fs (resolve dst) with
        | Some (Node Dir _ _) => (resolve dst ++ [path_name src])%list
        | _ => resolve dst
        end in
      if decide (dst = resolve src) then Raise OSError
      else
        match dst, node_at fs dst, node_at fs (removelast dst) with
        | [], _, _ => Raise OSError
        | _, Some (Node Dir _ _), _ => Raise OSError
        | _, _, Some (Node Dir _ true) => Ret (<[dst := Node (File c) mt true]> fs)
        | _, _, _ => Raise OSError
        end
  | _ => Raise OSError
  end.

(** ** What [HTMLParser] hands to its subclass

    [HTMLParser.feed] cuts the text into start tags (names in lower case,
    attributes as (name, value) pairs, the value [None] for an attribute
    written without one), end tags and runs of text, and calls the handlers
    in document order.  The tokenizer itself is the library's; the
    handlers are the repository's. *)

Inductive event :=
| StartTag (tag : string) (attrs : list (string * option string))
| EndTag (tag : string)
| Data (data : string).

(** [{"src": ..., "date": ...}] *)
Record item := Item { src : string; date : string }.

(** [dict(attrs).get(k)]: of two bindings of one name the later one stays. *)
Fixpoint dict_get (attrs : list (string * option string)) (k : string)
  : option (option string) :=
  match attrs with
  | [] => None
  | (n, v) :: attrs' =>
      match dict_get attrs' k with
      | Some v' => Some v'
      | None => if String.eqb n k then Some v else None
      end
  end.

(** [attrs.get("src") or ""] *)
Definition get_src (attrs : list (string * option string)) : string :=
  match dict_get attrs "src" with
  | Some (Some v) => v
  | _ => ""
  end.

(** [self.items[idx]["date"] = d] *)
Definition set_date (items : list item) (idx : nat) (d : string) : res (list item) :=
  match items !! idx with
  | Some it => Ret (<[idx := Item (src it) d]> items)
  | None => Raise IndexError
  end.

Definition is_media (tag : string) : bool :=
  String.eqb tag "img" || String.eqb tag "video".

(** *** [organize_memories_gui.py]: class [MemoriesHTML] *)
Module V1.

Record MemoriesHTML := Parser {
  items : list item;
  _buf : string;
  _in_textline : bool;
  _last_media_index : option nat
}.

Definition init : MemoriesHTML := Parser [] "" false None.

Definition handle_starttag (self : MemoriesHTML) (tag : string)
    (attrs : list (string * option string)) : res MemoriesHTML :=
  let tag := lower tag in
  if is_media tag then
    let src := get_src attrs in
    if negb (String.eqb src "") then
      let items' := (items self ++ [Item src ""])%list in
      Ret (Parser items' (_buf self) (_in_textline self) (Some (length items' - 1)%nat))
    else Ret self
  else if String.eqb tag "div" then
    (* cls = attrs.get("class", ""); isinstance(cls, str) and "text-line" in cls *)
    match dict_get attrs "class" with
    | Some (Some cls) =>
        if contains "text-line" cls
        then Ret (Parser (items self) (_buf self) true (_last_media_index self))
        else Ret self
    | Some None | None => Ret self
    end
  else Ret self.

Definition handle_endtag (self : MemoriesHTML) (tag : string) : res MemoriesHTML :=
  if String.eqb (lower tag) "div"
  then Ret (Parser (items self) (_buf self) false (_last_media_index self))
  else Ret self.

Definition handle_data (self : MemoriesHTML) (data : string) : res MemoriesHTML :=
  if String.eqb data "" then Ret self
  else
    let self := Parser (items self) (_buf self +:+ data) (_in_textline self)
                       (_last_media_index self) in
    match _in_textline self, _last_media_index self with
    | true, Some idx =>
        match re_search DATE_RE data with
        | Some m =>
            items' ← set_date (items self) idx m;
            Ret (Parser items' (_buf self) (_in_textline self) (_last_media_index self))
        | None => Ret self
        end
    | _, _ => Ret self
    end.

Definition handle (self : MemoriesHTML) (e : event) : res MemoriesHTML :=
  match e with
  | StartTag tag attrs => handle_starttag self tag attrs
  | EndTag tag => handle_endtag self tag
  | Data data => handle_data self data
  end.

(** [parser.feed(text)], on the events of [text]. *)
Fixpoint feed (self : MemoriesHTML) (es : list event) : res MemoriesHTML :=
  match es with
  | [] => Ret self
  | e :: es' => self' ← handle self e; feed self' es'
  end.

(** [date_from_name(path)] *)
Definition date_from_name (p : path) : string :=
  match re_search DATE_RE (path_name p) with
  | Some m => m
  | None => ""
  end.

End V1.

(** *** [organize_memories_gui2.py]: class [MemoriesHTML] *)
Module V2.

Record MemoriesHTML := Parser {
  items : list item;
  _in_textline : bool;
  _last_media_index : option nat
}.

Definition init : MemoriesHTML := Parser [] false None.

Definition handle_starttag (self : MemoriesHTML) (tag : string)
    (attrs : list (string * option string)) : res MemoriesHTML :=
  let tag := lower tag in
  if is_media tag then
    let src := get_src attrs in
    if negb (String.eqb src "") then
      let items' := (items self ++ [Item src ""])%list in
      Ret (Parser items' (_in_textline self) (Some (length items' - 1)%nat))
    else Ret self
  else if String.eqb tag "div" then
    (* "class" in attrs and "text-line" in attrs["class"] *)
    match dict_get attrs "class" with
    | Some (Some cls) =>
        if contains "text-line" cls
        then Ret (Parser (items self) true (_last_media_index self))
        else Ret self
    | Some None => Raise TypeError      (* "text-line" in None *)
    | None => Ret self
    end
  else Ret self.

Definition handle_endtag (self : MemoriesHTML) (tag : string) : res MemoriesHTML :=
  if String.eqb (lower tag) "div"
  then Ret (Parser (items self) false (_last_media_index self))
  else Ret self.

Definition handle_data (self : MemoriesHTML) (data : string) : res MemoriesHTML :=
  match _in_textline self, _last_media_index self with
  | true, Some idx =>
      match first_date DATE_PATTERNS data with
      | Some date_str =>
          items' ← set_date (items self) idx date_str;
          Ret (Parser items' (_in_textline self) (_last_media_index self))
      | None => Ret self
      end
  | _, _ => Ret self
  end.

Definition handle (self : MemoriesHTML) (e : event) : res MemoriesHTML :=
  match e with
  | StartTag tag attrs => handle_starttag self tag attrs
  | EndTag tag => handle_endtag self tag
  | Data data => handle_data self data
  end.

Fixpoint feed (self : MemoriesHTML) (es : list event) : res MemoriesHTML :=
  match es with
  | [] => Ret self
  | e :: es' => self' ← handle self e; feed self' es'
  end.

(** [date_from_name(path)] *)
Definition date_from_name (p : path) : string :=
  match first_date DATE_PATTERNS (path_name p) with
  | Some date_str => date_str
  | None => ""
  end.

End V2.

(** [normalize_src(src)], the same in both files. *)
Definition normalize_src (src : string) : string :=
  let s := strip src in
  let s := if startswith ".//" s then drop_str 3 s
           else if startswith "./" s then drop_str 2 s
           else s in
  before_char "?" s.

(** [fallback_date_from_fs(path)] *)
Definition fallback_date_from_fs (fs : fsys) (p : path) : res string :=
  dt ← stat_mtime fs p; Ret (strftime dt).

(** ** The worker thread

    What the thread receives from outside: the codecs and the tokenizer of
    the standard library, the value of the [cancel] event each time it is
    polled (it is set by the GUI thread at a moment of its own choosing),
    and the clock. *)

Inductive encoding := utf_8 | latin_1 | cp1252 | iso_8859_1.

Record environment := Env {
  decode : encoding -> string -> option string;   (* strict; [None] is [UnicodeDecodeError] *)
  decode_ignore : string -> string;                (* utf-8 with [errors="ignore"] *)
  tokenize : string -> list event;                 (* the events of [HTMLParser.feed] *)
  cancel : nat -> bool;                            (* [cancel.is_set()] at the [n]-th poll *)
  now : datetime
}.

Inductive variant :=
| Gui     (* organize_memories_gui.py *)
| Gui2.   (* organize_memories_gui2.py *)

(** The items a parser has collected once the events [es] are handled. *)
Definition extract (v : variant) (es : list event) : res (list item) :=
  match v with
  | Gui => p ← V1.feed V1.init es; Ret (V1.items p)
  | Gui2 => p ← V2.feed V2.init es; Ret (V2.items p)
  end.

(** Messages put on [ui_q]; the texts are kept as their parts. *)
Inductive progress_text :=
| MISSING (raw_src : string)
| OK (target_name : string)
| IO_ERROR (e : exn)
| ERROR (e : exn).

Inductive error_text :=
| CouldNotRead (enc : option encoding) (e : exn)
| NoSupportedEncoding
| NoMediaEntries.

Inductive ui_msg :=
| meta (total : nat)
| progress (i total : nat) (t : progress_text)
| log (ok fail : nat)          (* "Cancelled. Success: ..., Failed: ..." *)
| done (ok fail : nat)
| error (t : error_text).

(** What the thread does to the outside, in the order it does it. *)
Inductive action :=
| IsSet (b : bool)                            (* [self.cancel.is_set()] *)
| Put (m : ui_msg)                            (* [self.ui_q.put(m)] *)
| Mkdir (p : path) (r : option exn)           (* [tgt_dir.mkdir(...)] *)
| Copy2 (src dst : path) (r : option exn).    (* [shutil.copy2(src, dst)] *)

Record world := World {
  fs : fsys;
  ok : nat;
  fail : nat;
  trace : list action
}.

Definition emit (w : world) (a : action) : world :=
  World (fs w) (ok w) (fail w) (trace w ++ [a])%list.

Definition with_fs (w : world) (fs' : fsys) : world :=
  World fs' (ok w) (fail w) (trace w).

Definition ok_incr (w : world) : world :=
  World (fs w) (S (ok w)) (fail w) (trace w).

Definition fail_incr (w : world) : world :=
  World (fs w) (ok w) (S (fail w)) (trace w).

(** How a run ends: with ["done"], with the ["log"] of a cancellation, with
    an ["error"] message, or with an exception that nothing catches (the
    thread dies and no message follows). *)
Inductive status :=
| Finished
| Cancelled
| Fatal
| Uncaught (e : exn).

Definition read_bytes (fs : fsys) (p : path) : res string :=
  match node_at fs (resolve p) with
  | Some (Node (File c) _ true) => Ret c
  | _ => Raise OSError
  end.

(** [f"{Path(base_name).stem}_{sfx}{Path(base_name).suffix}"] *)
Definition numbered (base_name : string) (sfx : nat) : string :=
  path_stem (path_name (parts base_name)) +:+ "_" +:+ pretty sfx
  +:+ path_suffix (path_name (parts base_name)).

(** The [while target.exists()] loop, [target] being the candidate at hand
    and [sfx] the next number. *)
Fixpoint free_target (fs : fsys) (tgt_dir : path) (base_name : string)
    (fuel : nat) (sfx : nat) (target : path) : option path :=
  if path_exists fs target then
    match fuel with
    | O => None
    | S fuel' =>
        free_target fs tgt_dir base_name fuel' (S sfx)
          (join_path tgt_dir (numbered base_name sfx))
    end
  else Some target.

Section Worker.

Variable env : environment.
Variable v : variant.
Variables html_path out_dir : path.

Definition date_from_name (p : path) : string :=
  match v with
  | Gui => V1.date_from_name p
  | Gui2 => V2.date_from_name p
  end.

(** [it.get("date") or date_from_name(src_path) or fallback_date_from_fs(src_path)] *)
Definition first_nonempty (fs : fsys) (it : item) (src_path : path) : res string :=
  if negb (String.eqb (date it) "") then Ret (date it)
  else if negb (String.eqb (date_from_name src_path) "") then Ret (date_from_name src_path)
  else fallback_date_from_fs fs src_path.

(** The date of an item: [organize_memories_gui2.py] checks the string once
    more and falls back on the time stamp; the other file takes it as is. *)
Definition effective_date (fs : fsys) (it : item) (src_path : path) : res string :=
  date_str ← first_nonempty fs it src_path;
  match v with
  | Gui => Ret date_str
  | Gui2 =>
      match strptime fmt_Ymd date_str with
      | Some _ => Ret date_str
      | None => fallback_date_from_fs fs src_path
      end
  end.

(** [i % update_interval == 0 or i == len(items) or i == 1] *)
Definition shown (i total : nat) : bool :=
  match v with
  | Gui => true
  | Gui2 =>
      let update_interval := Nat.max 1 (total / 100) in
      (i mod update_interval =? 0)%nat || (i =? total)%nat || (i =? 1)%nat
  end.

Definition emit_if (b : bool) (w : world) (a : action) : world :=
  if b then emit w a else w.

Definition copy_failed (e : exn) : progress_text :=
  match v, e with
  | Gui2, OSError => IO_ERROR e
  | _, _ => ERROR e
  end.

Definition base_dir : path := removelast html_path.

(** The source path of an item: the resolved reference, or the bare file
    name next to the HTML file when only that one exists. *)
Definition locate (fs : fsys) (rel : string) : path :=
  let src_path := resolve (join_path base_dir rel) in
  if negb (path_exists fs src_path) then
    let alt := join_path base_dir (path_name (parts rel)) in
    if path_exists fs alt then alt else src_path
  else src_path.

(** One turn of the [for] loop after the poll.  [Some e] in the result: [e]
    leaves the loop uncaught. *)
Definition process (i total : nat) (it : item) (w : world) : world * option exn :=
  let raw_src := src it in
  let rel := normalize_src raw_src in
  let src_path := locate (fs w) rel in
  if negb (path_exists (fs w) src_path) then
    (emit_if (shown i total) (fail_incr w) (Put (progress i total (MISSING raw_src))), None)
  else
    match effective_date (fs w) it src_path with
    | Raise e => (w, Some e)
    | Ret date_str =>
        let year := take_str 4 date_str in
        let ym := take_str 7 date_str in
        let tgt_dir := join_path (join_path out_dir year) ym in
        match mkdir_p (now env) (fs w) tgt_dir with
        | Raise e => (emit w (Mkdir tgt_dir (Some e)), Some e)
        | Ret fs1 =>
            let w := emit (with_fs w fs1) (Mkdir tgt_dir None) in
            let base_name := date_str +:+ "_" +:+ path_name src_path in
            match free_target fs1 tgt_dir base_name (S (size fs1)) 1
                    (join_path tgt_dir base_name) with
            | None => (w, Some OutOfFuel)
            | Some target =>
                match copy2 fs1 src_path target with
                | Ret fs2 =>
                    (emit_if (shown i total)
                       (emit (ok_incr (with_fs w fs2)) (Copy2 src_path target None))
                       (Put (progress i total (OK (path_name target)))), None)
                | Raise e =>
                    (emit (emit (fail_incr w) (Copy2 src_path target (Some e)))
                       (Put (progress i total (copy_failed e))), None)
                end
            end
        end
    end.

(** [for i, it in enumerate(items, 1)] and the ["done"] message after it. *)
Fixpoint loop (total : nat) (i : nat) (its : list item) (w : world) : world * status :=
  match its with
  | [] => (emit w (Put (done (ok w) (fail w))), Finished)
  | it :: its' =>
      if cancel env i then
        let w := emit w (IsSet true) in
        (emit w (Put (log (ok w) (fail w))), Cancelled)
      else
        match process i total it (emit w (IsSet false)) with
        | (w', Some e) => (w', Uncaught e)
        | (w', None) => loop total (S i) its' w'
        end
  end.

Definition read_text (fs : fsys) (enc : encoding) : res string :=
  b ← read_bytes fs html_path;
  match decode env enc b with
  | Some t => Ret t
  | None => Raise UnicodeDecodeError
  end.

(** [for encoding in encodings: try ... except UnicodeDecodeError: continue
    except Exception: error]; [inr None] when the list is used up. *)
Fixpoint read_any (fs : fsys) (encodings : list encoding) : error_text + option string :=
  match encodings with
  | [] => inr None
  | enc :: encodings' =>
      match read_text fs enc with
      | Ret t => inr (Some t)
      | Raise UnicodeDecodeError => read_any fs encodings'
      | Raise e => inl (CouldNotRead (Some enc) e)
      end
  end.

Definition encodings : list encoding := [utf_8; latin_1; cp1252; iso_8859_1].

(** The text of the HTML file, or the ["error"] message of the run. *)
Definition read_html (fs : fsys) : error_text + string :=
  match v with
  | Gui =>
      match read_bytes fs html_path with
      | Ret b => inr (decode_ignore env b)
      | Raise e => inl (CouldNotRead None e)
      end
  | Gui2 =>
      match read_any fs encodings with
      | inl t => inl t
      | inr (Some t) => inr t
      | inr None => inl NoSupportedEncoding
      end
  end.

(** [parser = MemoriesHTML(); parser.feed(text); items = parser.items] *)
Definition parse (text : string) : res (list item) :=
  extract v (tokenize env text).

(** [Worker.run] *)
Definition run (fs0 : fsys) : world * status :=
  let w := World fs0 0 0 [] in
  match read_html fs0 with
  | inl t => (emit w (Put (error t)), Fatal)
  | inr text =>
      match parse text with
      | Raise e => (w, Uncaught e)
      | Ret items =>
          match items with
          | [] => (emit w (Put (error NoMediaEntries)), Fatal)
          | _ :: _ =>
              loop (length items) 1 items (emit w (Put (meta (length items))))
          end
      end
  end.

End Worker.

(** ** The window (class [App])

    The state of the window is what its handlers read and write: the two
    entries, the status line, the flag shared with the worker, the worker
    started last, the progress bar, the log, the two buttons, and the error
    dialogs shown so far.  Texts are kept as their parts (the Dutch and the
    English file differ in the wording only). *)

Inductive status_text :=
| Ready                                            (* "Ready." *)
| Working                                          (* "Working..." *)
| Cancelling                                       (* "Cancelling..." *)
| StatusLine (i total : nat) (t : progress_text)   (* the line of a ["progress"] message *)
| StatusDone                                       (* "Done" *)
| StatusError.                                     (* "Error." *)

Inductive dialog :=
| InvalidHtml                    (* "Please select a valid memories.html" *)
| NoOutputFolder                 (* "Please select an output folder" *)
| WorkerError (t : error_text).  (* the line of an ["error"] message *)

Record App := mkApp {
  html_var : string;
  out_var : string;
  status_var : status_text;
  cancel_flag : bool;
  worker : option (path * path);   (* [Worker(html_path, out_dir, ui_q, cancel_flag)] *)
  pb_value : nat;
  pb_maximum : nat;
  txt : list ui_msg;               (* one line per message, ["ERROR: "] before an error *)
  btn_start : bool;                (* [state="normal"] *)
  btn_cancel : bool;
  dialogs : list dialog
}.

(** [App.__init__] with [_build_ui] *)
Definition App_init : App :=
  mkApp "" "" Ready false None 0 100 [] true false [].

(** [_pick_html], [p] being what the file dialog returns (the empty string
    when it is dismissed). *)
Definition _pick_html (p : string) (self : App) : App :=
  if negb (String.eqb p "") then
    mkApp p (out_var self) (status_var self) (cancel_flag self) (worker self)
      (pb_value self) (pb_maximum self) (txt self) (btn_start self) (btn_cancel self)
      (dialogs self)
  else self.

Definition _pick_out (p : string) (self : App) : App :=
  if negb (String.eqb p "") then
    mkApp (html_var self) p (status_var self) (cancel_flag self) (worker self)
      (pb_value self) (pb_maximum self) (txt self) (btn_start self) (btn_cancel self)
      (dialogs self)
  else self.

Definition showerror (d : dialog) (self : App) : App :=
  mkApp (html_var self) (out_var self) (status_var self) (cancel_flag self) (worker self)
    (pb_value self) (pb_maximum self) (txt self) (btn_start self) (btn_cancel self)
    (dialogs self ++ [d])%list.

(** [_on_start]: the entries are checked against the file system; when they
    pass, the flag is cleared, a worker is made and the window is reset.
    [Path(html)] is read from the root, as the paths of the worker are. *)
Definition _on_start (fs : fsys) (self : App) : App :=
  let html := strip (html_var self) in
  let out := strip (out_var self) in
  if String.eqb html "" || negb (path_exists fs (parts html)) then
    showerror InvalidHtml self
  else if String.eqb out "" then
    showerror NoOutputFolder self
  else
    mkApp (html_var self) (out_var self) Working false (Some (parts html, parts out))
      0 1 [] false true (dialogs self).

(** [_on_cancel], [alive] being [self.worker.is_alive()]. *)
Definition _on_cancel (alive : bool) (self : App) : App :=
  match worker self with
  | Some _ =>
      if alive then
        mkApp (html_var self) (out_var self) Cancelling true (worker self)
          (pb_value self) (pb_maximum self) (txt self) (btn_start self) (btn_cancel self)
          (dialogs self)
      else self
  | None => self
  end.

(** The body of the [while] loop of [_pump] for one message. *)
Definition pump_msg (self : App) (msg : ui_msg) : App :=
  match msg with
  | meta total =>
      mkApp (html_var self) (out_var self) (status_var self) (cancel_flag self)
        (worker self) 0 (Nat.max total 1) (txt self) (btn_start self) (btn_cancel self)
        (dialogs self)
  | progress idx total t =>
      mkApp (html_var self) (out_var self) (StatusLine idx total t) (cancel_flag self)
        (worker self) idx (pb_maximum self) (txt self ++ [msg])%list
        (btn_start self) (btn_cancel self) (dialogs self)
  | log _ _ =>
      mkApp (html_var self) (out_var self) (status_var self) (cancel_flag self)
        (worker self) (pb_value self) (pb_maximum self) (txt self ++ [msg])%list
        (btn_start self) (btn_cancel self) (dialogs self)
  | done _ _ =>
      mkApp (html_var self) (out_var self) StatusDone (cancel_flag self)
        (worker self) (pb_value self) (pb_maximum self) (txt self ++ [msg])%list
        true false (dialogs self)
  | error t =>
      mkApp (html_var self) (out_var self) StatusError (cancel_flag self)
        (worker self) (pb_value self) (pb_maximum self) (txt self ++ [msg])%list
        true false (dialogs self ++ [WorkerError t])%list
  end.

(** [_pump]: the messages found on the queue are taken in their order (the
    timer that calls [_pump] again is left out). *)
Definition _pump (self : App) (msgs : list ui_msg) : App :=
  fold_left pump_msg msgs self.

(** What happens to the window while a worker runs: a message is taken
    from the queue, or the Cancel button is pressed. *)
Inductive gui_event :=
| Took (msg : ui_msg)
| CancelPressed (alive : bool).

Definition gui_step (self : App) (e : gui_event) : App :=
  match e with
  | Took msg => pump_msg self msg
  | CancelPressed alive => _on_cancel alive self
  end.

(** ** Vocabulary of the statements *)

(** A decimal digit. *)
Definition is_dig (a : Z) : Prop := 0 <= a < 10.

(** The text of a list of digits. *)
Fixpoint digits (l : list Z) : string :=
  match l with
  | [] => ""
  | a :: l' => String (digit_char a) (digits l')
  end.

(** [after] is [before] with a new date in its last item. *)
Definition attaches_to_last (before after : list item) : Prop :=
  exists pre it d, before = (pre ++ [it])%list /\ after = (pre ++ [Item (src it) d])%list.

(** C4 as it is stated: a hint that is set stays. *)
Definition hint_set_once (v : variant) : Prop :=
  forall es data its its' i it,
    extract v es = Ret its ->
    extract v (es ++ [Data data]) = Ret its' ->
    its !! i = Some it -> date it <> "" ->
    its' !! i = Some it.

(** [<div class="text-line">data</div>] *)
Definition text_line (data : string) : list event :=
  [StartTag "div" [("class", Some "text-line")]; Data data; EndTag "div"].

(** [c in s] for a character. *)
Fixpoint mem_char (c : ascii) (s : string) : bool :=
  match s with
  | "" => false
  | String a s' => Ascii.eqb a c || mem_char c s'
  end.

Definition is_poll (a : action) : bool :=
  match a with
  | IsSet _ => true
  | _ => false
  end.

(** How often the flag was read. *)
Definition polls (tr : list action) : nat := length (filter (fun a => is_poll a = true) tr).

(** Where the copies that succeeded went. *)
Definition copied (tr : list action) : list path :=
  omap (fun a => match a with
                 | Copy2 _ dst None => Some (resolve dst)
                 | _ => None
                 end) tr.

(** Messages that go with one item, as opposed to those that frame or end
    a run. *)
Definition item_action (a : action) : Prop :=
  match a with
  | IsSet _ => False
  | Put (progress _ _ _) => True
  | Put _ => False
  | Mkdir _ _ => True
  | Copy2 _ _ _ => True
  end.


(** ** Small worlds to run the program in *)

Definition demo_env (es : list event) (flag : nat -> bool) : environment :=
  Env (fun _ b => Some b) (fun b => b) (fun _ => es) flag (Datetime 2026 11 4).

Definition never : nat -> bool := fun _ => false.

Definition plain_file (d : datetime) : node := Node (File "bytes") d true.
Definition folder : node := Node Dir (Datetime 2020 1 1) true.

Definition demo_html : path := ["home"; "export"; "memories.html"].
Definition demo_out : path := ["home"; "out"].

Definition demo_fs : fsys :=
  list_to_map
    [(["home"], folder); (["home"; "export"], folder); (["home"; "out"], folder);
     (demo_html, plain_file (Datetime 2024 2 2));
     (["home"; "export"; "a.jpg"], plain_file (Datetime 2021 3 9));
     (["home"; "export"; "b.jpg"], plain_file (Datetime 2022 7 14))].

(** The same, [OUT/2023] being a regular file. *)
Definition blocked_fs : fsys :=
  <[ ["home"; "out"; "2023"] := plain_file (Datetime 2020 1 1) ]> demo_fs.

(** The same, the output folder taking no new entries. *)
Definition readonly_fs : fsys :=
  <[ ["home"; "out"] := Node Dir (Datetime 2020 1 1) false ]> demo_fs.

Definition media (src : string) : event := StartTag "img" [("src", Some src)].

(** ** Invariants used in the proofs *)

(** The index kept by a parser is the one of the item created last. *)
Definition inv2 (p : V2.MemoriesHTML) : Prop :=
  match V2._last_media_index p with
  | None => V2.items p = []
  | Some i => i = (length (V2.items p) - 1)%nat /\ V2.items p <> []
  end.

Definition inv1 (p : V1.MemoriesHTML) : Prop :=
  match V1._last_media_index p with
  | None => V1.items p = []
  | Some i => i = (length (V1.items p) - 1)%nat /\ V1.items p <> []
  end.


(** What one turn of the loop does to the world. *)
Record turn_spec (w w' : world) (r : option exn) (tr : list action) : Prop := {
  turn_trace : trace w' = (trace w ++ tr)%list;
  turn_grows : fs w ⊆ fs w';
  turn_items : Forall item_action tr;
  turn_copied : copied tr = [] \/
                exists t, copied tr = [t] /\ fs w !! t = None /\ is_Some (fs w' !! t);
  turn_counts : match r with
                | None => (ok w' + fail w' = S (ok w + fail w))%nat
                | Some e => e = OSError /\ ok w' = ok w /\ fail w' = fail w /\
                            fs w' = fs w /\ exists d, tr = [Mkdir d (Some OSError)]
                end
}.


(** ** Vocabulary of the statements on documents, runs and the window *)

(** The sources of the media tags among the events, in document order: the
    tags [img] and [video] (in any case) that carry a non-empty [src]. *)
Fixpoint media_srcs (es : list event) : list string :=
  match es with
  | [] => []
  | StartTag tag attrs :: es' =>
      if is_media (lower tag) && negb (String.eqb (get_src attrs) "")
      then get_src attrs :: media_srcs es'
      else media_srcs es'
  | _ :: es' => media_srcs es'
  end.

(** A start tag [div] whose [class] attribute is written without a value. *)
Definition bare_class_div (e : event) : bool :=
  match e with
  | StartTag tag attrs =>
      negb (is_media (lower tag)) && String.eqb (lower tag) "div" &&
      match dict_get attrs "class" with
      | Some None => true
      | _ => false
      end
  | _ => false
  end.

(** Any event but the start of a [div]. *)
Definition no_div_start (e : event) : bool :=
  match e with
  | StartTag tag _ => is_media (lower tag) || negb (String.eqb (lower tag) "div")
  | _ => true
  end.

(** A text of the form [dddd-dd-dd]. *)
Definition iso_shaped (d : string) : Prop := match_seq pat_iso d = Some (d, "").

(** The text [strftime] writes for a date of the calendar. *)
Definition real_date (d : string) : Prop :=
  exists dt, valid_date dt = true /\ d = strftime dt.

(** The messages on [ui_q], in the order they were put. *)
Definition queue (tr : list action) : list ui_msg :=
  omap (fun a => match a with Put m => Some m | _ => None end) tr.

(** The item numbers of the ["progress"] messages. *)
Definition progress_indices (ms : list ui_msg) : list nat :=
  omap (fun m => match m with progress i _ _ => Some i | _ => None end) ms.

(** [dst] holds the bytes and the time stamp of [src]. *)
Definition same_file (fs : fsys) (src dst : path) : Prop :=
  exists c mt, fs !! resolve src = Some (Node (File c) mt true) /\
               fs !! resolve dst = Some (Node (File c) mt true).



(** What holds of the ["progress"] messages put while the items [i0] to
    [i - 1] were handled. *)
Record reported (v : variant) (total i0 i : nat) (ps : list ui_msg) : Prop := {
  rep_progress : Forall (fun m => exists j x, m = progress j total x /\ (i0 <= j < i)%nat) ps;
  rep_sorted : StronglySorted lt (progress_indices ps);
  rep_shown : forall j, (i0 <= j < i)%nat -> shown v j total = true ->
                j ∈ progress_indices ps
}.

(** The messages taken, in their order. *)
Definition taken (evs : list gui_event) : list ui_msg :=
  omap (fun e => match e with Took m => Some m | CancelPressed _ => None end) evs.

(** The entries of the window pass the checks of [_on_start] and name the
    two paths. *)
Definition starts (fs : fsys) (self : App) (html_path out_dir : path) : Prop :=
  strip (html_var self) <> "" /\ strip (out_var self) <> "" /\
  html_path = parts (strip (html_var self)) /\
  out_dir = parts (strip (out_var self)) /\
  path_exists fs html_path = true.

(** What the window shows apart from the status line: the bar, the log,
    the buttons and the dialogs. *)
Definition controls (self : App) : nat * nat * list ui_msg * bool * bool * list dialog :=
  (pb_value self, pb_maximum self, txt self, btn_start self, btn_cancel self, dialogs self).

(** A message that moves the bar within [0 .. n], or leaves it alone. *)
Definition within (n : nat) (m : ui_msg) : Prop :=
  match m with
  | meta _ => False
  | progress j _ _ => (j <= n)%nat
  | log _ _ | done _ _ | error _ => True
  end.

(** The window once both entries are filled in. *)
Definition demo_app : App :=
  _pick_out "/home/out " (_pick_html "/home/export/memories.html" App_init).

(** * Properties *)

(** ** Dates *)

(** Case analysis over the ten values of a digit. *)
Ltac each_digit a :=
  match goal with
  | H : is_dig a |- _ =>
      let E := fresh in
      assert (E : a = 0 \/ a = 1 \/ a = 2 \/ a = 3 \/ a = 4 \/ a = 5 \/ a = 6 \/
                  a = 7 \/ a = 8 \/ a = 9) by (unfold is_dig in H; lia);
      clear H; repeat (destruct E as [E | E]; [subst a | ]); [.. | subst a]
  end.

(** The alternatives of a group on a text that begins with two digits. *)
Lemma alts_Fm a b rest : is_dig a -> is_dig b ->
  alts (directive_re Fm) (String (digit_char a) (String (digit_char b) rest)) =
  ((if (1 <=? 10 * a + b) && (10 * a + b <=? 12)
    then [(String (digit_char a) (String (digit_char b) ""), rest)] else []) ++
   (if 1 <=? a then [(String (digit_char a) "", String (digit_char b) rest)] else []))%list.
Proof.
  intros Ha Hb. each_digit a; each_digit b; reflexivity.
Qed.

Lemma alts_Fd a b rest : is_dig a -> is_dig b ->
  alts (directive_re Fd) (String (digit_char a) (String (digit_char b) rest)) =
  ((if (1 <=? 10 * a + b) && (10 * a + b <=? 31)
    then [(String (digit_char a) (String (digit_char b) ""), rest)] else []) ++
   (if 1 <=? a then [(String (digit_char a) "", String (digit_char b) rest)] else []))%list.
Proof.
  intros Ha Hb. each_digit a; each_digit b; reflexivity.
Qed.

Lemma alts_Fy a b rest : is_dig a -> is_dig b ->
  alts (directive_re Fy) (String (digit_char a) (String (digit_char b) rest)) =
  [(String (digit_char a) (String (digit_char b) ""), rest)].
Proof.
  intros Ha Hb. each_digit a; each_digit b; reflexivity.
Qed.

Lemma int_of_2 a b : is_dig a -> is_dig b ->
  int_of (String (digit_char a) (String (digit_char b) "")) = 10 * a + b.
Proof.
  intros Ha Hb. each_digit a; each_digit b; reflexivity.
Qed.

Lemma days_in_month_le y m : days_in_month y m <= 31.
Proof. unfold days_in_month. repeat case_match; lia. Qed.

Lemma valid_date_range r : valid_date r = true ->
  1 <= year r <= 9999 /\ 1 <= month r <= 12 /\ 1 <= day r <= 31.
Proof.
  unfold valid_date. rewrite !andb_true_iff, !Z.leb_le.
  pose proof (days_in_month_le (year r) (month r)). lia.
Qed.

(** Closes [None = if valid_date r then _ else _] when a month or a day is
    out of range. *)
Ltac bad_date :=
  match goal with
  | |- None = (if valid_date ?r then _ else _) =>
      let V := fresh in
      destruct (valid_date r) eqn:V; [ | reflexivity];
      apply valid_date_range in V; cbn [year month day] in V;
      repeat match goal with
             | E : (_ && _) = false |- _ =>
                 apply andb_false_iff in E; rewrite !Z.leb_gt in E
             | E : (_ <=? _) = false |- _ => rewrite Z.leb_gt in E
             end; lia
  end.

Lemma is_digit_digit_char a : is_dig a -> is_digit (digit_char a) = true.
Proof. intros Ha. each_digit a; reflexivity. Qed.

Lemma digit_val_digit_char a : is_dig a -> digit_val (digit_char a) = Some a.
Proof. intros Ha. each_digit a; reflexivity. Qed.

Lemma alts_FY a b c d rest : is_dig a -> is_dig b -> is_dig c -> is_dig d ->
  alts (directive_re FY)
    (String (digit_char a) (String (digit_char b) (String (digit_char c)
       (String (digit_char d) rest)))) =
  [(String (digit_char a) (String (digit_char b) (String (digit_char c)
       (String (digit_char d) ""))), rest)].
Proof.
  intros. cbn [alts directive_re match_seq cset_mem].
  rewrite !is_digit_digit_char by done. reflexivity.
Qed.

Lemma int_of_4 a b c d : is_dig a -> is_dig b -> is_dig c -> is_dig d ->
  int_of (String (digit_char a) (String (digit_char b) (String (digit_char c)
       (String (digit_char d) "")))) = 1000 * a + 100 * b + 10 * c + d.
Proof.
  intros. unfold int_of. cbn [int_acc].
  rewrite !digit_val_digit_char by done. lia.
Qed.

Lemma alts_dash rest :
  alts (directive_re (FLit "-")) (String "-" rest) = [("-", rest)].
Proof. reflexivity. Qed.

Lemma alts_dash_digit a rest : is_dig a ->
  alts (directive_re (FLit "-")) (String (digit_char a) rest) = [].
Proof. intros Ha. each_digit a; reflexivity. Qed.

(** Unfolds the matches of a format on digits, case by case. *)
Ltac split_alts :=
  repeat first
    [ rewrite alts_Fy by done
    | rewrite alts_FY by done
    | rewrite alts_Fm by done
    | rewrite alts_Fd by done
    | rewrite alts_dash
    | rewrite alts_dash_digit by done
    | progress cbn [flat_map map app fst snd]
    | match goal with
      | |- context [if ?b then _ else _] =>
          lazymatch b with
          | valid_date _ => fail
          | _ => let E := fresh "E" in destruct b eqn:E
          end
      end ].

(** On six digits [%y%m%d] and [%m%d%y] are the readings by pairs. *)
Lemma strptime_ymd6 a b c d e f :
  is_dig a -> is_dig b -> is_dig c -> is_dig d -> is_dig e -> is_dig f ->
  strptime fmt_ymd (String (digit_char a) (String (digit_char b) (String (digit_char c)
     (String (digit_char d) (String (digit_char e) (String (digit_char f) "")))))) =
  let r := Datetime (pivot_year (10 * a + b)) (10 * c + d) (10 * e + f) in
  if valid_date r then Some r else None.
Proof.
  intros Ha Hb Hc Hd He Hf.
  unfold strptime, fmt_ymd. cbn [fmt_match].
  split_alts; cbn [date_of_groups year month day]; rewrite ?int_of_2 by done;
    try reflexivity; try bad_date.
Qed.

Lemma strptime_mdy6 a b c d e f :
  is_dig a -> is_dig b -> is_dig c -> is_dig d -> is_dig e -> is_dig f ->
  strptime fmt_mdy (String (digit_char a) (String (digit_char b) (String (digit_char c)
     (String (digit_char d) (String (digit_char e) (String (digit_char f) "")))))) =
  let r := Datetime (pivot_year (10 * e + f)) (10 * a + b) (10 * c + d) in
  if valid_date r then Some r else None.
Proof.
  intros Ha Hb Hc Hd He Hf.
  unfold strptime, fmt_mdy. cbn [fmt_match].
  split_alts; cbn [date_of_groups year month day]; rewrite ?int_of_2 by done;
    try reflexivity; try bad_date.
Qed.

(** On [dddd-dd-dd] and [dd-dd-dddd] likewise. *)
Lemma strptime_Ymd10 y1 y2 y3 y4 m1 m2 d1 d2 :
  is_dig y1 -> is_dig y2 -> is_dig y3 -> is_dig y4 ->
  is_dig m1 -> is_dig m2 -> is_dig d1 -> is_dig d2 ->
  strptime fmt_Ymd
    (String (digit_char y1) (String (digit_char y2) (String (digit_char y3)
    (String (digit_char y4) (String "-" (String (digit_char m1) (String (digit_char m2)
    (String "-" (String (digit_char d1) (String (digit_char d2) "")))))))))) =
  let r := Datetime (1000 * y1 + 100 * y2 + 10 * y3 + y4) (10 * m1 + m2) (10 * d1 + d2) in
  if valid_date r then Some r else None.
Proof.
  intros.
  unfold strptime, fmt_Ymd. cbn [fmt_match].
  split_alts; cbn [date_of_groups year month day];
    rewrite ?int_of_2, ?int_of_4 by done;
    try reflexivity; try bad_date.
Qed.

Lemma strptime_mdY10 y1 y2 y3 y4 m1 m2 d1 d2 :
  is_dig y1 -> is_dig y2 -> is_dig y3 -> is_dig y4 ->
  is_dig m1 -> is_dig m2 -> is_dig d1 -> is_dig d2 ->
  strptime fmt_mdY
    (String (digit_char m1) (String (digit_char m2) (String "-"
    (String (digit_char d1) (String (digit_char d2) (String "-"
    (String (digit_char y1) (String (digit_char y2) (String (digit_char y3)
    (String (digit_char y4) "")))))))))) =
  let r := Datetime (1000 * y1 + 100 * y2 + 10 * y3 + y4) (10 * m1 + m2) (10 * d1 + d2) in
  if valid_date r then Some r else None.
Proof.
  intros.
  unfold strptime, fmt_mdY. cbn [fmt_match].
  split_alts; cbn [date_of_groups year month day];
    rewrite ?int_of_2, ?int_of_4 by done;
    try reflexivity; try bad_date.
Qed.

(** What [strftime] writes, [strptime] reads back. *)
Lemma strptime_strftime d :
  valid_date d = true -> strptime fmt_Ymd (strftime d) = Some d.
Proof.
  intros V. pose proof (valid_date_range _ V) as (Hy & Hm & Hd).
  destruct d as [y m dd]. cbn [year month day] in *.
  cbv [strftime pad4 pad2 String.append year month day].
  rewrite strptime_Ymd10 by (apply Z.mod_pos_bound; lia).
  cbv zeta.
  replace (1000 * (y / 1000 mod 10) + 100 * (y / 100 mod 10) + 10 * (y / 10 mod 10) + y mod 10) with y
    by (Z.to_euclidean_division_equations; lia).
  replace (10 * (m / 10 mod 10) + m mod 10) with m
    by (Z.to_euclidean_division_equations; lia).
  replace (10 * (dd / 10 mod 10) + dd mod 10) with dd
    by (Z.to_euclidean_division_equations; lia).
  rewrite V. reflexivity.
Qed.

(** ** The parsers *)

Lemma res_bind_ret {A B} (m : res A) (k : A -> res B) b :
  (m ≫= k) = Ret b -> exists a, m = Ret a /\ k a = Ret b.
Proof. destruct m as [a | e]; [eauto | discriminate]. Qed.

Lemma set_date_last pre it d :
  set_date (pre ++ [it]) (length (pre ++ [it]) - 1) d = Ret (pre ++ [Item (src it) d])%list.
Proof.
  unfold set_date. rewrite length_app. cbn [length].
  replace (length pre + 1 - 1)%nat with (length pre + 0)%nat by lia.
  rewrite lookup_app_r by lia.
  replace (length pre + 0 - length pre)%nat with 0%nat by lia. cbn.
  rewrite insert_app_r. reflexivity.
Qed.

Lemma nonempty_split {A} (l : list A) : l <> [] -> exists pre x, l = (pre ++ [x])%list.
Proof.
  intros H. destruct (exists_last H) as (pre & x & ->). eauto.
Qed.

Lemma set_date_inv its i d its' :
  set_date its i d = Ret its' -> length its' = length its /\ (its <> [] -> its' <> []).
Proof.
  unfold set_date. destruct (its !! i); [ | discriminate].
  intros [= <-]. rewrite length_insert. split; [done | ].
  destruct its; [done | ]. intros _ H. apply (f_equal length) in H.
  rewrite length_insert in H. discriminate.
Qed.

Lemma V2_handle_inv p e p' : inv2 p -> V2.handle p e = Ret p' -> inv2 p'.
Proof.
  intros I. destruct e as [tag attrs | tag | data]; cbn [V2.handle].
  - unfold V2.handle_starttag. repeat case_match; intros [= <-]; try exact I.
    unfold inv2 in *. cbn. rewrite length_app. cbn. split; [lia | ].
    by destruct (V2.items p).
  - unfold V2.handle_endtag. case_match; intros [= <-]; exact I.
  - unfold V2.handle_data.
    destruct (V2._in_textline p); [ | intros [= <-]; exact I].
    destruct (V2._last_media_index p) as [i | ] eqn:L; [ | intros [= <-]; exact I].
    destruct (first_date DATE_PATTERNS data); [ | intros [= <-]; exact I].
    intros Hb. apply res_bind_ret in Hb as (its' & Hs & [= <-]).
    apply set_date_inv in Hs as [Hl Hn].
    unfold inv2 in *. cbn in *. rewrite L in I.
    destruct I as [-> Hne]. rewrite Hl. split; auto.
Qed.

Lemma V2_feed_inv es : forall p p', inv2 p -> V2.feed p es = Ret p' -> inv2 p'.
Proof.
  induction es as [ | e es IH]; intros p p' I; cbn [V2.feed].
  - intros [= <-]. done.
  - intros H. apply res_bind_ret in H as (q & Hq & H).
    eapply IH; [ | exact H]. eapply V2_handle_inv; eauto.
Qed.

Lemma V2_feed_app es1 es2 p :
  V2.feed p (es1 ++ es2) = (V2.feed p es1 ≫= fun q => V2.feed q es2).
Proof.
  revert p. induction es1 as [ | e es1 IH]; intros p; cbn; [done | ].
  destruct (V2.handle p e); cbn; [apply IH | done].
Qed.

Lemma V1_handle_inv p e p' : inv1 p -> V1.handle p e = Ret p' -> inv1 p'.
Proof.
  intros I. destruct e as [tag attrs | tag | data]; cbn [V1.handle].
  - unfold V1.handle_starttag. repeat case_match; intros [= <-]; try exact I.
    unfold inv1 in *. cbn. rewrite length_app. cbn. split; [lia | ].
    by destruct (V1.items p).
  - unfold V1.handle_endtag. case_match; intros [= <-]; exact I.
  - unfold V1.handle_data.
    destruct (String.eqb data ""); [intros [= <-]; exact I | ]. cbn.
    destruct (V1._last_media_index p) as [i | ] eqn:L;
      [ | destruct (V1._in_textline p); intros [= <-];
          unfold inv1 in *; cbn; rewrite L in *; exact I].
    destruct (V1._in_textline p);
      [ | intros [= <-]; unfold inv1 in *; cbn; rewrite L in *; exact I].
    destruct (re_search DATE_RE data);
      [ | intros [= <-]; unfold inv1 in *; cbn; rewrite L in *; exact I].
    intros Hb. apply res_bind_ret in Hb as (its' & Hs & [= <-]).
    apply set_date_inv in Hs as [Hl Hn].
    unfold inv1 in *. cbn in *. rewrite L in *.
    destruct I as [-> Hne]. rewrite Hl. split; auto.
Qed.

Lemma V1_feed_inv es : forall p p', inv1 p -> V1.feed p es = Ret p' -> inv1 p'.
Proof.
  induction es as [ | e es IH]; intros p p' I; cbn [V1.feed].
  - intros [= <-]. done.
  - intros H. apply res_bind_ret in H as (q & Hq & H).
    eapply IH; [ | exact H]. eapply V1_handle_inv; eauto.
Qed.

Lemma V1_feed_app es1 es2 p :
  V1.feed p (es1 ++ es2) = (V1.feed p es1 ≫= fun q => V1.feed q es2).
Proof.
  revert p. induction es1 as [ | e es1 IH]; intros p; cbn; [done | ].
  destruct (V1.handle p e); cbn; [apply IH | done].
Qed.

(** C10.  Whatever events a parser has handled, a run of text that follows
    raises no error and changes at most the date of the item created last;
    while no media tag has been seen the list of items stays empty, so no
    hint is attached then. *)
Theorem text_before_media_is_ignored (v : variant) (es : list event)
    (its : list item) (data : string) :
  extract v es = Ret its ->
  exists its', extract v (es ++ [Data data]) = Ret its' /\
    (its = [] -> its' = []) /\
    (its' = its \/ attaches_to_last its its').
Proof.
  destruct v; unfold extract; intros H.
  - apply res_bind_ret in H as (p & Hp & [= <-]).
    pose proof (V1_feed_inv _ _ _ (eq_refl : inv1 V1.init) Hp) as I.
    rewrite V1_feed_app, Hp. cbn [mbind res_bind V1.feed V1.handle].
    unfold V1.handle_data, inv1 in *. cbn.
    destruct (String.eqb data ""); [cbn; eauto | ].
    destruct (V1._in_textline p); [ | cbn; eauto].
    destruct (V1._last_media_index p) as [i | ] eqn:L; [ | cbn; eauto].
    destruct (re_search DATE_RE data) as [m | ]; [ | cbn; eauto].
    destruct I as [-> Hne].
    destruct (nonempty_split _ Hne) as (pre & it & E). rewrite E.
    rewrite set_date_last. cbn. eexists; split; [done | ]. split.
    + intros ?. by destruct pre.
    + right. by exists pre, it, m.
  - apply res_bind_ret in H as (p & Hp & [= <-]).
    pose proof (V2_feed_inv _ _ _ (eq_refl : inv2 V2.init) Hp) as I.
    rewrite V2_feed_app, Hp. cbn [mbind res_bind V2.feed V2.handle].
    unfold V2.handle_data, inv2 in *.
    destruct (V2._in_textline p); [ | cbn; eauto].
    destruct (V2._last_media_index p) as [i | ] eqn:L; [ | cbn; eauto].
    destruct (first_date DATE_PATTERNS data) as [m | ]; [ | cbn; eauto].
    destruct I as [-> Hne].
    destruct (nonempty_split _ Hne) as (pre & it & E). rewrite E.
    rewrite set_date_last. cbn. eexists; split; [done | ]. split.
    + intros ?. by destruct pre.
    + right. by exists pre, it, m.
Qed.

(** ** Searching *)

Lemma match_seq_split p : forall s m r,
  match_seq p s = Some (m, r) -> s = m +:+ r /\ String.length m = length p.
Proof.
  induction p as [ | k p IH]; intros s m r; cbn [match_seq].
  - intros [= <- <-]. done.
  - destruct s as [ | c s]; [done | ].
    destruct (cset_mem k c); [ | done].
    destruct (match_seq p s) as [[m' r'] | ] eqn:E; [ | done].
    intros [= <- <-]. apply IH in E as [-> El]. cbn. by rewrite El.
Qed.

(** [re_search] gives the leftmost place at which the pattern stands between
    two word boundaries, and the text matched there. *)
Lemma search_from_leftmost p : forall s prev m,
  search_from p prev s = Some m ->
  exists s1 s2, s = s1 +:+ m +:+ s2 /\
    match_bounded p (last_char prev s1) (m +:+ s2) = Some m /\
    forall k, (k < String.length s1)%nat ->
      match_bounded p (last_char prev (take_str k s1)) (drop_str k s) = None.
Proof.
  induction s as [ | c s IH]; intros prev m; cbn [search_from].
  - destruct (match_bounded p prev "") as [m' | ] eqn:E; [ | done].
    intros [= ->]. exists "", "".
    assert (m = "") as ->.
    { unfold match_bounded in E. repeat case_match; simplify_eq.
      match goal with H : match_seq _ _ = Some _ |- _ =>
        apply match_seq_split in H as [H _] end.
      by destruct m. }
    split; [done | ]. split; [done | ]. cbn. intros k Hk. lia.
  - destruct (match_bounded p prev (String c s)) as [m' | ] eqn:E.
    + intros [= ->]. pose proof E as E'. unfold match_bounded in E'.
      repeat case_match; simplify_eq.
      match goal with H : match_seq _ _ = Some _ |- _ =>
        apply match_seq_split in H as [H _] end.
      eexists "", _. split; [eassumption | ].
      split.
      * cbn [last_char]. match goal with H : String c s = _ |- _ => rewrite <- H end. done.
      * cbn. intros k Hk. lia.
    + intros H. apply IH in H as (s1 & s2 & -> & Hm & Hleft).
      exists (String c s1), s2. split; [done | ]. split; [done | ].
      intros [ | k] Hk; [done | ]. cbn in Hk.
      cbn [take_str drop_str last_char]. apply Hleft. lia.
Qed.

(** ** Hints: which date a run of text gives *)

Lemma first_date_split (text : string) pre : forall p post m d,
  (forall q m', q ∈ pre -> re_search q text = Some m' -> normalize_date m' = None) ->
  re_search p text = Some m -> normalize_date m = Some d ->
  first_date (pre ++ p :: post) text = Some d.
Proof.
  induction pre as [ | q pre IH]; intros p post m d Hpre Hm Hd; cbn [app first_date].
  - by rewrite Hm, Hd.
  - destruct (re_search q text) as [m' | ] eqn:E.
    + rewrite (Hpre q m') by (done || constructor).
      apply (IH _ _ m); [ | done | done].
      intros q' m'' Hin. apply Hpre. by constructor.
    + apply (IH _ _ m); [ | done | done].
      intros q' m'' Hin. apply Hpre. by constructor.
Qed.

Lemma first_date_none (text : string) ps :
  (forall q m', q ∈ ps -> re_search q text = Some m' -> normalize_date m' = None) ->
  first_date ps text = None.
Proof.
  induction ps as [ | q ps IH]; intros H; cbn [first_date]; [done | ].
  destruct (re_search q text) as [m' | ] eqn:E.
  - rewrite (H q m') by (done || constructor).
    apply IH. intros q' m'' Hin. apply H. by constructor.
  - apply IH. intros q' m'' Hin. apply H. by constructor.
Qed.

Lemma normalize_date_valid m d :
  normalize_date m = Some d -> is_Some (strptime fmt_Ymd d).
Proof.
  unfold normalize_date. intros H.
  apply bind_Some in H as (s & _ & H).
  apply bind_Some in H as (dt & Hdt & [= <-]). eauto.
Qed.


(** C4 as it is stated fails: the date of a later text line replaces the
    hint that an earlier text line has set. *)
Lemma later_text_line_replaces_hint : ~ hint_set_once Gui2.
Proof.
  intros H.
  specialize (H ([StartTag "img" [("src", Some "a.jpg")]] ++ text_line "2023-05-01" ++
                 [StartTag "div" [("class", Some "text-line")]])%list
                "2024-01-01"
                [Item "a.jpg" "2023-05-01"] [Item "a.jpg" "2024-01-01"] 0%nat
                (Item "a.jpg" "2023-05-01") eq_refl eq_refl eq_refl).
  cbn in H. assert (E : "2023-05-01" <> "") by discriminate.
  specialize (H E). discriminate.
Qed.

Lemma gui_overwrites_hint : ~ hint_set_once Gui.
Proof.
  intros H.
  specialize (H ([StartTag "img" [("src", Some "a.jpg")]] ++ text_line "2023-05-01" ++
                 [StartTag "div" [("class", Some "text-line")]])%list
                "2024-01-01"
                [Item "a.jpg" "2023-05-01"] [Item "a.jpg" "2024-01-01"] 0%nat
                (Item "a.jpg" "2023-05-01") eq_refl eq_refl eq_refl).
  cbn in H. assert (E : "2023-05-01" <> "") by discriminate.
  specialize (H E). discriminate.
Qed.

(** C4, amended.  Inside a text line, a media tag having been seen, the
    patterns are tried in the order YYYY-MM-DD, MM-DD-YYYY, YYYY_MM_DD,
    YYYYMMDD, six digits; the leftmost match of the first pattern whose match
    normalises to a real calendar date becomes the hint of the item created
    last, whatever hint that item had, and no later pattern is tried; a run
    of text in which no pattern gives a real date leaves the parser as it
    was. *)
Theorem hint_from_first_valid_pattern (self : V2.MemoriesHTML) (data : string)
    (idx : nat) (it : item) :
  V2._in_textline self = true ->
  V2._last_media_index self = Some idx ->
  V2.items self !! idx = Some it ->
  DATE_PATTERNS = [pat_iso; pat_mdy; pat_und; pat_d8; pat_d6] /\
  (forall pre p post m d,
      DATE_PATTERNS = (pre ++ p :: post)%list ->
      (forall q m', q ∈ pre -> re_search q data = Some m' -> normalize_date m' = None) ->
      re_search p data = Some m -> normalize_date m = Some d ->
      V2.handle_data self data =
      Ret (V2.Parser (<[idx := Item (src it) d]> (V2.items self)) true (Some idx))) /\
  ((forall q m', q ∈ DATE_PATTERNS -> re_search q data = Some m' -> normalize_date m' = None) ->
   V2.handle_data self data = Ret self).
Proof.
  intros Ht Hl Hi. split; [reflexivity | split].
  - intros pre p post m d Hsplit Hpre Hm Hd.
    unfold V2.handle_data. rewrite Ht, Hl, Hsplit.
    rewrite (first_date_split data pre p post m d) by done.
    unfold set_date. rewrite Hi. reflexivity.
  - intros Hall. unfold V2.handle_data. rewrite Ht, Hl.
    by rewrite first_date_none.
Qed.

Lemma V1_handle_data_attaches (self : V1.MemoriesHTML) (data : string)
    (idx : nat) (it : item) (m : string) :
  V1._in_textline self = true ->
  V1._last_media_index self = Some idx ->
  V1.items self !! idx = Some it ->
  re_search DATE_RE data = Some m ->
  V1.handle_data self data =
  Ret (V1.Parser (<[idx := Item (src it) m]> (V1.items self)) (V1._buf self +:+ data)
         true (Some idx)).
Proof.
  intros Ht Hl Hi Hm. unfold V1.handle_data.
  destruct (String.eqb data "") eqn:E.
  - apply String.eqb_eq in E. subst data. discriminate.
  - cbn. rewrite Ht, Hl, Hm. unfold set_date. rewrite Hi. reflexivity.
Qed.

(** ** Six digits *)

Lemma is_word_digit_char a : is_dig a -> is_word (digit_char a) = true.
Proof. intros Ha. each_digit a; reflexivity. Qed.

Lemma digit_char_eqb a (c : ascii) :
  is_dig a -> is_digit c = false -> Ascii.eqb (digit_char a) c = false.
Proof.
  intros Ha Hc. destruct (Ascii.eqb (digit_char a) c) eqn:E; [ | done].
  apply Ascii.eqb_eq in E. subst c. by rewrite is_digit_digit_char in Hc.
Qed.

Lemma eqb_digit_char a (c : ascii) :
  is_dig a -> is_digit c = false -> Ascii.eqb c (digit_char a) = false.
Proof. intros. rewrite Ascii.eqb_sym. by apply digit_char_eqb. Qed.

(** Runs a search or a test on a text of digits. *)
Ltac digits_simpl :=
  repeat first
    [ progress unfold re_search, match_bounded, boundary, word_at, head_char,
        pat_iso, pat_mdy, pat_und, pat_d8, pat_d6
    | progress cbn [digits re_search search_from match_bounded boundary head_char
                    word_at match_seq cset_mem pat_iso pat_mdy pat_und pat_d8 pat_d6
                    repeat xorb last_char contains startswith orb andb negb
                    String.length]
    | rewrite is_word_digit_char by done
    | rewrite is_digit_digit_char by done
    | rewrite digit_char_eqb by done
    | rewrite eqb_digit_char by done ].

Lemma search_six a b c d e f :
  is_dig a -> is_dig b -> is_dig c -> is_dig d -> is_dig e -> is_dig f ->
  let s := digits [a; b; c; d; e; f] in
  re_search pat_iso s = None /\ re_search pat_mdy s = None /\
  re_search pat_und s = None /\ re_search pat_d8 s = None /\
  re_search pat_d6 s = Some s.
Proof.
  intros. repeat split; subst s; digits_simpl; reflexivity.
Qed.

Lemma normalize_six a b c d e f :
  is_dig a -> is_dig b -> is_dig c -> is_dig d -> is_dig e -> is_dig f ->
  let yymmdd := Datetime (pivot_year (10 * a + b)) (10 * c + d) (10 * e + f) in
  let mmddyy := Datetime (pivot_year (10 * e + f)) (10 * a + b) (10 * c + d) in
  normalize_date (digits [a; b; c; d; e; f]) =
  if valid_date yymmdd then Some (strftime yymmdd)
  else if valid_date mmddyy then Some (strftime mmddyy)
  else None.
Proof.
  intros Ha Hb Hc Hd He Hf yymmdd mmddyy. unfold normalize_date.
  digits_simpl. cbn [Nat.eqb].
  rewrite strptime_ymd6, strptime_mdy6 by done. cbv zeta.
  fold yymmdd mmddyy.
  destruct (valid_date yymmdd) eqn:V1.
  - cbn. by rewrite strptime_strftime.
  - destruct (valid_date mmddyy) eqn:V2; cbn; [ | done].
    by rewrite strptime_strftime.
Qed.

(** C5.  For six digits, the reading YYMMDD is tried first and MMDDYY only
    when the first is no calendar date: when both readings are dates the
    result is the YYMMDD one, and when neither is, the text gives no hint
    (the parser is left as it was). *)
Theorem six_digit_date (a b c d e f : Z) :
  is_dig a -> is_dig b -> is_dig c -> is_dig d -> is_dig e -> is_dig f ->
  let s := digits [a; b; c; d; e; f] in
  let yymmdd := Datetime (pivot_year (10 * a + b)) (10 * c + d) (10 * e + f) in
  let mmddyy := Datetime (pivot_year (10 * e + f)) (10 * a + b) (10 * c + d) in
  strptime fmt_ymd s = (if valid_date yymmdd then Some yymmdd else None) /\
  strptime fmt_mdy s = (if valid_date mmddyy then Some mmddyy else None) /\
  normalize_date s =
    (if valid_date yymmdd then Some (strftime yymmdd)
     else if valid_date mmddyy then Some (strftime mmddyy)
     else None) /\
  first_date DATE_PATTERNS s = normalize_date s /\
  (valid_date yymmdd = false -> valid_date mmddyy = false ->
   forall self, V2.handle_data self s = Ret self).
Proof.
  intros Ha Hb Hc Hd He Hf s yymmdd mmddyy.
  pose proof (search_six a b c d e f Ha Hb Hc Hd He Hf) as (S1 & S2 & S3 & S4 & S5).
  pose proof (normalize_six a b c d e f Ha Hb Hc Hd He Hf) as N.
  cbv zeta in S1, S2, S3, S4, S5, N. fold s in S1, S2, S3, S4, S5, N.
  fold yymmdd mmddyy in N.
  assert (F : first_date DATE_PATTERNS s = normalize_date s).
  { unfold DATE_PATTERNS. cbn [first_date]. rewrite S1, S2, S3, S4, S5.
    by destruct (normalize_date s). }
  split; [apply strptime_ymd6; done | ].
  split; [apply strptime_mdy6; done | ].
  split; [exact N | ]. split; [exact F | ].
  intros V1 V2 self. unfold V2.handle_data.
  rewrite F, N, V1, V2. by repeat case_match.
Qed.

(** ** Dates of items *)





Lemma fallback_date_exists fs p n :
  node_at fs (resolve p) = Some n -> fallback_date_from_fs fs p = Ret (strftime (mtime n)).
Proof. intros H. unfold fallback_date_from_fs, stat_mtime. by rewrite H. Qed.

Lemma eqb_empty_false s : s <> "" -> String.eqb s "" = false.
Proof. intros H. by apply String.eqb_neq. Qed.


(** What [organize_memories_gui2.py] does at its second check: a string
    that [strptime] refuses gives way to the time stamp. *)
Lemma effective_date_revalidated (fs : fsys) (it : item) (src_path : path) (n : node) :
  node_at fs (resolve src_path) = Some n ->
  exists s d, first_nonempty Gui2 fs it src_path = Ret s /\
    effective_date Gui2 fs it src_path = Ret d /\
    match strptime fmt_Ymd s with
    | Some _ => d = s
    | None => d = strftime (mtime n)
    end.
Proof.
  intros Hn. unfold effective_date.
  assert (exists s, first_nonempty Gui2 fs it src_path = Ret s) as [s Hs].
  { unfold first_nonempty. rewrite (fallback_date_exists _ _ _ Hn).
    repeat case_match; eauto. }
  rewrite Hs, (fallback_date_exists _ _ _ Hn). cbn.
  destruct (strptime fmt_Ymd s) eqn:E; eexists _, _;
    (split; [reflexivity | ]); (split; [reflexivity | ]); by rewrite E.
Qed.

(** ** Names and paths *)

Lemma append_cons a s1 s2 : String a s1 +:+ s2 = String a (s1 +:+ s2).
Proof. reflexivity. Qed.

Lemma append_nil s : "" +:+ s = s.
Proof. reflexivity. Qed.

Lemma mem_char_app c s1 s2 : mem_char c (s1 +:+ s2) = mem_char c s1 || mem_char c s2.
Proof.
  induction s1 as [ | a s1 IH]; [done | ].
  rewrite append_cons. cbn. rewrite IH. by rewrite orb_assoc.
Qed.

Lemma mem_char_take c n s : mem_char c s = false -> mem_char c (take_str n s) = false.
Proof.
  revert s. induction n as [ | n IH]; intros [ | a s]; cbn; try done.
  intros H. apply orb_false_iff in H as [-> H]. cbn. by apply IH.
Qed.

Lemma mem_char_drop c n s : mem_char c s = false -> mem_char c (drop_str n s) = false.
Proof.
  revert s. induction n as [ | n IH]; intros [ | a s]; cbn; try done.
  intros H. apply orb_false_iff in H as [_ H]. by apply IH.
Qed.

Lemma split_slash_no_slash s : Forall (fun c => mem_char "/" c = false) (split_slash s).
Proof.
  induction s as [ | a s IH]; cbn.
  - by repeat constructor.
  - destruct (Ascii.eqb a "/") eqn:E.
    + by constructor.
    + destruct (split_slash s) as [ | h t]; inversion IH; subst;
        constructor; cbn; rewrite ?E; done.
Qed.

Lemma split_slash_single s : mem_char "/" s = false -> split_slash s = [s].
Proof.
  induction s as [ | a s IH]; cbn; [done | ].
  intros H. apply orb_false_iff in H as [-> H]. by rewrite IH.
Qed.

Lemma path_name_parts_no_slash s : mem_char "/" (path_name (parts s)) = false.
Proof.
  unfold path_name, parts.
  pose proof (split_slash_no_slash s) as H.
  assert (F : Forall (fun c => mem_char "/" c = false)
                (filter (fun c => real_part c = true) (split_slash s))).
  { rewrite Forall_forall in *. intros c Hc. apply H.
    apply list_elem_of_filter in Hc. tauto. }
  revert F. generalize (filter (fun c => real_part c = true) (split_slash s)).
  intros l. induction l as [ | c l IH]; intros F; [done | ].
  inversion F; subst. destruct l; [done | ]. by apply IH.
Qed.

Lemma path_stem_no_slash s : mem_char "/" s = false -> mem_char "/" (path_stem s) = false.
Proof. unfold path_stem. intros. case_match; [by apply mem_char_take | done]. Qed.

Lemma path_suffix_no_slash s : mem_char "/" s = false -> mem_char "/" (path_suffix s) = false.
Proof. unfold path_suffix. intros. case_match; [by apply mem_char_drop | done]. Qed.

Lemma pretty_N_go_no_slash (x : N) s :
  mem_char "/" s = false -> mem_char "/" (pretty_N_go x s) = false.
Proof.
  revert s. induction (N.lt_wf_0 x) as [x _ IH]; intros s Hs.
  destruct (decide (0 < x)%N) as [Hx | Hx].
  - rewrite pretty_N_go_step by done. apply IH.
    + by apply N.div_lt.
    + cbn. rewrite Hs, orb_false_r.
      generalize (x `mod` 10)%N. intros n. unfold pretty_N_char.
      destruct n as [ | p]; [reflexivity | ].
      do 4 (try (destruct p as [p | p | ]; try reflexivity)).
  - assert (x = 0%N) as -> by lia. by rewrite pretty_N_go_0.
Qed.

Lemma pretty_nat_no_slash (k : nat) : mem_char "/" (pretty k) = false.
Proof.
  unfold pretty, pretty_nat, pretty, pretty_N.
  case_decide; [done | ]. by apply pretty_N_go_no_slash.
Qed.

Lemma numbered_no_slash base_name k : mem_char "/" (numbered base_name k) = false.
Proof.
  unfold numbered.
  pose proof (path_name_parts_no_slash base_name) as H.
  rewrite !mem_char_app, path_stem_no_slash, path_suffix_no_slash, pretty_nat_no_slash by done.
  reflexivity.
Qed.

Lemma numbered_underscore base_name k : mem_char "_" (numbered base_name k) = true.
Proof.
  unfold numbered. rewrite !mem_char_app. cbn. by rewrite !orb_true_r.
Qed.

Lemma append_length s1 s2 : String.length (s1 +:+ s2) = (String.length s1 + String.length s2)%nat.
Proof.
  induction s1 as [ | a s1 IH]; [done | ].
  rewrite append_cons. cbn. by rewrite IH.
Qed.

Lemma append_inj_r s a b : a +:+ s = b +:+ s -> a = b.
Proof.
  revert b. induction a as [ | x a IH]; intros [ | y b];
    rewrite ?append_cons, ?append_nil; intros H; try done.
  - apply (f_equal String.length) in H. cbn in H. rewrite append_length in H. lia.
  - apply (f_equal String.length) in H. cbn in H. rewrite append_length in H. lia.
  - injection H as -> H. f_equal. by apply IH.
Qed.

Lemma numbered_inj base_name j k : numbered base_name j = numbered base_name k -> j = k.
Proof.
  unfold numbered. intros H.
  apply (inj (String.append _)) in H.
  apply (inj (String.append _)) in H.
  apply append_inj_r in H. by apply (inj pretty) in H.
Qed.

Lemma parts_numbered base_name k : parts (numbered base_name k) = [numbered base_name k].
Proof.
  unfold parts. rewrite split_slash_single by apply numbered_no_slash.
  cbn. pose proof (numbered_underscore base_name k) as U.
  unfold real_part.
  destruct (String.eqb_spec (numbered base_name k) "") as [E | _];
    [rewrite E in U; discriminate | ].
  destruct (String.eqb_spec (numbered base_name k) ".") as [E | _];
    [rewrite E in U; discriminate | ].
  cbn. by rewrite decide_True.
Qed.

Lemma startswith_slash s : mem_char "/" s = false -> startswith "/" s = false.
Proof.
  destruct s as [ | a s]; [done | ]. cbn [mem_char].
  intros H. apply orb_false_iff in H as [H _].
  change (startswith "/" (String a s)) with (if Ascii.eqb "/" a then true else false).
  rewrite Ascii.eqb_sym. by rewrite H.
Qed.

Lemma resolve_go_snoc acc p c :
  String.eqb c ".." = false -> resolve_go acc (p ++ [c]) = (resolve_go acc p ++ [c])%list.
Proof.
  intros Hc. revert acc. induction p as [ | x p IH]; intros acc; cbn.
  - by rewrite Hc.
  - destruct (String.eqb x ".."); apply IH.
Qed.

Lemma resolve_numbered tgt_dir base_name k :
  resolve (join_path tgt_dir (numbered base_name k)) =
  (resolve tgt_dir ++ [numbered base_name k])%list.
Proof.
  unfold join_path. rewrite startswith_slash by apply numbered_no_slash.
  rewrite parts_numbered. unfold resolve. apply resolve_go_snoc.
  pose proof (numbered_underscore base_name k) as U.
  destruct (String.eqb_spec (numbered base_name k) "..") as [E | _]; [ | done].
  rewrite E in U. discriminate.
Qed.

(** ** The file system only grows *)

Lemma path_exists_false (fs : fsys) (p : path) :
  path_exists fs p = false -> resolve p <> [] /\ fs !! resolve p = None.
Proof.
  unfold path_exists, node_at. destruct (resolve p) as [ | c q]; [done | ].
  destruct (fs !! (c :: q)); done.
Qed.

Lemma path_exists_true (fs : fsys) (p : path) :
  path_exists fs p = true -> resolve p <> [] -> is_Some (fs !! resolve p).
Proof.
  unfold path_exists, node_at. destruct (resolve p) as [ | c q]; [done | ].
  destruct (fs !! (c :: q)); [eauto | done].
Qed.

Lemma mkdir_from_grows (now : datetime) (rest : path) : forall (fs fs' : fsys) (pre : path),
  mkdir_from now fs pre rest = Ret fs' -> fs ⊆ fs'.
Proof.
  induction rest as [ | c rest IH]; intros fs fs' pre; cbn [mkdir_from].
  - by intros [= <-].
  - destruct (node_at fs (pre ++ [c])) as [n | ] eqn:E.
    + destruct (is_dir n); [apply IH | done].
    + destruct (node_at fs pre) as [parent | ]; [ | done].
      destruct (is_dir parent && allowed parent); [ | done].
      intros H. apply IH in H. etrans; [ | exact H].
      apply insert_subseteq. unfold node_at in E.
      destruct (pre ++ [c])%list eqn:E'; [by destruct pre | done].
Qed.

Lemma mkdir_p_grows (now : datetime) (fs fs' : fsys) (p : path) : mkdir_p now fs p = Ret fs' -> fs ⊆ fs'.
Proof. apply mkdir_from_grows. Qed.

Lemma copy2_spec (fs fs' : fsys) (src dst : path) :
  fs !! resolve dst = None -> resolve dst <> [] ->
  copy2 fs src dst = Ret fs' ->
  exists n, fs' = <[resolve dst := n]> fs.
Proof.
  intros Hnone Hne. unfold copy2.
  assert (E : node_at fs (resolve dst) = None).
  { unfold node_at. by destruct (resolve dst). }
  rewrite E. cbv beta iota zeta.
  repeat case_match; try done; intros [= <-]; eauto.
Qed.

(** ** The [while] loop ends on a free name *)

Lemma free_target_free (fs : fsys) (tgt_dir : path) base_name fuel : forall sfx target t,
  free_target fs tgt_dir base_name fuel sfx target = Some t -> path_exists fs t = false.
Proof.
  induction fuel as [ | fuel IH]; intros sfx target t; cbn [free_target].
  - destruct (path_exists fs target) eqn:E; [done | by intros [= <-]].
  - destruct (path_exists fs target) eqn:E; [apply IH | by intros [= <-]].
Qed.


Lemma free_target_none (fs : fsys) (tgt_dir : path) base_name fuel : forall sfx target,
  free_target fs tgt_dir base_name fuel sfx target = None ->
  forall j, (sfx <= j < sfx + fuel)%nat ->
    path_exists fs (join_path tgt_dir (numbered base_name j)) = true.
Proof.
  induction fuel as [ | fuel IH]; intros sfx target; cbn [free_target].
  - intros _ j Hj. lia.
  - destruct (path_exists fs target) eqn:E; [ | done].
    intros H j Hj. destruct (decide (j = sfx)) as [-> | Hne].
    + destruct fuel as [ | fuel']; cbn [free_target] in H.
      * by destruct (path_exists fs (join_path tgt_dir (numbered base_name sfx))).
      * by destruct (path_exists fs (join_path tgt_dir (numbered base_name sfx))).
    + eapply IH; [exact H | lia].
Qed.

Lemma free_target_total (fs : fsys) (tgt_dir : path) base_name sfx (target : path) :
  is_Some (free_target fs tgt_dir base_name (S (size fs)) sfx target).
Proof.
  destruct (free_target fs tgt_dir base_name (S (size fs)) sfx target) eqn:E; [eauto | ].
  exfalso.
  pose proof (free_target_none _ _ _ _ _ _ E) as Hall.
  set (l := map (fun j => (resolve tgt_dir ++ [numbered base_name j])%list)
                (seq sfx (S (size fs)))).
  assert (Hnd : NoDup l).
  { apply NoDup_fmap_2_strong; [ | apply NoDup_seq].
    intros j k _ _ H. apply app_inv_head in H. injection H as H.
    by apply numbered_inj in H. }
  assert (Hsub : (list_to_set l : gset (list string)) ⊆ dom fs).
  { intros p Hp. apply elem_of_list_to_set in Hp.
    apply list_elem_of_fmap in Hp as (j & -> & Hj).
    apply elem_of_seq in Hj. apply elem_of_dom.
    rewrite <- resolve_numbered. apply path_exists_true.
    - apply Hall. lia.
    - rewrite resolve_numbered. by destruct (resolve tgt_dir). }
  apply subseteq_size in Hsub.
  rewrite size_list_to_set, size_dom in Hsub by done.
  unfold l in Hsub. rewrite length_map, length_seq in Hsub. lia.
Qed.

(** ** One turn of the loop *)

Lemma effective_date_total (v : variant) (fs : fsys) (it : item) (p : path) :
  path_exists fs p = true -> exists d, effective_date v fs it p = Ret d.
Proof.
  unfold path_exists. destruct (node_at fs (resolve p)) as [n | ] eqn:E; [ | done].
  intros _. unfold effective_date, first_nonempty.
  rewrite (fallback_date_exists _ _ _ E).
  destruct v; repeat case_match; simplify_eq; cbn; repeat case_match; eauto.
Qed.

Lemma mkdir_from_raise (now : datetime) (rest : path) : forall (fs : fsys) (pre : path) e,
  mkdir_from now fs pre rest = Raise e -> e = OSError.
Proof.
  induction rest as [ | c rest IH]; intros fs pre e; cbn [mkdir_from]; [done | ].
  repeat case_match; try (by intros [= <-]); apply IH.
Qed.

Lemma process_spec env v html_path out_dir i total it w w' r :
  process env v html_path out_dir i total it w = (w', r) ->
  exists tr, turn_spec w w' r tr.
Proof.
  unfold process.
  set (src_path := locate html_path (fs w) (normalize_src (src it))).
  destruct (path_exists (fs w) src_path) eqn:Ex; cbn [negb].
  - destruct (effective_date_total v (fs w) it src_path Ex) as [d ->].
    destruct (mkdir_p (now env) (fs w) _) as [fs1 | e] eqn:M.
    + pose proof (mkdir_p_grows _ _ _ _ M) as G1.
      match goal with
      | |- context [free_target fs1 ?td ?bn ?fu ?sf ?tg] =>
          destruct (free_target_total fs1 td bn sf tg) as [t Ht]; rewrite Ht
      end.
      pose proof (free_target_free _ _ _ _ _ _ _ Ht) as Hfree.
      apply path_exists_false in Hfree as [Hne Hnone].
      destruct (copy2 fs1 src_path t) as [fs2 | e] eqn:C.
      * apply copy2_spec in C as (n & ->); [ | done | done].
        intros [= <- <-].
        destruct (shown v i total); eexists; split; cbn;
          try (rewrite <- !app_assoc; reflexivity);
          try (etrans; [exact G1 | by apply insert_subseteq]);
          try (repeat constructor; done);
          try lia;
          (right; eexists; split; [reflexivity | ]; split;
            [ | rewrite lookup_insert_eq; eauto];
            destruct (fs w !! resolve t) as [x | ] eqn:Hx; [ | done];
            eapply lookup_weaken in Hx; [ | exact G1]; congruence).
      * intros [= <- <-].
        eexists; split; cbn;
          try (rewrite <- !app_assoc; reflexivity);
          try exact G1;
          try (repeat constructor; done);
          try lia; by left.
    + apply mkdir_from_raise in M as ->.
      intros [= <- <-].
      eexists; split; cbn; try reflexivity; try done;
        try (repeat constructor; done); try (by left).
      repeat split; eauto.
  - intros [= <- <-].
    destruct (shown v i total); eexists; split; cbn;
      try reflexivity; try done; try (repeat constructor; done);
      try lia; try (by left); by rewrite app_nil_r.
Qed.

(** ** The loop *)

Lemma copied_app tr1 tr2 : copied (tr1 ++ tr2) = (copied tr1 ++ copied tr2)%list.
Proof. apply omap_app. Qed.

Lemma polls_app tr1 tr2 : polls (tr1 ++ tr2) = (polls tr1 + polls tr2)%nat.
Proof. unfold polls. by rewrite filter_app, length_app. Qed.

Lemma polls_cons a tr : polls (a :: tr) = (polls [a] + polls tr)%nat.
Proof. apply (polls_app [a] tr). Qed.

Lemma polls_put m : polls [Put m] = 0%nat.
Proof. reflexivity. Qed.

Lemma polls_is_set b : polls [IsSet b] = 1%nat.
Proof. reflexivity. Qed.

Lemma polls_items tr : Forall item_action tr -> polls tr = 0%nat.
Proof.
  induction 1 as [ | a tr Ha _ IH]; [done | ].
  destruct a; try done; exact IH.
Qed.

Lemma item_action_not_poll tr b : Forall item_action tr -> IsSet b ∉ tr.
Proof.
  intros H Hin. rewrite Forall_forall in H. by apply H in Hin.
Qed.



(** A run that reaches ["done"] has counted every item, and has read the
    flag once for each. *)
Lemma loop_finished env v html_path out_dir total : forall its i w w',
  loop env v html_path out_dir total i its w = (w', Finished) ->
  (ok w' + fail w' = ok w + fail w + length its)%nat /\
  (forall k, (i <= k < i + length its)%nat -> cancel env k = false) /\
  exists tr, trace w' = (trace w ++ tr ++ [Put (done (ok w') (fail w'))])%list /\
    polls tr = length its /\ IsSet true ∉ tr.
Proof.
  induction its as [ | it its IH]; intros i w w'; cbn [loop].
  - intros [= <-]. cbn. split; [lia | ]. split; [intros; lia | ].
    exists []. split; [done | ]. split; [done | ]. by intros H; inversion H.
  - destruct (cancel env i) eqn:Ci; [done | ].
    destruct (process env v html_path out_dir i total it (emit w (IsSet false)))
      as [w1 r] eqn:P.
    apply process_spec in P as [tr1 [T1 _ I1 _ K1]].
    destruct r as [e | ]; [done | ].
    intros H. apply IH in H as (Hc & Hk & tr2 & T2 & P2 & N2). cbn in *.
    split; [lia | ]. split.
    + intros k Hk'. destruct (decide (k = i)) as [-> | ]; [done | ]. apply Hk. lia.
    + exists (IsSet false :: tr1 ++ tr2)%list. split; [ | split].
      * rewrite T2, T1. cbn. by rewrite <- !app_assoc.
      * change (IsSet false :: tr1 ++ tr2)%list with ([IsSet false] ++ tr1 ++ tr2)%list.
        rewrite !polls_app, P2, (polls_items _ I1), polls_is_set. done.
      * intros Hin. apply elem_of_cons in Hin as [Hin | Hin]; [done | ].
        apply elem_of_app in Hin as [Hin | Hin]; [ | done].
        by eapply item_action_not_poll.
Qed.

(** A cancelled run is the complete run over the items before the one at
    which the flag was found set, its ["done"] replaced by that poll and the
    ["log"] message. *)
Lemma loop_cancelled env v html_path out_dir total : forall its i w w',
  loop env v html_path out_dir total i its w = (w', Cancelled) ->
  exists N wN, (N < length its)%nat /\ cancel env (i + N)%nat = true /\
    loop env v html_path out_dir total i (take N its) w =
      (emit wN (Put (done (ok wN) (fail wN))), Finished) /\
    w' = emit (emit wN (IsSet true)) (Put (log (ok wN) (fail wN))).
Proof.
  induction its as [ | it its IH]; intros i w w'; cbn [loop]; [done | ].
  destruct (cancel env i) eqn:Ci.
  - intros [= <-]. exists 0%nat, w. cbn. split; [lia | ].
    rewrite Nat.add_0_r. done.
  - destruct (process env v html_path out_dir i total it (emit w (IsSet false)))
      as [w1 r] eqn:P.
    destruct r as [e | ]; [done | ].
    intros H. apply IH in H as (N & wN & HN & HC & HL & ->).
    exists (S N), wN. cbn [take loop length]. rewrite Ci, P.
    split; [lia | ]. split; [ | done].
    by replace (i + S N)%nat with (S i + N)%nat by lia.
Qed.

(** The loop ends in one of three ways; the flag is found set in the
    cancelled runs only, and an uncaught exception comes from [mkdir]. *)
Lemma loop_status env v html_path out_dir total : forall its i w w' st,
  loop env v html_path out_dir total i its w = (w', st) ->
  match st with
  | Finished => True
  | Cancelled => True
  | Fatal => False
  | Uncaught e =>
      e = OSError /\ (ok w' + fail w' < ok w + fail w + length its)%nat /\
      exists tr d, trace w' = (trace w ++ tr ++ [Mkdir d (Some OSError)])%list /\
        (IsSet true ∉ tr) /\ forall m, Put m ∈ tr -> exists j t x, m = progress j t x
  end.
Proof.
  induction its as [ | it its IH]; intros i w w' st; cbn [loop].
  - by intros [= <- <-].
  - destruct (cancel env i) eqn:Ci; [by intros [= <- <-] | ].
    destruct (process env v html_path out_dir i total it (emit w (IsSet false)))
      as [w1 r] eqn:P.
    apply process_spec in P as [tr1 [T1 _ I1 _ K1]].
    destruct r as [e | ].
    + intros [= <- <-]. destruct K1 as (-> & Ho & Hf & _ & d & ->). cbn in *.
      split; [done | ]. split; [lia | ].
      exists [IsSet false], d. rewrite <- app_assoc in T1. split; [done | ]. split.
      * intros Hin. apply list_elem_of_singleton in Hin. discriminate.
      * intros m Hin. apply list_elem_of_singleton in Hin. discriminate.
    + intros H. apply IH in H. destruct st; try done.
      destruct H as (-> & Hlt & tr2 & d & T2 & N2 & M2). cbn in *.
      split; [done | ]. split; [lia | ].
      exists (IsSet false :: tr1 ++ tr2)%list, d. split; [ | split].
      * rewrite T2, T1. cbn. by rewrite <- !app_assoc.
      * intros Hin. apply elem_of_cons in Hin as [Hin | Hin]; [done | ].
        apply elem_of_app in Hin as [Hin | Hin]; [ | done].
        by eapply item_action_not_poll.
      * intros m Hin. apply elem_of_cons in Hin as [Hin | Hin]; [done | ].
        apply elem_of_app in Hin as [Hin | Hin]; [ | by apply M2].
        rewrite Forall_forall in I1. apply I1 in Hin. destruct m; try done. eauto.
Qed.

(** ** Whole runs *)











(** C9.  When the flag is found set, the run is the complete run over the
    [N] items before that poll with its ["done"] replaced by the poll and the
    ["log"] message: the flag has been read [N + 1] times, once before each
    item, the totals add up to [N], the ["log"] message is the last thing the
    thread does, and the file system is the one left by the [N] items. *)
Theorem cancelled_run (env : environment) (v : variant)
    (html_path out_dir : path) (fs0 : fsys) (w' : world) (st : status) :
  run env v html_path out_dir fs0 = (w', st) ->
  IsSet true ∈ trace w' ->
  st = Cancelled /\
  exists (its : list item) (N : nat) (wN : world),
    (exists text, read_html env v html_path fs0 = inr text /\ parse env v text = Ret its) /\
    (N < length its)%nat /\
    cancel env (S N) = true /\
    (forall k, (1 <= k <= N)%nat -> cancel env k = false) /\
    loop env v html_path out_dir (length its) 1 (take N its)
      (World fs0 0 0 [Put (meta (length its))]) =
      (emit wN (Put (done (ok wN) (fail wN))), Finished) /\
    w' = emit (emit wN (IsSet true)) (Put (log (ok wN) (fail wN))) /\
    (ok w' + fail w' = N)%nat /\
    polls (trace w') = S N /\
    fs w' = fs wN.
Proof.
  unfold run.
  destruct (read_html env v html_path fs0) as [t | text] eqn:R.
  { intros [= <- <-]. cbn. intros Hin.
    apply list_elem_of_singleton in Hin. discriminate. }
  destruct (parse env v text) as [[ | it its] | e] eqn:P.
  { intros [= <- <-]. cbn. intros Hin.
    apply list_elem_of_singleton in Hin. discriminate. }
  2: { intros [= <- <-]. cbn. intros Hin. inversion Hin. }
  set (items := it :: its) in *. intros L Hin.
  destruct st.
  - apply loop_finished in L as (_ & _ & tr & T & _ & N). cbn in T.
    rewrite T in Hin. exfalso.
    apply elem_of_cons in Hin as [Hin | Hin]; [done | ].
    apply elem_of_app in Hin as [Hin | Hin]; [done | ].
    apply list_elem_of_singleton in Hin. discriminate.
  - split; [done | ].
    apply loop_cancelled in L as (N & wN & HN & HC & HL & ->).
    exists items, N, wN.
    pose proof (loop_finished _ _ _ _ _ _ _ _ _ HL) as (Hcount & Hk & tr & T & Hp & _).
    cbn in Hcount, T.
    assert (HlenN : length (take N items) = N) by (rewrite length_take; lia).
    rewrite HlenN in *.
    rewrite app_comm_cons in T. apply app_inj_tail in T as [T _].
    split; [by eauto | ]. split; [done | ]. split; [done | ].
    split; [intros k Hk'; apply Hk; lia | ].
    split; [done | ]. split; [done | ]. split; [cbn; lia | ].
    split; [ | done].
    cbn [trace emit]. rewrite T.
    rewrite !polls_app, polls_cons, Hp, !polls_put, polls_is_set. lia.
  - by apply loop_status in L.
  - apply loop_status in L as (_ & _ & tr & d & T & N & _). cbn in T.
    rewrite T in Hin. exfalso.
    apply elem_of_cons in Hin as [Hin | Hin]; [done | ].
    apply elem_of_app in Hin as [Hin | Hin]; [done | ].
    apply list_elem_of_singleton in Hin. discriminate.
Qed.

(** A run that reaches ["done"] has counted every item and has read the flag
    once for each. *)
Lemma finished_run_counts (env : environment) (v : variant)
    (html_path out_dir : path) (fs0 : fsys) (w' : world) :
  run env v html_path out_dir fs0 = (w', Finished) ->
  exists text its, read_html env v html_path fs0 = inr text /\
    parse env v text = Ret its /\ (ok w' + fail w' = length its)%nat /\
    polls (trace w') = length its.
Proof.
  unfold run.
  destruct (read_html env v html_path fs0) as [t | text] eqn:R; [done | ].
  destruct (parse env v text) as [[ | it its] | e] eqn:P; [done | | done].
  intros L. apply loop_finished in L as (Hc & _ & tr & T & Hp & _).
  exists text, (it :: its). split_and!; try done.
  cbn in T. rewrite T.
  rewrite polls_cons, !polls_app, Hp, !polls_put. cbn. lia.
Qed.

(** C1 fails on the code: with [OUT/2023] a regular file, or with an output
    folder that takes no new entries, [mkdir] raises for the only item of
    the document; nothing catches the exception, the thread ends without
    having counted the item and without a ["done"] message, although the
    flag was never set. *)
Theorem mkdir_failure_ends_the_thread :
  let es := (media "a.jpg" :: text_line "2023-05-01")%list in
  let env := demo_env es never in
  extract Gui2 es = Ret [Item "a.jpg" "2023-05-01"] /\
  extract Gui es = Ret [Item "a.jpg" "2023-05-01"] /\
  (forall v,
      let r := run env v demo_html demo_out blocked_fs in
      snd r = Uncaught OSError /\
      (ok (fst r) + fail (fst r) = 0)%nat /\
      trace (fst r) =
        [Put (meta 1); IsSet false;
         Mkdir ["home"; "out"; "2023"; "2023-05"] (Some OSError)]) /\
  (forall v,
      let r := run env v demo_html demo_out readonly_fs in
      snd r = Uncaught OSError /\
      (ok (fst r) + fail (fst r) = 0)%nat /\
      trace (fst r) =
        [Put (meta 1); IsSet false;
         Mkdir ["home"; "out"; "2023"; "2023-05"] (Some OSError)]).
Proof.
  cbv zeta. split; [reflexivity | ]. split; [reflexivity | ].
  split; intros []; vm_compute; done.
Qed.

(** C3 fails on [organize_memories_gui.py]: the hint 2023-13-45 is no
    calendar date, yet it is taken as the date of the item and the file is
    copied to [OUT/2023/2023-13]; [organize_memories_gui2.py] falls back on
    the time stamp for the same item. *)
Theorem gui_takes_the_hint_unchecked :
  let es := (media "a.jpg" :: text_line "2023-13-45")%list in
  let env := demo_env es never in
  extract Gui es = Ret [Item "a.jpg" "2023-13-45"] /\
  strptime fmt_Ymd "2023-13-45" = None /\
  effective_date Gui demo_fs (Item "a.jpg" "2023-13-45") ["home"; "export"; "a.jpg"]
    = Ret "2023-13-45" /\
  effective_date Gui2 demo_fs (Item "a.jpg" "2023-13-45") ["home"; "export"; "a.jpg"]
    = Ret "2021-03-09" /\
  copied (trace (fst (run env Gui demo_html demo_out demo_fs))) =
    [["home"; "out"; "2023"; "2023-13"; "2023-13-45_a.jpg"]].
Proof.
  cbv zeta. split_and!; vm_compute; reflexivity.
Qed.

(** ** Which exceptions end a run *)

Lemma set_date_in_range its d :
  its <> [] -> exists its', set_date its (length its - 1) d = Ret its'.
Proof.
  intros H. destruct (nonempty_split _ H) as (pre & it & ->).
  rewrite set_date_last. eauto.
Qed.

Lemma V1_handle_total p e : inv1 p -> exists p', V1.handle p e = Ret p'.
Proof.
  intros I. destruct e as [tag attrs | tag | data]; cbn [V1.handle].
  - unfold V1.handle_starttag. repeat case_match; eauto.
  - unfold V1.handle_endtag. case_match; eauto.
  - unfold V1.handle_data. destruct (String.eqb data ""); [eauto | ]. cbn.
    destruct (V1._in_textline p); [ | eauto].
    destruct (V1._last_media_index p) as [i | ] eqn:L; [ | eauto].
    destruct (re_search DATE_RE data) as [m | ]; [ | eauto].
    unfold inv1 in I. rewrite L in I. destruct I as [-> Hne].
    destruct (set_date_in_range _ m Hne) as [its' ->]. cbn. eauto.
Qed.

Lemma V1_feed_total es : forall p, inv1 p -> exists p', V1.feed p es = Ret p'.
Proof.
  induction es as [ | e es IH]; intros p I; cbn [V1.feed]; [eauto | ].
  destruct (V1_handle_total p e I) as [q Hq]. rewrite Hq. cbn.
  apply IH. eapply V1_handle_inv; eauto.
Qed.

(** The parser of [organize_memories_gui.py] raises nothing. *)
Lemma extract_gui_total es : exists its, extract Gui es = Ret its.
Proof.
  unfold extract.
  destruct (V1_feed_total es V1.init (eq_refl : inv1 V1.init)) as [p ->]. cbn. eauto.
Qed.

Lemma V2_handle_raise p e x : inv2 p -> V2.handle p e = Raise x -> x = TypeError.
Proof.
  intros I. destruct e as [tag attrs | tag | data]; cbn [V2.handle].
  - unfold V2.handle_starttag. repeat case_match; congruence.
  - unfold V2.handle_endtag. case_match; congruence.
  - unfold V2.handle_data.
    destruct (V2._in_textline p); [ | done].
    destruct (V2._last_media_index p) as [i | ] eqn:L; [ | done].
    destruct (first_date DATE_PATTERNS data) as [m | ]; [ | done].
    unfold inv2 in I. rewrite L in I. destruct I as [-> Hne].
    destruct (set_date_in_range _ m Hne) as [its' ->]. done.
Qed.

Lemma V2_feed_raise es : forall p x, inv2 p -> V2.feed p es = Raise x -> x = TypeError.
Proof.
  induction es as [ | e es IH]; intros p x I; cbn [V2.feed]; [done | ].
  destruct (V2.handle p e) as [q | y] eqn:H; cbn.
  - apply IH. eapply V2_handle_inv; eauto.
  - intros [= <-]. eapply V2_handle_raise; eauto.
Qed.

(** The parser of [organize_memories_gui2.py] raises at most the [TypeError]
    of a [div] whose [class] attribute has no value. *)
Lemma extract_gui2_raise es x : extract Gui2 es = Raise x -> x = TypeError.
Proof.
  unfold extract. destruct (V2.feed V2.init es) as [p | y] eqn:H; cbn; [done | ].
  intros [= <-]. eapply V2_feed_raise; [ | exact H]. done.
Qed.

(** A run is ended by an exception in two ways only: by the [TypeError] of
    the parser of [organize_memories_gui2.py], before anything is done, or
    by the [OSError] of a [mkdir], which is then the last thing done. *)
Lemma uncaught_run (env : environment) (v : variant)
    (html_path out_dir : path) (fs0 : fsys) (w' : world) (e : exn) :
  run env v html_path out_dir fs0 = (w', Uncaught e) ->
  (v = Gui2 /\ e = TypeError /\ trace w' = []) \/
  (e = OSError /\ exists tr d, trace w' = (tr ++ [Mkdir d (Some OSError)])%list).
Proof.
  unfold run.
  destruct (read_html env v html_path fs0) as [t | text]; [done | ].
  unfold parse.
  destruct (extract v (tokenize env text)) as [[ | it its] | x] eqn:P; [done | | ].
  - intros L. apply loop_status in L as (-> & _ & tr & d & T & _). right.
    split; [done | ]. exists (Put (meta (length (it :: its))) :: tr), d.
    rewrite T. reflexivity.
  - intros [= <- <-]. left. destruct v.
    + destruct (extract_gui_total (tokenize env text)) as [its E]. congruence.
    + apply extract_gui2_raise in P. done.
Qed.

Example div_without_class_value :
  extract Gui2 [StartTag "div" [("class", None)]] = Raise TypeError /\
  extract Gui [StartTag "div" [("class", None)]] = Ret [].
Proof. split; reflexivity. Qed.

(** ** The extractor *)

Lemma set_date_srcs its i d its' :
  set_date its i d = Ret its' -> map src its' = map src its.
Proof.
  unfold set_date. destruct (its !! i) as [it | ] eqn:E; [ | done].
  intros [= <-]. rewrite list_fmap_insert. cbn.
  apply list_insert_id. by rewrite list_lookup_fmap, E.
Qed.

Lemma V2_handle_srcs p e p' :
  V2.handle p e = Ret p' ->
  map src (V2.items p') = (map src (V2.items p) ++ media_srcs [e])%list.
Proof.
  destruct e as [tag attrs | tag | data]; cbn [V2.handle media_srcs].
  - unfold V2.handle_starttag.
    destruct (is_media (lower tag)); cbn [andb].
    + destruct (negb (String.eqb (get_src attrs) "")); intros [= <-]; cbn.
      * by rewrite map_app.
      * by rewrite app_nil_r.
    + rewrite app_nil_r. repeat case_match; intros [= <-]; done.
  - rewrite app_nil_r. unfold V2.handle_endtag. case_match; intros [= <-]; done.
  - rewrite app_nil_r. unfold V2.handle_data.
    destruct (V2._in_textline p); [ | by intros [= <-]].
    destruct (V2._last_media_index p); [ | by intros [= <-]].
    destruct (first_date DATE_PATTERNS data); [ | by intros [= <-]].
    intros H. apply res_bind_ret in H as (its' & Hs & [= <-]). cbn.
    by apply set_date_srcs in Hs.
Qed.

Lemma media_srcs_app es1 es2 : media_srcs (es1 ++ es2) = (media_srcs es1 ++ media_srcs es2)%list.
Proof.
  induction es1 as [ | e es1 IH]; [done | ].
  destruct e; cbn; rewrite ?IH; try done. by case_match.
Qed.

Lemma V2_feed_srcs es : forall p p',
  V2.feed p es = Ret p' ->
  map src (V2.items p') = (map src (V2.items p) ++ media_srcs es)%list.
Proof.
  induction es as [ | e es IH]; intros p p'; cbn [V2.feed].
  - intros [= <-]. by rewrite app_nil_r.
  - intros H. apply res_bind_ret in H as (q & Hq & H).
    apply IH in H. apply V2_handle_srcs in Hq. rewrite H, Hq.
    change (e :: es) with ([e] ++ es)%list. by rewrite media_srcs_app, app_assoc.
Qed.

Lemma V1_handle_srcs p e p' :
  V1.handle p e = Ret p' ->
  map src (V1.items p') = (map src (V1.items p) ++ media_srcs [e])%list.
Proof.
  destruct e as [tag attrs | tag | data]; cbn [V1.handle media_srcs].
  - unfold V1.handle_starttag.
    destruct (is_media (lower tag)); cbn [andb].
    + destruct (negb (String.eqb (get_src attrs) "")); intros [= <-]; cbn.
      * by rewrite map_app.
      * by rewrite app_nil_r.
    + rewrite app_nil_r. repeat case_match; intros [= <-]; done.
  - rewrite app_nil_r. unfold V1.handle_endtag. case_match; intros [= <-]; done.
  - rewrite app_nil_r. unfold V1.handle_data.
    destruct (String.eqb data ""); [by intros [= <-] | ]. cbn.
    destruct (V1._in_textline p); [ | by intros [= <-]].
    destruct (V1._last_media_index p); [ | by intros [= <-]].
    destruct (re_search DATE_RE data); [ | by intros [= <-]].
    intros H. apply res_bind_ret in H as (its' & Hs & [= <-]). cbn.
    by apply set_date_srcs in Hs.
Qed.

Lemma V1_feed_srcs es : forall p p',
  V1.feed p es = Ret p' ->
  map src (V1.items p') = (map src (V1.items p) ++ media_srcs es)%list.
Proof.
  induction es as [ | e es IH]; intros p p'; cbn [V1.feed].
  - intros [= <-]. by rewrite app_nil_r.
  - intros H. apply res_bind_ret in H as (q & Hq & H).
    apply IH in H. apply V1_handle_srcs in Hq. rewrite H, Hq.
    change (e :: es) with ([e] ++ es)%list. by rewrite media_srcs_app, app_assoc.
Qed.

Lemma extract_srcs (v : variant) es its :
  extract v es = Ret its -> map src its = media_srcs es.
Proof.
  intros H. destruct v; unfold extract in H; apply res_bind_ret in H as (p & Hp & [= <-]).
  - by apply V1_feed_srcs in Hp.
  - by apply V2_feed_srcs in Hp.
Qed.

(** X1.  Whatever the document, the items a parser returns are, in the
    order of the document, the sources of the start tags [img] and [video]
    (the name of the tag in any case) that carry a non-empty [src]: one item
    for each of them and no other. *)
Theorem one_item_per_media_tag (v : variant) (es : list event) (its : list item) :
  extract v es = Ret its ->
  map src its = media_srcs es /\ length its = length (media_srcs es).
Proof.
  intros H. apply extract_srcs in H. split; [done | ]. by rewrite <- H, length_map.
Qed.

Lemma V2_handle_quiet p e :
  V2._in_textline p = false -> no_div_start e = true ->
  exists p', V2.handle p e = Ret p' /\ V2._in_textline p' = false /\
    V2.items p' = (V2.items p ++ map (fun s => Item s "") (media_srcs [e]))%list.
Proof.
  intros Hp He. destruct e as [tag attrs | tag | data]; cbn [V2.handle media_srcs].
  - unfold V2.handle_starttag. cbn in He.
    destruct (is_media (lower tag)); cbn [andb].
    + destruct (negb (String.eqb (get_src attrs) "")); eexists; split_and!; try done.
      by rewrite app_nil_r.
    + cbn in He. apply negb_true_iff in He. rewrite He.
      eexists; split_and!; try done. by rewrite app_nil_r.
  - unfold V2.handle_endtag. rewrite app_nil_r.
    case_match; eexists; split_and!; done.
  - unfold V2.handle_data. rewrite Hp, app_nil_r. eexists; split_and!; done.
Qed.

Lemma V2_feed_quiet es : forall p,
  V2._in_textline p = false -> forallb no_div_start es = true ->
  exists p', V2.feed p es = Ret p' /\ V2._in_textline p' = false /\
    V2.items p' = (V2.items p ++ map (fun s => Item s "") (media_srcs es))%list.
Proof.
  induction es as [ | e es IH]; intros p Hp Hq; cbn [V2.feed].
  - exists p. by rewrite app_nil_r.
  - cbn in Hq. apply andb_true_iff in Hq as [He Hq].
    destruct (V2_handle_quiet p e Hp He) as (q & -> & Hq1 & Hq2). cbn [mbind res_bind].
    destruct (IH q Hq1 Hq) as (p' & -> & H1 & H2).
    exists p'. split_and!; try done.
    rewrite H2, Hq2. change (e :: es) with ([e] ++ es)%list.
    by rewrite media_srcs_app, map_app, app_assoc.
Qed.

Lemma V1_handle_quiet p e :
  V1._in_textline p = false -> no_div_start e = true ->
  exists p', V1.handle p e = Ret p' /\ V1._in_textline p' = false /\
    V1.items p' = (V1.items p ++ map (fun s => Item s "") (media_srcs [e]))%list.
Proof.
  intros Hp He. destruct e as [tag attrs | tag | data]; cbn [V1.handle media_srcs].
  - unfold V1.handle_starttag. cbn in He.
    destruct (is_media (lower tag)); cbn [andb].
    + destruct (negb (String.eqb (get_src attrs) "")); eexists; split_and!; try done.
      by rewrite app_nil_r.
    + cbn in He. apply negb_true_iff in He. rewrite He.
      eexists; split_and!; try done. by rewrite app_nil_r.
  - unfold V1.handle_endtag. rewrite app_nil_r.
    case_match; eexists; split_and!; done.
  - unfold V1.handle_data. rewrite app_nil_r.
    destruct (String.eqb data ""); [eexists; split_and!; done | ].
    cbn. rewrite Hp. eexists; split_and!; done.
Qed.

Lemma V1_feed_quiet es : forall p,
  V1._in_textline p = false -> forallb no_div_start es = true ->
  exists p', V1.feed p es = Ret p' /\ V1._in_textline p' = false /\
    V1.items p' = (V1.items p ++ map (fun s => Item s "") (media_srcs es))%list.
Proof.
  induction es as [ | e es IH]; intros p Hp Hq; cbn [V1.feed].
  - exists p. by rewrite app_nil_r.
  - cbn in Hq. apply andb_true_iff in Hq as [He Hq].
    destruct (V1_handle_quiet p e Hp He) as (q & -> & Hq1 & Hq2). cbn [mbind res_bind].
    destruct (IH q Hq1 Hq) as (p' & -> & H1 & H2).
    exists p'. split_and!; try done.
    rewrite H2, Hq2. change (e :: es) with ([e] ++ es)%list.
    by rewrite media_srcs_app, map_app, app_assoc.
Qed.

(** X2.  After a closing [div], and in a document that opens no [div] at
    all, text gives no hint: as long as no [div] starts, the only thing that
    changes the items is a media tag, which adds an item with an empty
    date. *)
Theorem no_hint_outside_a_text_line (v : variant) (es es2 : list event)
    (tag : string) (its : list item) :
  String.eqb (lower tag) "div" = true ->
  forallb no_div_start es2 = true ->
  extract v (es ++ [EndTag tag]) = Ret its ->
  extract v (es ++ EndTag tag :: es2) =
    Ret (its ++ map (fun s => Item s "") (media_srcs es2))%list /\
  extract v es2 = Ret (map (fun s => Item s "") (media_srcs es2)).
Proof.
  intros Ht Hq H. destruct v; unfold extract in *.
  - split.
    + apply res_bind_ret in H as (p & Hp & [= <-]).
      rewrite V1_feed_app in Hp. apply res_bind_ret in Hp as (q & Hq1 & Hp).
      cbn in Hp. unfold V1.handle_endtag in Hp. rewrite Ht in Hp.
      injection Hp as <-.
      change (EndTag tag :: es2) with ([EndTag tag] ++ es2)%list.
      rewrite app_assoc, V1_feed_app, V1_feed_app, Hq1. cbn.
      unfold V1.handle_endtag. rewrite Ht. cbn.
      edestruct (V1_feed_quiet es2) as (p' & -> & _ & E); [ | exact Hq | ]; [done | ].
      cbn in *. by rewrite E.
    + destruct (V1_feed_quiet es2 V1.init eq_refl Hq) as (p' & -> & _ & E).
      cbn in *. by rewrite E.
  - split.
    + apply res_bind_ret in H as (p & Hp & [= <-]).
      rewrite V2_feed_app in Hp. apply res_bind_ret in Hp as (q & Hq1 & Hp).
      cbn in Hp. unfold V2.handle_endtag in Hp. rewrite Ht in Hp.
      injection Hp as <-.
      change (EndTag tag :: es2) with ([EndTag tag] ++ es2)%list.
      rewrite app_assoc, V2_feed_app, V2_feed_app, Hq1. cbn.
      unfold V2.handle_endtag. rewrite Ht. cbn.
      edestruct (V2_feed_quiet es2) as (p' & -> & _ & E); [ | exact Hq | ]; [done | ].
      cbn in *. by rewrite E.
    + destruct (V2_feed_quiet es2 V2.init eq_refl Hq) as (p' & -> & _ & E).
      cbn in *. by rewrite E.
Qed.

(** ** Which documents stop the parser *)

Lemma V2_handle_returns p e :
  inv2 p -> bare_class_div e = false -> exists p', V2.handle p e = Ret p'.
Proof.
  intros I He. destruct e as [tag attrs | tag | data]; cbn [V2.handle].
  - unfold V2.handle_starttag. cbn in He.
    destruct (is_media (lower tag)); [destruct (negb (String.eqb (get_src attrs) "")); eauto | ].
    destruct (String.eqb (lower tag) "div"); [ | eauto].
    cbn in He. destruct (dict_get attrs "class") as [[cls | ] | ]; try done; [ | eauto].
    destruct (contains "text-line" cls); eauto.
  - unfold V2.handle_endtag. case_match; eauto.
  - unfold V2.handle_data.
    destruct (V2._in_textline p); [ | eauto].
    destruct (V2._last_media_index p) as [i | ] eqn:E; [ | eauto].
    destruct (first_date DATE_PATTERNS data); [ | eauto].
    unfold inv2 in I. rewrite E in I. destruct I as [-> Hne].
    destruct (set_date_in_range (V2.items p) s Hne) as [its' ->]. cbn. eauto.
Qed.

Lemma V2_handle_bare p e :
  bare_class_div e = true -> V2.handle p e = Raise TypeError.
Proof.
  destruct e as [tag attrs | tag | data]; cbn; try done.
  unfold V2.handle_starttag.
  destruct (is_media (lower tag)); [done | ].
  destruct (String.eqb (lower tag) "div"); [ | done]. cbn.
  by destruct (dict_get attrs "class") as [[cls | ] | ].
Qed.

Lemma V2_feed_returns es : forall p,
  inv2 p ->
  (exists p', V2.feed p es = Ret p') <-> forallb (fun e => negb (bare_class_div e)) es = true.
Proof.
  induction es as [ | e es IH]; intros p I; cbn [V2.feed forallb].
  - split; eauto.
  - destruct (bare_class_div e) eqn:He; cbn [negb andb].
    + rewrite (V2_handle_bare p e He). cbn. split; [by intros [? ?] | done].
    + destruct (V2_handle_returns p e I He) as [q Hq]. rewrite Hq. cbn.
      apply IH. eapply V2_handle_inv; eauto.
Qed.

(** X3.  The parser of [organize_memories_gui.py] returns on every
    document.  The parser of [organize_memories_gui2.py] returns exactly on
    the documents without a start tag [div] whose [class] attribute is
    written without a value; on the others it raises, and what it raises is
    [TypeError]. *)
Theorem parser_stops_on_bare_class_only (es : list event) :
  (exists its, extract Gui es = Ret its) /\
  ((exists its, extract Gui2 es = Ret its) <->
   forallb (fun e => negb (bare_class_div e)) es = true) /\
  (forall x, extract Gui2 es = Raise x -> x = TypeError).
Proof.
  split; [apply extract_gui_total | ]. split; [ | apply extract_gui2_raise].
  rewrite <- (V2_feed_returns es V2.init) by done.
  unfold extract. split.
  - intros [its H]. apply res_bind_ret in H as (p & -> & _). eauto.
  - intros [p ->]. cbn. eauto.
Qed.

(** ** The form of the dates *)

Lemma is_digit_inv (c : ascii) : is_digit c = true -> exists a, is_dig a /\ c = digit_char a.
Proof.
  unfold is_digit, in_range. rewrite andb_true_iff, !Z.leb_le. intros [H1 H2].
  exists (code c - 48). split; [unfold is_dig; lia | ].
  unfold digit_char. replace (48 + (code c - 48)) with (code c) by lia.
  unfold code. by rewrite N2Z.id, ascii_N_embedding.
Qed.

Lemma match_seq_cons k p s m r :
  match_seq (k :: p) s = Some (m, r) ->
  exists c s' m', s = String c s' /\ m = String c m' /\ cset_mem k c = true /\
    match_seq p s' = Some (m', r).
Proof.
  cbn [match_seq]. destruct s as [ | c s]; [done | ].
  destruct (cset_mem k c) eqn:E; [ | done].
  destruct (match_seq p s) as [[m' r'] | ] eqn:M; [ | done].
  intros [= <- <-]. by exists c, s, m'.
Qed.

Lemma match_seq_self p : forall s m r,
  match_seq p s = Some (m, r) -> match_seq p m = Some (m, "").
Proof.
  induction p as [ | k p IH]; intros s m r H.
  - cbn in H. by injection H as <- <-.
  - apply match_seq_cons in H as (c & s' & m' & -> & -> & Hc & H).
    cbn [match_seq]. by rewrite Hc, (IH _ _ _ H).
Qed.

Lemma re_search_shape p s m : re_search p s = Some m -> match_seq p m = Some (m, "").
Proof.
  unfold re_search. intros H.
  apply search_from_leftmost in H as (s1 & s2 & _ & H & _).
  unfold match_bounded in H.
  destruct (boundary _ _); [ | done].
  destruct (match_seq p (m +:+ s2)) as [[m' r] | ] eqn:E; [ | done].
  destruct (boundary _ _); [ | done]. injection H as ->.
  by apply match_seq_self in E.
Qed.

(** Takes a match of a pattern apart, character by character. *)
Ltac open_match H :=
  repeat match type of H with
         | match_seq (_ :: _) _ = Some _ =>
             let c := fresh "c" in let Hc := fresh "Hc" in
             apply match_seq_cons in H as (c & ? & ? & -> & -> & Hc & H);
             cbn [cset_mem] in Hc;
             first [ apply is_digit_inv in Hc as (? & ? & ->)
                   | apply Ascii.eqb_eq in Hc as -> ]
         | match_seq [] _ = Some _ => cbn [match_seq] in H; injection H as <- <-
         end.

Lemma match_iso_inv s m r :
  match_seq pat_iso s = Some (m, r) ->
  exists y1 y2 y3 y4 m1 m2 d1 d2,
    is_dig y1 /\ is_dig y2 /\ is_dig y3 /\ is_dig y4 /\
    is_dig m1 /\ is_dig m2 /\ is_dig d1 /\ is_dig d2 /\
    m = digits [y1; y2; y3; y4] +:+ "-" +:+ digits [m1; m2] +:+ "-" +:+ digits [d1; d2].
Proof.
  unfold pat_iso. intros H. open_match H.
  do 8 eexists. split_and!. 9: reflexivity. all: assumption.
Qed.

Lemma match_mdy_inv s m r :
  match_seq pat_mdy s = Some (m, r) ->
  exists y1 y2 y3 y4 m1 m2 d1 d2,
    is_dig y1 /\ is_dig y2 /\ is_dig y3 /\ is_dig y4 /\
    is_dig m1 /\ is_dig m2 /\ is_dig d1 /\ is_dig d2 /\
    m = digits [m1; m2] +:+ "-" +:+ digits [d1; d2] +:+ "-" +:+ digits [y1; y2; y3; y4].
Proof.
  unfold pat_mdy. intros H. open_match H.
  do 8 eexists. split_and!. 9: reflexivity. all: assumption.
Qed.

Lemma match_und_inv s m r :
  match_seq pat_und s = Some (m, r) ->
  exists y1 y2 y3 y4 m1 m2 d1 d2,
    is_dig y1 /\ is_dig y2 /\ is_dig y3 /\ is_dig y4 /\
    is_dig m1 /\ is_dig m2 /\ is_dig d1 /\ is_dig d2 /\
    m = digits [y1; y2; y3; y4] +:+ "_" +:+ digits [m1; m2] +:+ "_" +:+ digits [d1; d2].
Proof.
  unfold pat_und. intros H. open_match H.
  do 8 eexists. split_and!. 9: reflexivity. all: assumption.
Qed.

Lemma match_d8_inv s m r :
  match_seq pat_d8 s = Some (m, r) ->
  exists y1 y2 y3 y4 m1 m2 d1 d2,
    is_dig y1 /\ is_dig y2 /\ is_dig y3 /\ is_dig y4 /\
    is_dig m1 /\ is_dig m2 /\ is_dig d1 /\ is_dig d2 /\
    m = digits [y1; y2; y3; y4; m1; m2; d1; d2].
Proof.
  unfold pat_d8. cbn [repeat]. intros H. open_match H.
  do 8 eexists. split_and!. 9: reflexivity. all: assumption.
Qed.

Lemma match_d6_inv s m r :
  match_seq pat_d6 s = Some (m, r) ->
  exists a b c d e f,
    is_dig a /\ is_dig b /\ is_dig c /\ is_dig d /\ is_dig e /\ is_dig f /\
    m = digits [a; b; c; d; e; f].
Proof.
  unfold pat_d6. cbn [repeat]. intros H. open_match H.
  do 6 eexists. split_and!. 7: reflexivity. all: assumption.
Qed.

Lemma pad2_digits a b : is_dig a -> is_dig b -> pad2 (10 * a + b) = digits [a; b].
Proof.
  unfold is_dig, pad2. intros Ha Hb. cbn [digits]. repeat f_equal;
    Z.to_euclidean_division_equations; lia.
Qed.

Lemma pad4_digits a b c d : is_dig a -> is_dig b -> is_dig c -> is_dig d ->
  pad4 (1000 * a + 100 * b + 10 * c + d) = digits [a; b; c; d].
Proof.
  unfold is_dig, pad4, pad2. intros Ha Hb Hc Hd. cbn [digits]. repeat f_equal;
    Z.to_euclidean_division_equations; lia.
Qed.

(** Whatever the date, [strftime] writes four digits, two and two. *)
Lemma strftime_iso_shaped dt : iso_shaped (strftime dt).
Proof.
  unfold iso_shaped, strftime, pad4, pad2, pat_iso.
  cbv [String.append]. cbn [match_seq cset_mem].
  rewrite !is_digit_digit_char by (apply Z.mod_pos_bound; lia).
  reflexivity.
Qed.

Lemma real_date_iso_shaped d : real_date d -> iso_shaped d.
Proof. intros (dt & _ & ->). apply strftime_iso_shaped. Qed.

Lemma strptime_valid fmt s dt : strptime fmt s = Some dt -> valid_date dt = true.
Proof.
  unfold strptime. destruct (fmt_match fmt s) as [ | [gs rest] l]; [done | ].
  destruct rest; [ | done].
  destruct (valid_date _) eqn:V; [ | done]. by intros [= <-].
Qed.

(** A text of the form [dddd-dd-dd] that [strptime] takes is the text that
    [strftime] writes for the date read. *)
Lemma iso_canonical d dt :
  iso_shaped d -> strptime fmt_Ymd d = Some dt -> d = strftime dt.
Proof.
  intros H S. apply match_iso_inv in H
    as (y1 & y2 & y3 & y4 & m1 & m2 & d1 & d2 & ? & ? & ? & ? & ? & ? & ? & ? & ->).
  cbv [digits String.append] in S |- *.
  rewrite strptime_Ymd10 in S by done. cbv zeta in S.
  destruct (valid_date _); [ | done]. injection S as <-.
  unfold strftime. cbn [year month day].
  rewrite pad4_digits, !pad2_digits by done. reflexivity.
Qed.

Lemma iso_real d : iso_shaped d -> is_Some (strptime fmt_Ymd d) -> real_date d.
Proof.
  intros H [dt S]. exists dt. split; [by eapply strptime_valid | by apply iso_canonical].
Qed.

(** On a text [dddd-dd-dd] the normalisation is the check alone. *)
Lemma normalize_date_iso d :
  iso_shaped d ->
  normalize_date d = match strptime fmt_Ymd d with Some _ => Some d | None => None end.
Proof.
  intros H. apply match_iso_inv in H
    as (y1 & y2 & y3 & y4 & m1 & m2 & d1 & d2 & ? & ? & ? & ? & ? & ? & ? & ? & ->).
  unfold normalize_date. cbv [digits String.append].
  digits_simpl. change (Ascii.eqb "_" "-") with false.
  change (Ascii.eqb "-" "-") with true. cbn [Nat.eqb orb andb negb].
  unfold re_match. digits_simpl. cbn [orb andb negb mbind option_bind].
  destruct (strptime fmt_Ymd _); reflexivity.
Qed.

Lemma normalize_date_real p m d :
  p ∈ DATE_PATTERNS -> match_seq p m = Some (m, "") ->
  normalize_date m = Some d -> real_date d.
Proof.
  unfold DATE_PATTERNS. intros Hp Hm Hd.
  pose proof (normalize_date_valid _ _ Hd) as V.
  repeat (apply elem_of_cons in Hp as [-> | Hp]).
  - rewrite normalize_date_iso in Hd by done.
    destruct (strptime fmt_Ymd m) eqn:S; [ | done]. injection Hd as <-.
    by apply iso_real.
  - apply match_mdy_inv in Hm
      as (y1 & y2 & y3 & y4 & m1 & m2 & d1 & d2 & ? & ? & ? & ? & ? & ? & ? & ? & ->).
    revert Hd. unfold normalize_date. cbv [digits String.append].
    digits_simpl. change (Ascii.eqb "_" "-") with false.
    change (Ascii.eqb "-" "-") with true. cbn [Nat.eqb orb andb negb].
    unfold re_match. digits_simpl. cbn [orb andb negb mbind option_bind].
    change (Ascii.eqb "-" "-") with true. cbn [orb andb negb mbind option_bind].
    destruct (strptime fmt_mdY _) as [dt | ] eqn:S; [ | done].
    cbn [mbind option_bind]. intros Hd.
    destruct (strptime fmt_Ymd (strftime dt)); [ | done]. injection Hd as <-.
    exists dt. split; [by eapply strptime_valid | done].
  - apply iso_real; [ | done]. clear V.
    apply match_und_inv in Hm
      as (y1 & y2 & y3 & y4 & m1 & m2 & d1 & d2 & ? & ? & ? & ? & ? & ? & ? & ? & ->).
    revert Hd. unfold normalize_date. cbv [digits String.append].
    digits_simpl. change (Ascii.eqb "_" "_") with true. cbn [orb andb negb].
    cbn [replace_char]. rewrite !digit_char_eqb by done.
    change (Ascii.eqb "_" "_") with true. cbn [mbind option_bind].
    destruct (strptime fmt_Ymd _); [ | done]. cbn [mbind option_bind]. intros [= <-].
    unfold iso_shaped. digits_simpl. reflexivity.
  - apply iso_real; [ | done]. clear V.
    apply match_d8_inv in Hm
      as (y1 & y2 & y3 & y4 & m1 & m2 & d1 & d2 & ? & ? & ? & ? & ? & ? & ? & ? & ->).
    revert Hd. unfold normalize_date. cbv [digits String.append].
    digits_simpl. cbn [Nat.eqb orb andb negb].
    cbv [slice take_str drop_str Nat.sub String.append]. cbn [mbind option_bind].
    destruct (strptime fmt_Ymd _); [ | done]. cbn [mbind option_bind]. intros [= <-].
    unfold iso_shaped. digits_simpl. reflexivity.
  - apply match_d6_inv in Hm as (a & b & c & e & f & g & ? & ? & ? & ? & ? & ? & ->).
    rewrite normalize_six in Hd by done. cbv zeta in Hd.
    repeat case_match; simplify_eq; eexists; eauto.
  - by apply elem_of_nil in Hp.
Qed.

Lemma first_date_sound ps text d :
  first_date ps text = Some d ->
  exists p m, p ∈ ps /\ re_search p text = Some m /\ normalize_date m = Some d.
Proof.
  induction ps as [ | q ps IH]; cbn [first_date]; [done | ].
  destruct (re_search q text) as [m | ] eqn:S.
  - destruct (normalize_date m) as [d' | ] eqn:N.
    + intros [= <-]. exists q, m. split; [by left | done].
    + intros H. apply IH in H as (p & m' & ? & ? & ?). exists p, m'. split; [by right | done].
  - intros H. apply IH in H as (p & m' & ? & ? & ?). exists p, m'. split; [by right | done].
Qed.

Lemma first_date_real text d : first_date DATE_PATTERNS text = Some d -> real_date d.
Proof.
  intros H. apply first_date_sound in H as (p & m & Hp & Hs & Hn).
  eapply normalize_date_real; [exact Hp | | exact Hn].
  by eapply re_search_shape.
Qed.

Lemma V2_feed_dates (P : string -> Prop) :
  P "" -> (forall text d, first_date DATE_PATTERNS text = Some d -> P d) ->
  forall es p p', Forall (fun it => P (date it)) (V2.items p) ->
    V2.feed p es = Ret p' -> Forall (fun it => P (date it)) (V2.items p').
Proof.
  intros P0 Pd. induction es as [ | e es IH]; intros p p' I; cbn [V2.feed].
  - by intros [= <-].
  - intros H. apply res_bind_ret in H as (q & Hq & H).
    eapply IH; [ | exact H]. clear H IH.
    destruct e as [tag attrs | tag | data]; cbn [V2.handle] in Hq.
    + unfold V2.handle_starttag in Hq. repeat case_match; simplify_eq; try exact I.
      cbn. apply Forall_app. split; [exact I | ]. by repeat constructor.
    + unfold V2.handle_endtag in Hq. case_match; simplify_eq; exact I.
    + unfold V2.handle_data in Hq.
      destruct (V2._in_textline p); [ | by simplify_eq].
      destruct (V2._last_media_index p) as [i | ]; [ | by simplify_eq].
      destruct (first_date DATE_PATTERNS data) as [d | ] eqn:F; [ | by simplify_eq].
      unfold set_date in Hq. destruct (V2.items p !! i) as [it | ]; [ | done].
      injection Hq as <-. cbn. apply Forall_insert; [exact I | ].
      cbn. by eapply Pd.
Qed.

Lemma V1_feed_dates (P : string -> Prop) :
  P "" -> (forall text d, re_search DATE_RE text = Some d -> P d) ->
  forall es p p', Forall (fun it => P (date it)) (V1.items p) ->
    V1.feed p es = Ret p' -> Forall (fun it => P (date it)) (V1.items p').
Proof.
  intros P0 Pd. induction es as [ | e es IH]; intros p p' I; cbn [V1.feed].
  - by intros [= <-].
  - intros H. apply res_bind_ret in H as (q & Hq & H).
    eapply IH; [ | exact H]. clear H IH.
    destruct e as [tag attrs | tag | data]; cbn [V1.handle] in Hq.
    + unfold V1.handle_starttag in Hq. repeat case_match; simplify_eq; try exact I.
      cbn. apply Forall_app. split; [exact I | ]. by repeat constructor.
    + unfold V1.handle_endtag in Hq. case_match; simplify_eq; exact I.
    + unfold V1.handle_data in Hq.
      destruct (String.eqb data ""); [by simplify_eq | ]. cbn in Hq.
      destruct (V1._in_textline p); [ | by simplify_eq].
      destruct (V1._last_media_index p) as [i | ]; [ | by simplify_eq].
      destruct (re_search DATE_RE data) as [d | ] eqn:F; [ | by simplify_eq].
      unfold set_date in Hq. destruct (V1.items p !! i) as [it | ]; [ | done].
      injection Hq as <-. cbn. apply Forall_insert; [exact I | ].
      cbn. by eapply Pd.
Qed.

Lemma extract_dates (v : variant) (P : string -> Prop) es its :
  P "" -> (forall text d, re_search DATE_RE text = Some d -> P d) ->
  (forall text d, first_date DATE_PATTERNS text = Some d -> P d) ->
  extract v es = Ret its -> Forall (fun it => P (date it)) its.
Proof.
  intros P0 P1 P2 H. destruct v; unfold extract in H;
    apply res_bind_ret in H as (p & Hp & [= <-]).
  - eapply V1_feed_dates; [exact P0 | exact P1 | | exact Hp]. constructor.
  - eapply V2_feed_dates; [exact P0 | exact P2 | | exact Hp]. constructor.
Qed.

Lemma date_from_name_shaped (v : variant) (p : path) :
  date_from_name v p = "" \/ iso_shaped (date_from_name v p).
Proof.
  destruct v; cbn [date_from_name].
  - unfold V1.date_from_name. destruct (re_search DATE_RE (path_name p)) eqn:E; [ | by left].
    right. by apply re_search_shape in E.
  - unfold V2.date_from_name.
    destruct (first_date DATE_PATTERNS (path_name p)) eqn:E; [ | by left].
    right. by apply first_date_real, real_date_iso_shaped in E.
Qed.

Lemma extract_shaped (v : variant) es its :
  extract v es = Ret its -> Forall (fun it => date it = "" \/ iso_shaped (date it)) its.
Proof.
  apply (extract_dates v (fun d => d = "" \/ iso_shaped d)).
  - by left.
  - intros text d E. right. by apply re_search_shape in E.
  - intros text d E. right. by apply first_date_real, real_date_iso_shaped in E.
Qed.

Lemma extract_real es its :
  extract Gui2 es = Ret its -> Forall (fun it => date it = "" \/ real_date (date it)) its.
Proof.
  unfold extract. intros H. apply res_bind_ret in H as (q & Hq & [= <-]).
  eapply (V2_feed_dates (fun d => d = "" \/ real_date d)) in Hq; [done | by left | | constructor].
  intros text d E. right. by apply first_date_real in E.
Qed.

Lemma V2_date_from_name_real (p : path) :
  V2.date_from_name p = "" \/ real_date (V2.date_from_name p).
Proof.
  unfold V2.date_from_name.
  destruct (first_date DATE_PATTERNS (path_name p)) eqn:E; [ | by left].
  right. by apply first_date_real in E.
Qed.

(** X5.  Every hint a parser attaches to an item, and every date
    [date_from_name] returns, is empty or of the form [dddd-dd-dd]. *)
Theorem dates_are_written_as_a_date (v : variant) (es : list event) (its : list item)
    (it : item) (p : path) :
  extract v es = Ret its -> it ∈ its ->
  (date it = "" \/ iso_shaped (date it)) /\
  (date_from_name v p = "" \/ iso_shaped (date_from_name v p)).
Proof.
  intros H Hin. split; [ | apply date_from_name_shaped].
  apply extract_shaped in H. rewrite Forall_forall in H. by apply H.
Qed.

(** X6.  In [organize_memories_gui2.py] every hint and every date found in
    a file name is empty or the text [YYYY-MM-DD] that [strftime] writes for
    a date of the calendar, whichever of the five patterns it was found
    with. *)
Theorem gui2_reads_calendar_dates_only (es : list event) (its : list item)
    (it : item) (p : path) :
  extract Gui2 es = Ret its -> it ∈ its ->
  (date it = "" \/ real_date (date it)) /\
  (date_from_name Gui2 p = "" \/ real_date (date_from_name Gui2 p)).
Proof.
  intros H Hin. split; [ | apply V2_date_from_name_real].
  apply extract_real in H. rewrite Forall_forall in H. by apply H.
Qed.

(** X7.  When the leftmost [dddd-dd-dd] between word boundaries of a text
    is a date of the calendar, [organize_memories_gui2.py] reads the date
    that [organize_memories_gui.py] reads: as a hint, and from a file
    name. *)
Theorem gui2_reads_the_dates_gui_reads (text m : string) :
  re_search DATE_RE text = Some m -> is_Some (strptime fmt_Ymd m) ->
  first_date DATE_PATTERNS text = Some m /\
  forall p, path_name p = text ->
    date_from_name Gui p = m /\ date_from_name Gui2 p = m.
Proof.
  intros Hs [dt Hd].
  assert (F : first_date DATE_PATTERNS text = Some m).
  { unfold DATE_PATTERNS. cbn [first_date]. unfold DATE_RE in Hs. rewrite Hs.
    rewrite normalize_date_iso by (by eapply re_search_shape). by rewrite Hd. }
  split; [exact F | ]. intros p <-. cbn [date_from_name].
  unfold V1.date_from_name, V2.date_from_name. by rewrite Hs, F.
Qed.



(** ** References *)

Lemma rstrip_length s : (String.length (rstrip s) <= String.length s)%nat.
Proof.
  induction s as [ | c s IH]; cbn; [done | ].
  destruct (rstrip s); [destruct (is_space c) | ]; cbn in *; lia.
Qed.

Lemma lstrip_length s : (String.length (lstrip s) <= String.length s)%nat.
Proof.
  induction s as [ | c s IH]; cbn; [done | ].
  destruct (is_space c); cbn; lia.
Qed.

Lemma rstrip_nonspace c s : is_space c = false -> rstrip (String c s) = String c (rstrip s).
Proof. intros H. cbn. rewrite H. by destruct (rstrip s). Qed.

Lemma rstrip_app_nonspace a c s :
  is_space c = false -> rstrip (a +:+ String c s) = a +:+ String c (rstrip s).
Proof.
  intros H. induction a as [ | x a IH]; rewrite ?append_nil, ?append_cons.
  - by apply rstrip_nonspace.
  - cbn [rstrip]. rewrite IH. by destruct a.
Qed.

(** A text that [strip] leaves alone has no white space at either end. *)
Lemma strip_fixed s :
  strip s = s -> lstrip s = s /\ rstrip s = s.
Proof.
  unfold strip. intros H.
  assert (L : lstrip s = s).
  { destruct s as [ | c s]; [done | ]. cbn [lstrip] in *.
    destruct (is_space c); [ | done]. exfalso.
    apply (f_equal String.length) in H. cbn in H.
    pose proof (rstrip_length (lstrip s)). pose proof (lstrip_length s). lia. }
  split; [done | ]. by rewrite L in H.
Qed.

Lemma lstrip_app s r : lstrip s = s -> s <> "" -> lstrip (s +:+ r) = s +:+ r.
Proof.
  destruct s as [ | c s]; [done | ]. intros H _. rewrite append_cons. cbn [lstrip] in *.
  destruct (is_space c); [ | done]. exfalso.
  apply (f_equal String.length) in H. cbn in H. pose proof (lstrip_length s). lia.
Qed.

Lemma before_char_id c s : mem_char c s = false -> before_char c s = s.
Proof.
  induction s as [ | a s IH]; cbn; [done | ].
  intros H. apply orb_false_iff in H as [-> H]. by rewrite IH.
Qed.

Lemma before_char_app c s r :
  mem_char c s = false -> before_char c (s +:+ String c r) = s.
Proof.
  induction s as [ | a s IH]; rewrite ?append_nil, ?append_cons; cbn.
  - by rewrite Ascii.eqb_refl.
  - intros H. apply orb_false_iff in H as [-> H]. by rewrite IH.
Qed.

Lemma startswith_dot_slash_app s r :
  startswith "./" s = false ->
  startswith "./" (s +:+ String "?" r) = false /\
  startswith ".//" (s +:+ String "?" r) = false.
Proof.
  destruct s as [ | a [ | b s]]; rewrite ?append_cons, ?append_nil; cbn [startswith].
  - done.
  - intros _. by destruct (Ascii.eqb "." a).
  - destruct (Ascii.eqb "." a); [ | done]. destruct (Ascii.eqb "/" b); [done | done].
Qed.

(** X4.  A reference without white space around it, without [?] and not
    starting with [./] is left as it is by [normalize_src]; a query [?...]
    after it is cut off, a [.//] before it is removed, and so is a [./]
    before it when the reference does not start with a slash. *)
Theorem normalize_src_of_a_plain_reference (s q : string) :
  strip s = s -> mem_char "?" s = false -> startswith "./" s = false ->
  normalize_src s = s /\
  normalize_src (s +:+ "?" +:+ q) = s /\
  normalize_src (".//" +:+ s) = s /\
  (startswith "/" s = false -> normalize_src ("./" +:+ s) = s).
Proof.
  intros Hs Hq Hd. pose proof (strip_fixed s Hs) as [Hl Hr].
  assert (D3 : startswith ".//" s = false).
  { destruct s as [ | a [ | b s]]; cbn [startswith] in *; try done;
      destruct (Ascii.eqb "." a); try done. by destruct (Ascii.eqb "/" b). }
  split_and!.
  - unfold normalize_src. rewrite Hs, D3, Hd. by apply before_char_id.
  - unfold normalize_src, strip.
    assert (E : lstrip (s +:+ "?" +:+ q) = s +:+ "?" +:+ q).
    { destruct (decide (s = "")) as [-> | Hne]; [done | by apply lstrip_app]. }
    rewrite E. change ("?" +:+ q) with (String "?" q).
    rewrite rstrip_app_nonspace by done.
    destruct (startswith_dot_slash_app s (rstrip q) Hd) as [-> ->].
    by apply before_char_app.
  - unfold normalize_src, strip. cbv [String.append]. fold String.append.
    cbn [lstrip]. change (is_space ".") with false. cbv iota.
    rewrite !rstrip_nonspace by done. rewrite Hr.
    cbn [startswith drop_str]. change (Ascii.eqb "." ".") with true.
    change (Ascii.eqb "/" "/") with true. cbv iota. by apply before_char_id.
  - intros Hsl. unfold normalize_src, strip. cbv [String.append]. fold String.append.
    cbn [lstrip]. change (is_space ".") with false. cbv iota.
    rewrite !rstrip_nonspace by done. rewrite Hr.
    cbn [startswith drop_str]. change (Ascii.eqb "." ".") with true.
    change (Ascii.eqb "/" "/") with true. cbv iota.
    destruct s as [ | a s]; [done | ]. cbn [startswith] in Hsl.
    destruct (Ascii.eqb "/" a); [done | ]. by apply before_char_id.
Qed.

(** ** What a turn of the loop does, case by case *)

Lemma process_cases env v html_path out_dir i total it w w' r :
  process env v html_path out_dir i total it w = (w', r) ->
  let src_path := locate html_path (fs w) (normalize_src (src it)) in
  (path_exists (fs w) src_path = false /\ r = None /\
   w' = emit_if (shown v i total) (fail_incr w) (Put (progress i total (MISSING (src it))))) \/
  (path_exists (fs w) src_path = true /\
   exists d, effective_date v (fs w) it src_path = Ret d /\
     let tgt_dir := join_path (join_path out_dir (take_str 4 d)) (take_str 7 d) in
     let base_name := d +:+ "_" +:+ path_name src_path in
     (mkdir_p (now env) (fs w) tgt_dir = Raise OSError /\ r = Some OSError /\
      w' = emit w (Mkdir tgt_dir (Some OSError))) \/
     (exists fs1 target,
        mkdir_p (now env) (fs w) tgt_dir = Ret fs1 /\
        free_target fs1 tgt_dir base_name (S (size fs1)) 1 (join_path tgt_dir base_name)
          = Some target /\
        r = None /\
        ((exists fs2, copy2 fs1 src_path target = Ret fs2 /\
            w' = emit_if (shown v i total)
                   (emit (ok_incr (with_fs (emit (with_fs w fs1) (Mkdir tgt_dir None)) fs2))
                      (Copy2 src_path target None))
                   (Put (progress i total (OK (path_name target))))) \/
         (exists e, copy2 fs1 src_path target = Raise e /\
            w' = emit (emit (fail_incr (emit (with_fs w fs1) (Mkdir tgt_dir None)))
                         (Copy2 src_path target (Some e)))
                   (Put (progress i total (copy_failed v e))))))).
Proof.
  intros H src_path. unfold process in H. fold src_path in H.
  destruct (path_exists (fs w) src_path) eqn:Ex; cbn [negb] in H.
  - right. split; [done | ].
    destruct (effective_date_total v (fs w) it src_path Ex) as [d Hd].
    rewrite Hd in H. exists d. split; [done | ]. cbv zeta.
    destruct (mkdir_p (now env) (fs w) _) as [fs1 | e] eqn:M.
    + right. exists fs1.
      match type of H with
      | context [free_target fs1 ?td ?bn ?fu ?sf ?tg] =>
          destruct (free_target_total fs1 td bn sf tg) as [t Ht]; rewrite Ht in H
      end.
      exists t. split; [done | ]. split; [done | ].
      destruct (copy2 fs1 src_path t) as [fs2 | e] eqn:C; injection H as <- <-.
      * split; [done | ]. left. by exists fs2.
      * split; [done | ]. right. by exists e.
    + left. apply mkdir_from_raise in M as ->. by injection H as <- <-.
  - left. by injection H as <- <-.
Qed.

(** An invariant of the turns is an invariant of the loop: the world it
    holds of is the one before the last message.  [hi] bounds the numbers
    of the items. *)
Lemma loop_invariant env v html_path out_dir total (hi : nat)
    (I : nat -> world -> Prop) (K : world -> Prop) (P : item -> Prop) :
  (forall i w b, I i w -> I i (emit w (IsSet b))) ->
  (forall i it w w', (i < hi)%nat -> P it -> I i w ->
     process env v html_path out_dir i total it w = (w', None) -> I (S i) w') ->
  (forall i it w w' e, (i < hi)%nat -> P it -> I i w ->
     process env v html_path out_dir i total it w = (w', Some e) -> K w') ->
  forall its i w w' st, (i + length its <= hi)%nat -> Forall P its -> I i w ->
    loop env v html_path out_dir total i its w = (w', st) ->
    match st with
    | Finished =>
        exists w1, I (i + length its)%nat w1 /\ w' = emit w1 (Put (done (ok w1) (fail w1)))
    | Cancelled =>
        exists j w1, (i <= j < i + length its)%nat /\ I j w1 /\
          w' = emit w1 (Put (log (ok w1) (fail w1)))
    | Uncaught e => K w'
    | Fatal => False
    end.
Proof.
  intros Hpoll Hturn Hraise.
  induction its as [ | it its IH]; intros i w w' st Hhi HP HI; cbn [loop].
  - intros [= <- <-]. exists w. cbn. by rewrite Nat.add_0_r.
  - inversion HP as [ | ? ? Hit Hits]; subst. cbn [length] in Hhi.
    destruct (cancel env i).
    + intros [= <- <-]. exists i, (emit w (IsSet true)). cbn [length].
      split; [lia | ]. split; [by apply Hpoll | done].
    + destruct (process env v html_path out_dir i total it (emit w (IsSet false)))
        as [w1 r] eqn:E.
      destruct r as [e | ].
      * intros [= <- <-]. eapply Hraise; [ | exact Hit | | exact E]; [lia | by apply Hpoll].
      * assert (H1 : I (S i) w1).
        { eapply Hturn; [ | exact Hit | | exact E]; [lia | by apply Hpoll]. }
        intros H. apply (IH (S i) w1 w' st) in H; [ | lia | done | done].
        destruct st; try done.
        -- destruct H as (w2 & H2 & ->). exists w2. split; [ | done].
           cbn [length]. by replace (i + S (length its))%nat with (S i + length its)%nat by lia.
        -- destruct H as (j & w2 & Hj & H2 & ->). exists j, w2. cbn [length].
           split; [lia | done].
Qed.

(** How a run begins. *)
Lemma run_cases env v html_path out_dir fs0 w' st :
  run env v html_path out_dir fs0 = (w', st) ->
  (exists t, st = Fatal /\ w' = emit (World fs0 0 0 []) (Put (error t))) \/
  (exists e, st = Uncaught e /\ w' = World fs0 0 0 []) \/
  (exists text its,
     read_html env v html_path fs0 = inr text /\ parse env v text = Ret its /\
     its <> [] /\
     loop env v html_path out_dir (length its) 1 its
       (emit (World fs0 0 0 []) (Put (meta (length its)))) = (w', st)).
Proof.
  unfold run. destruct (read_html env v html_path fs0) as [t | text] eqn:R.
  - intros [= <- <-]. left. by exists t.
  - destruct (parse env v text) as [its | e] eqn:Pa.
    + destruct its as [ | it its].
      * intros [= <- <-]. left. by eexists.
      * intros H. right. right. exists text, (it :: its). by split_and!.
    + intros [= <- <-]. right. left. by exists e.
Qed.

(** ** The totals *)

Lemma copied_snoc tr a : copied (tr ++ [a]) = (copied tr ++ copied [a])%list.
Proof. apply copied_app. Qed.

Lemma process_copies env v html_path out_dir i total it w w' r :
  process env v html_path out_dir i total it w = (w', r) ->
  ok w = length (copied (trace w)) -> ok w' = length (copied (trace w')).
Proof.
  intros H I. apply process_cases in H. cbv zeta in H.
  destruct H as [(_ & _ & ->) | (_ & d & _ & [(_ & _ & ->) | (fs1 & t & _ & _ & _ & H)])].
  - destruct (shown v i total); cbn; rewrite ?copied_snoc, ?app_nil_r; cbn;
      rewrite ?app_nil_r; done.
  - cbn. by rewrite copied_snoc, app_nil_r.
  - destruct H as [(fs2 & _ & ->) | (e & _ & ->)].
    + destruct (shown v i total); cbn; rewrite ?copied_snoc; cbn;
        rewrite ?app_nil_r, length_app; cbn; lia.
    + cbn. rewrite !copied_snoc. cbn. by rewrite !app_nil_r.
Qed.

Lemma loop_copies env v html_path out_dir total its i w w' st :
  loop env v html_path out_dir total i its w = (w', st) ->
  ok w = length (copied (trace w)) -> ok w' = length (copied (trace w')).
Proof.
  intros H I.
  eapply (loop_invariant env v html_path out_dir total (i + length its)
            (fun _ w => ok w = length (copied (trace w)))
            (fun w => ok w = length (copied (trace w)))
            (fun _ => True)) in H.
  - destruct st; try done.
    + destruct H as (w1 & H1 & ->). cbn. by rewrite copied_snoc, app_nil_r.
    + destruct H as (j & w1 & _ & H1 & ->). cbn. by rewrite copied_snoc, app_nil_r.
  - intros _ w0 b H0. cbn. by rewrite copied_snoc, app_nil_r.
  - intros i0 it w0 w1 _ _ H0 Hp. by eapply process_copies.
  - intros i0 it w0 w1 e _ _ H0 Hp. by eapply process_copies.
  - done.
  - by apply Forall_true.
  - exact I.
Qed.

Lemma queue_app tr1 tr2 : queue (tr1 ++ tr2) = (queue tr1 ++ queue tr2)%list.
Proof. apply omap_app. Qed.

(** X9.  At the end of a run the success count is the number of copies
    that were made.  A run that finishes puts these totals in its last
    message, and they add up to the number of media tags of the document; a
    cancelled run puts them in its last message too. *)
Theorem the_totals_are_right (env : environment) (v : variant)
    (html_path out_dir : path) (fs0 : fsys) (w' : world) (st : status) :
  run env v html_path out_dir fs0 = (w', st) ->
  ok w' = length (copied (trace w')) /\
  match st with
  | Finished =>
      exists text, read_html env v html_path fs0 = inr text /\
        last (queue (trace w')) = Some (done (ok w') (fail w')) /\
        (ok w' + fail w' = length (media_srcs (tokenize env text)))%nat
  | Cancelled => last (queue (trace w')) = Some (log (ok w') (fail w'))
  | Fatal | Uncaught _ => True
  end.
Proof.
  intros H. apply run_cases in H
    as [(t & -> & ->) | [(e & -> & ->) | (text & its & R & Pa & Hne & L)]]; [done | done | ].
  split; [by apply loop_copies in L | ].
  destruct st; try done.
  - exists text. split; [done | ].
    apply loop_finished in L as (Hc & _ & tr & Ht & _). cbn in Hc.
    split.
    + rewrite Ht, app_assoc, queue_app. apply last_snoc.
    + rewrite Hc. unfold parse in Pa. apply extract_srcs in Pa.
      by rewrite <- Pa, length_map.
  - apply loop_cancelled in L as (N & wN & _ & _ & _ & ->). cbn.
    rewrite queue_app. apply last_snoc.
Qed.

(** ** What a copy holds *)

Lemma copy2_faithful (fs fs' : fsys) (src dst : path) :
  fs !! resolve dst = None -> resolve dst <> [] ->
  copy2 fs src dst = Ret fs' ->
  exists c mt, fs !! resolve src = Some (Node (File c) mt true) /\
    fs' = <[resolve dst := Node (File c) mt true]> fs /\ resolve src <> resolve dst.
Proof.
  intros Hnone Hne. unfold copy2.
  assert (E : node_at fs (resolve dst) = None).
  { unfold node_at. by destruct (resolve dst). }
  destruct (node_at fs (resolve src)) as [[[c | ] mt [ | ]] | ] eqn:S; try done.
  rewrite E. cbv beta iota zeta.
  destruct (decide (resolve dst = resolve src)) as [Heq | Hneq]; [done | ].
  assert (S' : fs !! resolve src = Some (Node (File c) mt true)).
  { unfold node_at in S. by destruct (resolve src). }
  destruct (resolve dst) as [ | x l] eqn:D; [done | ]. rewrite E.
  destruct (node_at fs (removelast (x :: l))) as [[[ | ] ? [ | ]] | ]; try done.
  intros [= <-]. exists c, mt. by split_and!.
Qed.

Lemma same_file_mono (fs fs' : fsys) (src dst : path) :
  fs ⊆ fs' -> same_file fs src dst -> same_file fs' src dst.
Proof.
  intros G (c & mt & H1 & H2). exists c, mt.
  split; eapply lookup_weaken; eauto.
Qed.

Lemma process_faithful env v html_path out_dir i total it w w' r :
  process env v html_path out_dir i total it w = (w', r) ->
  (forall src dst, Copy2 src dst None ∈ trace w -> same_file (fs w) src dst) ->
  forall src dst, Copy2 src dst None ∈ trace w' -> same_file (fs w') src dst.
Proof.
  intros H I. apply process_cases in H. cbv zeta in H.
  destruct H as [(_ & _ & ->) | (_ & d & _ & [(_ & _ & ->) | (fs1 & t & M & F & _ & H)])].
  - intros src dst. destruct (shown v i total); cbn; [ | apply I].
    intros Hin. apply elem_of_app in Hin as [Hin | Hin]; [by apply I | ].
    by apply list_elem_of_singleton in Hin.
  - intros src dst. cbn. intros Hin. apply elem_of_app in Hin as [Hin | Hin]; [by apply I | ].
    by apply list_elem_of_singleton in Hin.
  - pose proof (mkdir_p_grows _ _ _ _ M) as G1.
    pose proof (free_target_free _ _ _ _ _ _ _ F) as Hfree.
    apply path_exists_false in Hfree as [Hne Hnone].
    destruct H as [(fs2 & C & ->) | (e & _ & ->)].
    + apply copy2_faithful in C as (c & mt & Hs & -> & Hd); [ | done | done].
      assert (G2 : fs w ⊆ <[resolve t := Node (File c) mt true]> fs1).
      { etrans; [exact G1 | by apply insert_subseteq]. }
      assert (New : same_file (<[resolve t := Node (File c) mt true]> fs1)
                      (locate html_path (fs w) (normalize_src (src it))) t).
      { exists c, mt. split; [by rewrite lookup_insert_ne | by rewrite lookup_insert_eq]. }
      intros src dst. destruct (shown v i total); cbn; intros Hin;
        repeat (apply elem_of_app in Hin as [Hin | Hin]);
        try (apply list_elem_of_singleton in Hin; simplify_eq);
        try done; by eapply same_file_mono, I.
    + intros src dst. cbn. intros Hin.
      repeat (apply elem_of_app in Hin as [Hin | Hin]);
        try (apply list_elem_of_singleton in Hin; simplify_eq).
      by eapply same_file_mono, I.
Qed.

(** X10.  Every copy a run has made holds, when the run ends, the bytes and
    the time stamp of its source, and the source is still there. *)
Theorem a_copy_holds_what_its_source_holds (env : environment) (v : variant)
    (html_path out_dir : path) (fs0 : fsys) (w' : world) (st : status)
    (src dst : path) :
  run env v html_path out_dir fs0 = (w', st) ->
  Copy2 src dst None ∈ trace w' ->
  same_file (fs w') src dst.
Proof.
  intros H. revert src dst. apply run_cases in H
    as [(t & -> & ->) | [(e & -> & ->) | (text & its & R & Pa & Hne & L)]].
  - intros src dst Hin. cbn in Hin. by apply list_elem_of_singleton in Hin.
  - intros src dst Hin. by apply elem_of_nil in Hin.
  - set (I := fun w : world =>
               forall src dst, Copy2 src dst None ∈ trace w -> same_file (fs w) src dst).
    assert (Hemit : forall w a, (forall s d, a <> Copy2 s d None) -> I w -> I (emit w a)).
    { intros w a Ha Hw src dst. cbn. intros Hin.
      apply elem_of_app in Hin as [Hin | Hin]; [by apply Hw | ].
      apply list_elem_of_singleton in Hin. by destruct (Ha src dst). }
    eapply (loop_invariant env v html_path out_dir (length its) (1 + length its)
              (fun _ => I) I (fun _ => True)) in L.
    + destruct st; try done.
      * destruct L as (w1 & H1 & ->). by apply Hemit.
      * destruct L as (j & w1 & _ & H1 & ->). by apply Hemit.
    + intros _ w b Hw. by apply Hemit.
    + intros i it w w1 _ _ Hw Hp. unfold I. eapply process_faithful; [exact Hp | exact Hw].
    + intros i it w w1 e _ _ Hw Hp. unfold I. eapply process_faithful; [exact Hp | exact Hw].
    + done.
    + by apply Forall_true.
    + apply Hemit; [done | ]. intros src dst Hin. by apply elem_of_nil in Hin.
Qed.

(** ** Where the copies go *)















(** ** The messages of a run *)

Lemma queue_snoc tr a : queue (tr ++ [a]) = (queue tr ++ queue [a])%list.
Proof. apply queue_app. Qed.

Lemma queue_put tr m : queue (tr ++ [Put m]) = (queue tr ++ [m])%list.
Proof. apply queue_app. Qed.

Lemma queue_other tr a : (forall m, a <> Put m) -> queue (tr ++ [a]) = queue tr.
Proof.
  intros H. rewrite queue_app. destruct a; cbn; rewrite ?app_nil_r; try done.
  by destruct (H m).
Qed.

Lemma process_queue env v html_path out_dir i total it w w' r :
  process env v html_path out_dir i total it w = (w', r) ->
  exists ps, queue (trace w') = (queue (trace w) ++ ps)%list /\
    (ps = [] \/ exists x, ps = [progress i total x]) /\
    (r = None -> shown v i total = true -> ps <> []) /\
    (r <> None -> ps = []).
Proof.
  intros H. apply process_cases in H. cbv zeta in H.
  destruct H as [(_ & -> & ->) | (_ & d & _ & [(_ & -> & ->) | (fs1 & t & _ & _ & -> & H)])].
  - destruct (shown v i total); cbn.
    + eexists. split; [apply queue_put | ]. split_and!; [right; by eexists | done | done].
    + exists []. rewrite app_nil_r. split_and!; [done | by left | done | done].
  - exists []. cbn. rewrite queue_other, app_nil_r by done.
    split_and!; [done | by left | done | done].
  - destruct H as [(fs2 & _ & ->) | (e & _ & ->)].
    + destruct (shown v i total); cbn.
      * eexists. rewrite queue_put, !queue_other by done.
        split; [reflexivity | ]. split_and!; [right; by eexists | done | done].
      * exists []. rewrite !queue_other, app_nil_r by done.
        split_and!; [done | by left | done | done].
    + eexists. cbn. rewrite queue_put, !queue_other by done.
      split; [reflexivity | ]. split_and!; [right; by eexists | done | done].
Qed.

Lemma progress_indices_app ms1 ms2 :
  progress_indices (ms1 ++ ms2) = (progress_indices ms1 ++ progress_indices ms2)%list.
Proof. apply omap_app. Qed.

Lemma reported_bound v total i0 i ps :
  reported v total i0 i ps -> Forall (fun j => (i0 <= j < i)%nat) (progress_indices ps).
Proof.
  intros [H _ _]. induction H as [ | m ps (j & x & -> & Hj) _ IH]; cbn; [constructor | ].
  by constructor.
Qed.

Lemma reported_nil v total i0 : reported v total i0 i0 [].
Proof.
  split; [constructor | constructor | ]. intros j Hj. lia.
Qed.

Lemma reported_step v total i0 i ps ps' :
  (i0 <= i)%nat -> reported v total i0 i ps ->
  (ps' = [] \/ exists x, ps' = [progress i total x]) ->
  (shown v i total = true -> ps' <> []) ->
  reported v total i0 (S i) (ps ++ ps').
Proof.
  intros Hi R Hps Hsh. pose proof (reported_bound _ _ _ _ _ R) as B.
  destruct R as [R1 R2 R3]. split.
  - apply Forall_app. split.
    + eapply Forall_impl; [exact R1 | ]. intros m (j & x & -> & Hj). exists j, x. split; [done | lia].
    + destruct Hps as [-> | [x ->]]; [constructor | ].
      constructor; [ | constructor]. exists i, x. split; [done | lia].
  - rewrite progress_indices_app. apply StronglySorted_app. split_and!; [ | done | ].
    + intros j1 j2 H1 H2. rewrite Forall_forall in B. apply B in H1.
      destruct Hps as [-> | [x ->]]; [by apply elem_of_nil in H2 | ].
      cbn in H2. apply list_elem_of_singleton in H2. lia.
    + destruct Hps as [-> | [x ->]]; cbn; repeat constructor.
  - intros j Hj Hs. rewrite progress_indices_app. apply elem_of_app.
    destruct (decide (j = i)) as [-> | Hne].
    + right. destruct Hps as [-> | [x ->]]; [by destruct (Hsh Hs) | ].
      cbn. by apply list_elem_of_singleton.
    + left. apply R3; [lia | done].
Qed.

Lemma loop_queue env v html_path out_dir total its i0 w w' st :
  loop env v html_path out_dir total i0 its w = (w', st) ->
  match st with
  | Finished =>
      exists ps, queue (trace w') = (queue (trace w) ++ ps ++ [done (ok w') (fail w')])%list /\
        reported v total i0 (i0 + length its) ps
  | Cancelled =>
      exists i ps, (i0 <= i < i0 + length its)%nat /\
        queue (trace w') = (queue (trace w) ++ ps ++ [log (ok w') (fail w')])%list /\
        reported v total i0 i ps
  | Uncaught e =>
      exists i ps, (i0 <= i < i0 + length its)%nat /\
        queue (trace w') = (queue (trace w) ++ ps)%list /\
        reported v total i0 i ps
  | Fatal => False
  end.
Proof.
  intros H.
  set (I := fun (i : nat) (w1 : world) =>
              (i0 <= i)%nat /\ exists ps, queue (trace w1) = (queue (trace w) ++ ps)%list /\
                reported v total i0 i ps).
  eapply (loop_invariant env v html_path out_dir total (i0 + length its) I
            (fun w1 => exists i ps, (i0 <= i < i0 + length its)%nat /\
               queue (trace w1) = (queue (trace w) ++ ps)%list /\
               reported v total i0 i ps)
            (fun _ => True)) in H.
  - destruct st; try done.
    + destruct H as (w1 & (_ & ps & Hq & R) & ->). exists ps. cbn.
      rewrite queue_put, Hq, <- app_assoc. done.
    + destruct H as (j & w1 & Hj & (_ & ps & Hq & R) & ->). exists j, ps. cbn.
      rewrite queue_put, Hq, <- app_assoc. done.
  - intros i w1 b (Hi & ps & Hq & R). split; [done | ]. exists ps. cbn.
    by rewrite queue_other.
  - intros i it w1 w2 Hhi _ (Hi & ps & Hq & R) Hp.
    apply process_queue in Hp as (ps' & Hq' & Hps & Hsh & _).
    split; [lia | ]. exists (ps ++ ps')%list. split.
    + by rewrite Hq', Hq, <- app_assoc.
    + apply reported_step; auto.
  - intros i it w1 w2 e Hhi _ (Hi & ps & Hq & R) Hp.
    apply process_queue in Hp as (ps' & Hq' & _ & _ & Hnil).
    rewrite Hnil, app_nil_r in Hq' by done.
    exists i, ps. split; [lia | ]. by rewrite Hq'.
  - done.
  - by apply Forall_true.
  - split; [done | ]. exists []. split; [by rewrite app_nil_r | apply reported_nil].
Qed.

(** The queue of a run, by the way the run ends. *)
Lemma run_queue env v html_path out_dir fs0 w' st :
  run env v html_path out_dir fs0 = (w', st) ->
  match st with
  | Finished =>
      exists n ps, (1 <= n)%nat /\ (ok w' + fail w' = n)%nat /\
        queue (trace w') = (meta n :: ps ++ [done (ok w') (fail w')])%list /\
        reported v n 1 (1 + n) ps
  | Cancelled =>
      exists n i ps, (1 <= i <= n)%nat /\
        queue (trace w') = (meta n :: ps ++ [log (ok w') (fail w')])%list /\
        reported v n 1 i ps
  | Uncaught e =>
      queue (trace w') = [] \/
      exists n i ps, (1 <= i <= n)%nat /\ queue (trace w') = meta n :: ps /\
        reported v n 1 i ps
  | Fatal => exists t, queue (trace w') = [error t]
  end.
Proof.
  intros H. apply run_cases in H
    as [(t & -> & ->) | [(e & -> & ->) | (text & its & R & Pa & Hne & L)]].
  - by exists t.
  - by left.
  - assert (Hn : (1 <= length its)%nat) by (destruct its; [done | cbn; lia]).
    pose proof L as L'. apply loop_queue in L. destruct st; try done.
    + destruct L as (ps & Hq & Hr). exists (length its), ps.
      apply loop_finished in L' as (Hc & _). cbn in Hc. by split_and!.
    + destruct L as (i & ps & Hi & Hq & Hr). exists (length its), i, ps.
      split; [lia | by split].
    + right. destruct L as (i & ps & Hi & Hq & Hr). exists (length its), i, ps.
      split; [lia | by split].
Qed.

Lemma shown_few (v : variant) (j n : nat) :
  v = Gui \/ (n < 200)%nat -> shown v j n = true.
Proof.
  intros [-> | Hn]; [done | ]. destruct v; [done | ]. unfold shown.
  assert (E : Nat.max 1 (n / 100) = 1%nat).
  { assert (n / 100 < 2)%nat; [ | lia].
    apply Nat.Div0.div_lt_upper_bound. lia. }
  rewrite E, Nat.mod_1_r. reflexivity.
Qed.

Lemma shown_last (v : variant) (n : nat) : shown v n n = true.
Proof.
  destruct v; [done | ]. unfold shown. rewrite Nat.eqb_refl. by rewrite orb_true_r.
Qed.

Lemma StronglySorted_lt_NoDup (l : list nat) : StronglySorted lt l -> NoDup l.
Proof.
  induction 1 as [ | x l _ IH Hx]; constructor; [ | done].
  intros Hin. rewrite Forall_forall in Hx. apply Hx in Hin. lia.
Qed.

Lemma seq_sorted (n : nat) : forall a, StronglySorted lt (seq a n).
Proof.
  induction n as [ | n IH]; intros a; cbn; constructor; [apply IH | ].
  apply Forall_forall. intros j Hj. apply elem_of_seq in Hj. lia.
Qed.

(** A strictly increasing list that holds every number of a range and no
    other is the range. *)
Lemma sorted_range (l : list nat) (a n : nat) :
  StronglySorted lt l -> Forall (fun j => (a <= j < a + n)%nat) l ->
  (forall j, (a <= j < a + n)%nat -> j ∈ l) -> l = seq a n.
Proof.
  intros Hs Hb Hall.
  apply (StronglySorted_unique_strong lt).
  - intros x1 x2 _ _ ? ?. lia.
  - done.
  - apply seq_sorted.
  - apply NoDup_Permutation; [by apply StronglySorted_lt_NoDup | apply NoDup_seq | ].
    intros j. rewrite elem_of_seq. split; [ | apply Hall].
    intros Hin. rewrite Forall_forall in Hb. by apply Hb.
Qed.

Lemma sorted_last (l : list nat) (i : nat) :
  StronglySorted lt l -> Forall (fun j => (j < S i)%nat) l -> i ∈ l -> last l = Some i.
Proof.
  intros Hs Hb Hin. apply list_elem_of_split in Hin as (l1 & l2 & ->).
  apply StronglySorted_app in Hs as (_ & _ & Hs).
  apply StronglySorted_cons in Hs as [Hs _].
  destruct l2 as [ | x l2]; [by rewrite last_snoc | ].
  exfalso. inversion Hs; subst.
  apply Forall_app in Hb as [_ Hb]. inversion Hb as [ | ? ? _ Hb']; subst.
  inversion Hb'; subst. lia.
Qed.

Lemma reported_member v n i ps j t x :
  reported v n 1 i ps -> (i <= 1 + n)%nat -> progress j t x ∈ ps ->
  t = n /\ (1 <= j <= n)%nat.
Proof.
  intros [R _ _] Hi Hin. rewrite Forall_forall in R.
  apply R in Hin as (j' & x' & [= -> -> ->] & Hj). split; [done | lia].
Qed.

Lemma progress_indices_framed m ps m' :
  (forall j t x, m <> progress j t x) -> (forall j t x, m' <> progress j t x) ->
  progress_indices (m :: ps ++ [m']) = progress_indices ps.
Proof.
  intros H1 H2. change (m :: ps ++ [m'])%list with ([m] ++ ps ++ [m'])%list.
  rewrite !progress_indices_app.
  assert (E1 : progress_indices [m] = []).
  { destruct m; try done. by destruct (H1 i total t). }
  assert (E2 : progress_indices [m'] = []).
  { destruct m'; try done. by destruct (H2 i total t). }
  by rewrite E1, E2, app_nil_r.
Qed.

(** X12.  The ["progress"] messages of a run come in strictly increasing
    order of their item numbers, each after a ["meta"] message with the same
    total and with a number between 1 and that total.  In a run that
    finishes, the last of them is the one of the last item, and every item
    has its message in [organize_memories_gui.py], and in
    [organize_memories_gui2.py] when there are fewer than 200 items. *)
Theorem progress_is_reported_in_order (env : environment) (v : variant)
    (html_path out_dir : path) (fs0 : fsys) (w' : world) (st : status) :
  run env v html_path out_dir fs0 = (w', st) ->
  let ms := queue (trace w') in
  StronglySorted lt (progress_indices ms) /\
  (forall j t x, progress j t x ∈ ms -> head ms = Some (meta t) /\ (1 <= j <= t)%nat) /\
  (st = Finished ->
   exists n, head ms = Some (meta n) /\ last (progress_indices ms) = Some n /\
     (v = Gui \/ (n < 200)%nat -> progress_indices ms = seq 1 n)).
Proof.
  intros H ms. apply run_queue in H. subst ms. destruct st.
  - destruct H as (n & ps & Hn & _ & -> & R).
    rewrite progress_indices_framed by done.
    pose proof (reported_bound _ _ _ _ _ R) as B. split_and!.
    + by destruct R.
    + intros j t x Hin. apply elem_of_cons in Hin as [Hin | Hin]; [done | ].
      apply elem_of_app in Hin as [Hin | Hin];
        [ | by apply list_elem_of_singleton in Hin].
      eapply reported_member in Hin as [-> Hj]; [ | exact R | lia]. done.
    + intros _. exists n. split; [done | ]. destruct R as [R1 R2 R3]. split.
      * apply sorted_last; [done | | ].
        -- eapply Forall_impl; [exact B | ]. intros j Hj. cbn in Hj. lia.
        -- apply R3; [lia | apply shown_last].
      * intros Hv. apply sorted_range; [done | | ].
        -- eapply Forall_impl; [exact B | ]. intros j Hj. cbn in Hj. lia.
        -- intros j Hj. apply R3; [lia | by apply shown_few].
  - destruct H as (n & i & ps & Hi & -> & R).
    rewrite progress_indices_framed by done. split_and!.
    + by destruct R.
    + intros j t x Hin. apply elem_of_cons in Hin as [Hin | Hin]; [done | ].
      apply elem_of_app in Hin as [Hin | Hin];
        [ | by apply list_elem_of_singleton in Hin].
      eapply reported_member in Hin as [-> Hj]; [ | exact R | lia]. done.
    + done.
  - destruct H as (t & ->). split_and!; [constructor | | done].
    intros j t' x Hin. by apply list_elem_of_singleton in Hin.
  - destruct H as [-> | (n & i & ps & Hi & -> & R)].
    + split_and!; [constructor | | done]. intros j t x Hin. by apply elem_of_nil in Hin.
    + split_and!; [by destruct R | | done].
      intros j t x Hin. apply elem_of_cons in Hin as [Hin | Hin]; [done | ].
      eapply reported_member in Hin as [-> Hj]; [ | exact R | lia]. done.
Qed.

(** ** The window *)

Lemma on_start_starts (fs : fsys) (a : App) (html_path out_dir : path) :
  starts fs a html_path out_dir ->
  _on_start fs a =
  mkApp (html_var a) (out_var a) Working false (Some (html_path, out_dir))
    0 1 [] false true (dialogs a).
Proof.
  intros (Hh & Ho & -> & -> & Hex). unfold _on_start.
  rewrite (eqb_empty_false _ Hh), (eqb_empty_false _ Ho), Hex. reflexivity.
Qed.

Lemma pump_msg_controls (a b : App) (m : ui_msg) :
  controls a = controls b -> controls (pump_msg a m) = controls (pump_msg b m).
Proof.
  unfold controls. intros [= E1 E2 E3 E4 E5 E6].
  destruct m; cbn; congruence.
Qed.

Lemma pump_controls (ms : list ui_msg) : forall a b,
  controls a = controls b -> controls (_pump a ms) = controls (_pump b ms).
Proof.
  induction ms as [ | m ms IH]; intros a b E; [done | ].
  cbn. apply IH. by apply pump_msg_controls.
Qed.

Lemma on_cancel_controls (alive : bool) (a : App) : controls (_on_cancel alive a) = controls a.
Proof. unfold _on_cancel. destruct (worker a); [destruct alive | ]; reflexivity. Qed.

(** Pressing Cancel, at whatever moment, leaves the bar, the log, the
    buttons and the dialogs to the messages. *)
Lemma controls_taken (evs : list gui_event) : forall a,
  controls (fold_left gui_step evs a) = controls (_pump a (taken evs)).
Proof.
  induction evs as [ | e evs IH]; intros a; [done | ].
  destruct e as [m | alive]; cbn [fold_left gui_step taken omap].
  - apply IH.
  - rewrite IH. apply pump_controls, on_cancel_controls.
Qed.

Lemma pump_app (a : App) ms1 ms2 : _pump a (ms1 ++ ms2) = _pump (_pump a ms1) ms2.
Proof. apply fold_left_app. Qed.

Lemma pump_within (n : nat) (ms : list ui_msg) : forall a,
  pb_maximum a = n -> (pb_value a <= n)%nat -> Forall (within n) ms ->
  pb_maximum (_pump a ms) = n /\ (pb_value (_pump a ms) <= n)%nat.
Proof.
  induction ms as [ | m ms IH]; intros a Hm Hv Hw; [done | ].
  inversion Hw as [ | ? ? Hm1 Hms]; subst. cbn [_pump fold_left].
  apply IH; [ | | done]; destruct m; cbn in *; done.
Qed.

Lemma pump_progress (n : nat) (ps : list ui_msg) : forall a,
  Forall (fun m => exists j x, m = progress j n x) ps ->
  let a' := _pump a ps in
  txt a' = (txt a ++ ps)%list /\ pb_maximum a' = pb_maximum a /\
  btn_start a' = btn_start a /\ btn_cancel a' = btn_cancel a /\
  dialogs a' = dialogs a /\
  pb_value a' = default (pb_value a) (last (progress_indices ps)).
Proof.
  induction ps as [ | m ps IH]; intros a H; cbn zeta.
  - cbn. by rewrite app_nil_r.
  - inversion H as [ | ? ? (j & x & ->) Hps]; subst. cbn [_pump fold_left].
    destruct (IH (pump_msg a (progress j n x)) Hps) as (E1 & E2 & E3 & E4 & E5 & E6).
    cbn zeta in *. unfold _pump in *. rewrite E1, E2, E3, E4, E5, E6. cbn.
    split_and!; try done; [by rewrite <- app_assoc | ].
    change (progress_indices (progress j n x :: ps)) with (j :: progress_indices ps).
    rewrite last_cons. unfold progress_indices. by destruct (last _).
Qed.

Lemma reported_within v n i ps :
  reported v n 1 i ps -> (i <= 1 + n)%nat -> Forall (within n) ps.
Proof.
  intros [R _ _] Hi. eapply Forall_impl; [exact R | ].
  intros m (j & x & -> & Hj). cbn. lia.
Qed.

Lemma reported_progress v n i0 i ps :
  reported v n i0 i ps -> Forall (fun m => exists j x, m = progress j n x) ps.
Proof.
  intros [R _ _]. eapply Forall_impl; [exact R | ].
  intros m (j & x & -> & _). eauto.
Qed.

(** The queue of a run: nothing, an error alone, or the number of items
    and then messages that keep the bar within it. *)
Lemma queue_framed env v html_path out_dir fs0 w' st :
  run env v html_path out_dir fs0 = (w', st) ->
  queue (trace w') = [] \/ (exists t, queue (trace w') = [error t]) \/
  exists n rest, (1 <= n)%nat /\ queue (trace w') = meta n :: rest /\
    Forall (within n) rest.
Proof.
  intros H. apply run_queue in H. destruct st.
  - destruct H as (n & ps & Hn & _ & -> & R). right. right. eexists n, _.
    split; [done | ]. split; [done | ]. apply Forall_app. split.
    + eapply reported_within; [exact R | lia].
    + by repeat constructor.
  - destruct H as (n & i & ps & Hi & -> & R). right. right. eexists n, _.
    split; [lia | ]. split; [done | ]. apply Forall_app. split.
    + eapply reported_within; [exact R | lia].
    + by repeat constructor.
  - right. by left.
  - destruct H as [-> | (n & i & ps & Hi & -> & R)]; [by left | ].
    right. right. exists n, ps. split; [lia | ]. split; [done | ].
    eapply reported_within; [exact R | lia].
Qed.

(** X13.  Once the window has taken all the messages of a run that
    finished, whenever Cancel was pressed in between: Start is enabled and
    Cancel disabled, the bar is full, its maximum being the number of items,
    the log holds the messages after ["meta"] and ends with the totals, and
    no dialog was shown. *)
Theorem the_window_after_a_finished_run (env : environment) (v : variant)
    (fs : fsys) (a0 : App) (html_path out_dir : path) (w' : world)
    (evs : list gui_event) :
  starts fs a0 html_path out_dir ->
  run env v html_path out_dir fs = (w', Finished) ->
  taken evs = queue (trace w') ->
  let a' := fold_left gui_step evs (_on_start fs a0) in
  btn_start a' = true /\ btn_cancel a' = false /\ dialogs a' = dialogs a0 /\
  pb_maximum a' = (ok w' + fail w')%nat /\ pb_value a' = pb_maximum a' /\
  txt a' = tail (queue (trace w')) /\
  last (txt a') = Some (done (ok w') (fail w')).
Proof.
  intros Hs Hr Ht a'.
  pose proof (controls_taken evs (_on_start fs a0)) as C. fold a' in C.
  rewrite Ht, (on_start_starts _ _ _ _ Hs) in C.
  apply run_queue in Hr as (n & ps & Hn & Hc & Hq & R). rewrite Hq in *.
  change (meta n :: ps ++ [done (ok w') (fail w')])%list
    with ([meta n] ++ ps ++ [done (ok w') (fail w')])%list in C.
  rewrite !pump_app in C.
  set (a1 := _pump _ [meta n]) in C.
  destruct (pump_progress n ps a1 (reported_progress _ _ _ _ _ R))
    as (E1 & E2 & E3 & E4 & E5 & E6).
  change (_pump (_pump a1 ps) [done (ok w') (fail w')])
    with (pump_msg (_pump a1 ps) (done (ok w') (fail w'))) in C.
  unfold controls in C.
  cbn [pump_msg pb_value pb_maximum txt btn_start btn_cancel dialogs] in C.
  rewrite E1, E2, E5, E6 in C. subst a1. cbn in C.
  injection C as -> -> -> -> -> ->.
  assert (L : last (progress_indices ps) = Some n).
  { pose proof (reported_bound _ _ _ _ _ R) as B. destruct R as [_ R2 R3].
    apply sorted_last; [done | | ].
    - eapply Forall_impl; [exact B | ]. intros j Hj. cbn in Hj. lia.
    - apply R3; [lia | apply shown_last]. }
  rewrite L. cbn. split_and!; try done; try lia.
  apply last_snoc.
Qed.

(** X14.  Once the window has taken all the messages of a run that was
    cancelled or that an exception ended, Start is still disabled and Cancel
    still enabled, as [_on_start] left them, and no dialog was shown. *)
Theorem the_window_after_a_run_that_stops_early (env : environment) (v : variant)
    (fs : fsys) (a0 : App) (html_path out_dir : path) (w' : world) (st : status)
    (evs : list gui_event) :
  starts fs a0 html_path out_dir ->
  run env v html_path out_dir fs = (w', st) ->
  st = Cancelled \/ (exists e, st = Uncaught e) ->
  taken evs = queue (trace w') ->
  let a' := fold_left gui_step evs (_on_start fs a0) in
  btn_start a' = false /\ btn_cancel a' = true /\ dialogs a' = dialogs a0.
Proof.
  intros Hs Hr Hst Ht a'.
  pose proof (controls_taken evs (_on_start fs a0)) as C. fold a' in C.
  rewrite Ht, (on_start_starts _ _ _ _ Hs) in C.
  apply run_queue in Hr.
  assert (Hq : exists ps tl, queue (trace w') = (ps ++ tl)%list /\
                 Forall (fun m => match m with
                                  | meta _ | progress _ _ _ | log _ _ => True
                                  | _ => False
                                  end) (ps ++ tl)).
  { destruct Hst as [-> | [e ->]].
    - destruct Hr as (n & i & ps & _ & -> & R). exists (meta n :: ps), [log (ok w') (fail w')].
      split; [done | ]. apply Forall_app. split; [ | by repeat constructor].
      constructor; [done | ]. apply reported_progress in R.
      eapply Forall_impl; [exact R | ]. by intros m (j & x & ->).
    - destruct Hr as [-> | (n & i & ps & _ & -> & R)].
      + exists [], []. split; [done | constructor].
      + exists (meta n :: ps), []. rewrite app_nil_r. split; [done | ].
        constructor; [done | ]. apply reported_progress in R.
        eapply Forall_impl; [exact R | ]. by intros m (j & x & ->). }
  destruct Hq as (ps & tl & Hq & F). rewrite Hq in C. revert C F.
  generalize (ps ++ tl)%list. intros ms.
  set (a := mkApp _ _ _ _ _ _ _ _ _ _ _).
  assert (G : forall b, Forall (fun m => match m with
                                         | meta _ | progress _ _ _ | log _ _ => True
                                         | _ => False
                                         end) ms ->
              btn_start (_pump b ms) = btn_start b /\
              btn_cancel (_pump b ms) = btn_cancel b /\
              dialogs (_pump b ms) = dialogs b).
  { induction ms as [ | m ms IH]; intros b F; [done | ].
    inversion F as [ | ? ? Hm Hms]; subst.
    change (_pump b (m :: ms)) with (_pump (pump_msg b m) ms).
    destruct (IH (pump_msg b m) Hms) as (-> & -> & ->). by destruct m. }
  intros C F. destruct (G a F) as (G1 & G2 & G3).
  unfold controls in C. injection C as _ _ _ -> -> ->. by rewrite G1, G2, G3.
Qed.

(** X15.  Once the window has taken the message of a run that ended with
    an ["error"]: one dialog with that error was shown, the log holds that
    line alone, Start is enabled and Cancel disabled, and the bar is where
    [_on_start] put it. *)
Theorem the_window_after_a_fatal_error (env : environment) (v : variant)
    (fs : fsys) (a0 : App) (html_path out_dir : path) (w' : world)
    (evs : list gui_event) :
  starts fs a0 html_path out_dir ->
  run env v html_path out_dir fs = (w', Fatal) ->
  taken evs = queue (trace w') ->
  let a' := fold_left gui_step evs (_on_start fs a0) in
  exists t, queue (trace w') = [error t] /\
    btn_start a' = true /\ btn_cancel a' = false /\
    dialogs a' = (dialogs a0 ++ [WorkerError t])%list /\
    txt a' = [error t] /\ pb_value a' = 0%nat /\ pb_maximum a' = 1%nat.
Proof.
  intros Hs Hr Ht a'.
  pose proof (controls_taken evs (_on_start fs a0)) as C. fold a' in C.
  rewrite Ht, (on_start_starts _ _ _ _ Hs) in C.
  apply run_queue in Hr as (t & Hq). rewrite Hq in C. exists t.
  unfold controls in C. cbn in C. injection C as -> -> -> -> -> ->. done.
Qed.

(** X16.  At every moment of a run started from the window, whatever
    messages have been taken so far and whenever Cancel was pressed, the
    value of the progress bar is at most its maximum. *)
Theorem the_bar_stays_within_its_maximum (env : environment) (v : variant)
    (fs : fsys) (a0 : App) (html_path out_dir : path) (w' : world) (st : status)
    (evs1 evs2 : list gui_event) :
  starts fs a0 html_path out_dir ->
  run env v html_path out_dir fs = (w', st) ->
  taken (evs1 ++ evs2) = queue (trace w') ->
  let a1 := fold_left gui_step evs1 (_on_start fs a0) in
  (pb_value a1 <= pb_maximum a1)%nat.
Proof.
  intros Hs Hr Ht a1.
  pose proof (controls_taken evs1 (_on_start fs a0)) as C. fold a1 in C.
  rewrite (on_start_starts _ _ _ _ Hs) in C.
  unfold taken in Ht. rewrite omap_app in Ht. fold (taken evs1) in Ht. fold (taken evs2) in Ht.
  set (a := mkApp _ _ _ _ _ _ _ _ _ _ _) in C.
  assert (B : (pb_value (_pump a (taken evs1)) <= pb_maximum (_pump a (taken evs1)))%nat).
  { apply queue_framed in Hr as [Hq | [(t & Hq) | (n & rest & Hn & Hq & F)]];
      rewrite Hq in Ht.
    - apply app_eq_nil in Ht as [-> _]. cbn. lia.
    - destruct (pump_within 1 (taken evs1) a) as [E1 E2]; [done | cbn; lia | | lia].
      assert (F : Forall (within 1) [error t]) by (by repeat constructor).
      rewrite <- Ht in F. by apply Forall_app in F as [F _].
    - destruct (taken evs1) as [ | m ms]; [cbn; lia | ].
      injection Ht as -> Ht. rewrite <- Ht in F. apply Forall_app in F as [F _].
      change (_pump a (meta n :: ms)) with (_pump (pump_msg a (meta n)) ms).
      destruct (pump_within n ms (pump_msg a (meta n))) as [E1 E2]; [cbn; lia | cbn; lia | done | lia]. }
  unfold controls in C. injection C as -> -> _ _ _ _. exact B.
Qed.

(** ** How often progress is shown *)

Lemma div_succ (k n : nat) :
  (1 <= k)%nat ->
  (S n / k = n / k + if decide (S n mod k = 0) then 1 else 0)%nat.
Proof.
  intros Hk.
  pose proof (Nat.div_mod_eq n k) as E1. pose proof (Nat.div_mod_eq (S n) k) as E2.
  pose proof (Nat.mod_upper_bound n k ltac:(lia)) as B1.
  pose proof (Nat.mod_upper_bound (S n) k ltac:(lia)) as B2.
  case_decide; nia.
Qed.

Lemma count_multiples (k n : nat) :
  (1 <= k)%nat ->
  length (filter (fun j => (j mod k = 0)%nat) (seq 1 n)) = (n / k)%nat.
Proof.
  intros Hk. induction n as [ | n IH].
  - cbn. by rewrite Nat.Div0.div_0_l.
  - rewrite seq_S, filter_app, length_app, IH, div_succ by done.
    f_equal. change (1 + n)%nat with (S n).
    case_decide.
    + by rewrite filter_cons_True.
    + by rewrite filter_cons_False.
Qed.

Lemma count_one (c : nat) (l : list nat) :
  NoDup l -> (length (filter (fun j => j = c) l) <= 1)%nat.
Proof.
  induction 1 as [ | x l Hx _ IH]; [cbn; lia | ].
  destruct (decide (x = c)) as [-> | Hne].
  - rewrite filter_cons_True by done. cbn.
    assert (E : filter (fun j => j = c) l = []).
    { destruct (filter (fun j => j = c) l) as [ | y t] eqn:E; [done | ].
      assert (Hy : y ∈ filter (fun j => j = c) l) by (rewrite E; left).
      apply list_elem_of_filter in Hy as [-> Hy]. done. }
    rewrite E. cbn. lia.
  - by rewrite filter_cons_False.
Qed.

Lemma count_or (P Q : nat -> Prop) `{!forall j, Decision (P j)} `{!forall j, Decision (Q j)}
    (l : list nat) :
  (length (filter (fun j => P j \/ Q j) l) <=
   length (filter P l) + length (filter Q l))%nat.
Proof.
  induction l as [ | x l IH]; [cbn; lia | ].
  destruct (decide (P x)) as [HP | HP]; destruct (decide (Q x)) as [HQ | HQ];
    rewrite ?(filter_cons_True P), ?(filter_cons_False P),
            ?(filter_cons_True Q), ?(filter_cons_False Q) by done.
  - rewrite filter_cons_True by tauto. cbn. lia.
  - rewrite filter_cons_True by tauto. cbn. lia.
  - rewrite filter_cons_True by tauto. cbn. lia.
  - rewrite filter_cons_False by tauto. lia.
Qed.

(** Of [n] items at most [n / max(1, n // 100) + 2] pass the test of
    [organize_memories_gui2.py]. *)
Lemma shown_count (n : nat) :
  (length (filter (fun j => shown Gui2 j n = true) (seq 1 n)) <=
   n / Nat.max 1 (n / 100) + 2)%nat.
Proof.
  set (k := Nat.max 1 (n / 100)).
  assert (Hk : (1 <= k)%nat) by (unfold k; lia).
  etrans.
  { apply (Nat.eq_le_incl _ (length (filter (fun j => ((j mod k = 0)%nat \/ j = n) \/ j = 1%nat)
                                            (seq 1 n)))).
    f_equal. apply list_filter_iff. intros j. unfold shown. fold k.
    rewrite !orb_true_iff, !Nat.eqb_eq. tauto. }
  etrans; [apply count_or | ].
  etrans; [apply Nat.add_le_mono_r, count_or | ].
  rewrite count_multiples by done.
  pose proof (count_one n (seq 1 n) (NoDup_seq _ _)).
  pose proof (count_one 1%nat (seq 1 n) (NoDup_seq _ _)). lia.
Qed.

Lemma indices_put tr m :
  progress_indices (queue (tr ++ [Put m])) =
  (progress_indices (queue tr) ++ progress_indices [m])%list.
Proof. by rewrite queue_put, progress_indices_app. Qed.

Lemma process_throttle env v html_path out_dir i total it w w' r :
  process env v html_path out_dir i total it w = (w', r) ->
  (fail w <= fail w')%nat /\
  (fail w' = fail w ->
   Forall (fun j => shown v j total = true) (progress_indices (queue (trace w))) ->
   Forall (fun j => shown v j total = true) (progress_indices (queue (trace w')))).
Proof.
  intros H. apply process_cases in H. cbv zeta in H.
  destruct H as [(_ & _ & ->) | (_ & d & _ & [(_ & _ & ->) | (fs1 & t & _ & _ & _ & H)])].
  - destruct (shown v i total); cbn; (split; [lia | intros; lia]).
  - cbn. split; [lia | ]. intros _ F. by rewrite queue_other.
  - destruct H as [(fs2 & _ & ->) | (e & _ & ->)].
    + destruct (shown v i total) eqn:Sh; cbn; (split; [lia | ]); intros _ F.
      * rewrite indices_put, !queue_other by done. apply Forall_app. split; [done | ].
        by repeat constructor.
      * by rewrite !queue_other.
    + cbn. split; [lia | intros; lia].
Qed.

Lemma loop_throttle env v html_path out_dir total its i w w' st :
  loop env v html_path out_dir total i its w = (w', st) ->
  (fail w <= fail w')%nat /\
  (fail w' = fail w ->
   Forall (fun j => shown v j total = true) (progress_indices (queue (trace w))) ->
   Forall (fun j => shown v j total = true) (progress_indices (queue (trace w')))).
Proof.
  intros H.
  set (T := fun w1 : world =>
              (fail w <= fail w1)%nat /\
              (fail w1 = fail w ->
               Forall (fun j => shown v j total = true) (progress_indices (queue (trace w))) ->
               Forall (fun j => shown v j total = true)
                 (progress_indices (queue (trace w1))))).
  assert (Step : forall i0 it w1 w2 r, T w1 ->
            process env v html_path out_dir i0 total it w1 = (w2, r) -> T w2).
  { intros i0 it w1 w2 r [T1 T2] Hp. apply process_throttle in Hp as [P1 P2].
    split; [lia | ]. intros E F. apply P2; [lia | ]. apply T2; [lia | done]. }
  eapply (loop_invariant env v html_path out_dir total (i + length its)
            (fun _ => T) T (fun _ => True)) in H.
  - destruct st; try done.
    + destruct H as (w1 & [T1 T2] & ->). cbn. split; [done | ]. intros E F.
      rewrite indices_put, app_nil_r. by apply T2.
    + destruct H as (j & w1 & _ & [T1 T2] & ->). cbn. split; [done | ]. intros E F.
      rewrite indices_put, app_nil_r. by apply T2.
  - intros _ w1 b [T1 T2]. split; [done | ]. cbn. by rewrite queue_other.
  - intros i0 it w1 w2 _ _. apply Step.
  - intros i0 it w1 w2 e _ _. apply Step.
  - done.
  - by apply Forall_true.
  - split; [done | tauto].
Qed.

Lemma run_indices env v html_path out_dir fs0 w' st n :
  run env v html_path out_dir fs0 = (w', st) ->
  head (queue (trace w')) = Some (meta n) ->
  StronglySorted lt (progress_indices (queue (trace w'))) /\
  Forall (fun j => (1 <= j <= n)%nat) (progress_indices (queue (trace w'))).
Proof.
  intros H Hh. apply run_queue in H.
  assert (G : forall i ps, reported v n 1 i ps -> (i <= 1 + n)%nat ->
            StronglySorted lt (progress_indices ps) /\
            Forall (fun j => (1 <= j <= n)%nat) (progress_indices ps)).
  { intros i ps R Hi. pose proof (reported_bound _ _ _ _ _ R) as B.
    split; [by destruct R | ]. eapply Forall_impl; [exact B | ]. intros j Hj. cbn in Hj. lia. }
  destruct st.
  - destruct H as (n' & ps & Hn & _ & Hq & R). rewrite Hq in *. injection Hh as ->.
    rewrite progress_indices_framed by done. by eapply G.
  - destruct H as (n' & i & ps & Hi & Hq & R). rewrite Hq in *. injection Hh as ->.
    rewrite progress_indices_framed by done. eapply G; [exact R | lia].
  - destruct H as (t & Hq). by rewrite Hq in Hh.
  - destruct H as [Hq | (n' & i & ps & Hi & Hq & R)]; rewrite Hq in *; [done | ].
    injection Hh as ->.
    change (progress_indices (meta n :: ps)) with (progress_indices ps).
    eapply G; [exact R | lia].
Qed.

(** X17.  In [organize_memories_gui2.py] a run of [n] items in which
    nothing fails puts at most [n / max(1, n // 100) + 2] ["progress"]
    messages. *)
Theorem few_progress_messages_when_nothing_fails (env : environment)
    (html_path out_dir : path) (fs0 : fsys) (w' : world) (st : status) (n : nat) :
  run env Gui2 html_path out_dir fs0 = (w', st) ->
  fail w' = 0%nat ->
  head (queue (trace w')) = Some (meta n) ->
  (length (progress_indices (queue (trace w'))) <= n / Nat.max 1 (n / 100) + 2)%nat.
Proof.
  intros H Hf Hh.
  pose proof (run_indices _ _ _ _ _ _ _ _ H Hh) as [Hs Hb].
  assert (Sh : Forall (fun j => shown Gui2 j n = true)
                 (progress_indices (queue (trace w')))).
  { apply run_cases in H
      as [(t & -> & ->) | [(e & -> & ->) | (text & its & R & Pa & Hne & L)]];
      [constructor | constructor | ].
    pose proof L as L'. apply loop_queue in L'.
    assert (n = length its) as ->.
    { destruct st; try done.
      - destruct L' as (ps & Hq & _). rewrite Hq in Hh. by injection Hh.
      - destruct L' as (i & ps & _ & Hq & _). rewrite Hq in Hh. by injection Hh.
      - destruct L' as (i & ps & _ & Hq & _). rewrite Hq in Hh. by injection Hh. }
    apply loop_throttle in L as [L1 L2]. cbn in L1, L2.
    apply L2; [lia | constructor]. }
  etrans; [ | apply shown_count].
  apply submseteq_length, NoDup_submseteq; [by apply StronglySorted_lt_NoDup | ].
  intros j Hj. apply list_elem_of_filter. rewrite Forall_forall in Sh, Hb.
  split; [by apply Sh | ]. apply elem_of_seq. specialize (Hb j Hj). lia.
Qed.

(** ** Examples *)

Example search_iso : re_search pat_iso "on 2023-05-01 at noon" = Some "2023-05-01".
Proof. reflexivity. Qed.
Example search_underscore_blocks :
  first_date DATE_PATTERNS "photo_20220714.jpg" = None.
Proof. reflexivity. Qed.
Example search_d8 : first_date DATE_PATTERNS "photo-20220714.jpg" = Some "2022-07-14".
Proof. reflexivity. Qed.
Example norm6_a : normalize_date "230501" = Some "2023-05-01".
Proof. reflexivity. Qed.
Example norm6_b : normalize_date "123199" = Some "1999-12-31".
Proof. reflexivity. Qed.
Example norm6_c : normalize_date "999999" = None.
Proof. reflexivity. Qed.
Example norm_mdy : normalize_date "05-01-2023" = Some "2023-05-01".
Proof. reflexivity. Qed.
Example norm_bad : normalize_date "2023-13-45" = None.
Proof. reflexivity. Qed.
Example strp_short : strptime fmt_Ymd "2023-5-1" = Some (Datetime 2023 5 1).
Proof. reflexivity. Qed.
Example normalize_src_1 : normalize_src "./media/a.jpg?x=1" = "media/a.jpg".
Proof. reflexivity. Qed.
Example normalize_src_2 : normalize_src " .//a.jpg " = "a.jpg".
Proof. reflexivity. Qed.
Example normalize_src_3 : normalize_src "././a.jpg" = "./a.jpg".
Proof. reflexivity. Qed.

(** ** The theorems at work on small inputs *)

Lemma text_before_media_is_ignored_witness :
  extract Gui2 [StartTag "div" [("class", Some "text-line")]] = Ret [] /\
  exists its',
    extract Gui2 ([StartTag "div" [("class", Some "text-line")]] ++ [Data "2023-05-01"])
      = Ret its' /\
    (([] : list item) = [] -> its' = []) /\
    (its' = [] \/ attaches_to_last [] its').
Proof.
  split; [reflexivity | ].
  apply (text_before_media_is_ignored Gui2
           [StartTag "div" [("class", Some "text-line")]] [] "2023-05-01").
  reflexivity.
Defined.

Lemma hint_from_first_valid_pattern_witness :
  V2.handle_data (V2.Parser [Item "a.jpg" "2023-05-01"] true (Some 0%nat))
    "seen 2023-13-45, taken 20240101" =
  Ret (V2.Parser [Item "a.jpg" "2024-01-01"] true (Some 0%nat)).
Proof.
  pose proof (hint_from_first_valid_pattern
                (V2.Parser [Item "a.jpg" "2023-05-01"] true (Some 0%nat))
                "seen 2023-13-45, taken 20240101" 0%nat (Item "a.jpg" "2023-05-01")
                eq_refl eq_refl eq_refl) as (_ & H & _).
  apply (H [pat_iso; pat_mdy; pat_und] pat_d8 [pat_d6] "20240101" "2024-01-01");
    try reflexivity.
  intros q m' Hin Hs.
  apply elem_of_cons in Hin as [-> | Hin]; [by injection Hs as <- | ].
  apply elem_of_cons in Hin as [-> | Hin]; [discriminate | ].
  apply elem_of_cons in Hin as [-> | Hin]; [discriminate | ].
  inversion Hin.
Defined.

Lemma six_digit_date_witness :
  is_dig 1 /\ is_dig 0 /\ is_dig 2 /\ is_dig 3 /\
  valid_date (Datetime 2011 2 3) = true /\ valid_date (Datetime 2003 11 2) = true /\
  normalize_date "110203" = Some "2011-02-03".
Proof.
  assert (D : forall a, 0 <= a < 10 -> is_dig a) by (intros a H; exact H).
  do 4 (split; [apply D; lia | ]).
  do 2 (split; [reflexivity | ]).
  apply (six_digit_date 1 1 0 2 0 3); apply D; lia.
Defined.



Lemma cancelled_run_witness :
  let env := demo_env [media "a.jpg"; media "gone.jpg"; media "b.jpg"]
                      (fun n => Nat.eqb n 3) in
  let r := run env Gui2 demo_html demo_out demo_fs in
  IsSet true ∈ trace (fst r) /\ snd r = Cancelled /\
  (ok (fst r) + fail (fst r) = 2)%nat /\ polls (trace (fst r)) = 3%nat.
Proof.
  cbv zeta.
  set (env := demo_env [media "a.jpg"; media "gone.jpg"; media "b.jpg"]
                       (fun n => Nat.eqb n 3)).
  assert (Hin : IsSet true ∈ trace (fst (run env Gui2 demo_html demo_out demo_fs))).
  { vm_compute. repeat constructor. }
  split; [exact Hin | ].
  split; [ | split; vm_compute; reflexivity].
  apply (cancelled_run env Gui2 demo_html demo_out demo_fs
           (fst (run env Gui2 demo_html demo_out demo_fs))
           (snd (run env Gui2 demo_html demo_out demo_fs))
           (surjective_pairing _) Hin).
Defined.

Lemma one_item_per_media_tag_witness :
  let es := ([media "a.jpg"] ++ text_line "2023-05-01" ++
             [StartTag "VIDEO" [("src", Some "b.mp4")]; StartTag "img" []; Data "2020-01-01"])%list in
  let its := [Item "a.jpg" "2023-05-01"; Item "b.mp4" ""] in
  extract Gui2 es = Ret its /\
  map src its = media_srcs es /\ length its = length (media_srcs es).
Proof.
  cbv zeta. split; [reflexivity | ].
  apply (one_item_per_media_tag Gui2). reflexivity.
Defined.

Lemma no_hint_outside_a_text_line_witness :
  let es := [media "a.jpg"; StartTag "div" [("class", Some "text-line")]] in
  let es2 := [Data "2023-05-01"; media "b.jpg"; Data "2024-01-01"; EndTag "p"] in
  extract Gui (es ++ EndTag "DIV" :: es2) = Ret [Item "a.jpg" ""; Item "b.jpg" ""] /\
  extract Gui es2 = Ret [Item "b.jpg" ""].
Proof.
  cbv zeta.
  apply (no_hint_outside_a_text_line Gui
           [media "a.jpg"; StartTag "div" [("class", Some "text-line")]]
           [Data "2023-05-01"; media "b.jpg"; Data "2024-01-01"; EndTag "p"]
           "DIV" [Item "a.jpg" ""]); reflexivity.
Defined.

Lemma normalize_src_of_a_plain_reference_witness :
  normalize_src "media/a.jpg" = "media/a.jpg" /\
  normalize_src "media/a.jpg?size=2" = "media/a.jpg" /\
  normalize_src ".//media/a.jpg" = "media/a.jpg" /\
  normalize_src "./media/a.jpg" = "media/a.jpg".
Proof.
  destruct (normalize_src_of_a_plain_reference "media/a.jpg" "size=2"
              eq_refl eq_refl eq_refl) as (H1 & H2 & H3 & H4).
  split; [exact H1 | ]. split; [exact H2 | ]. split; [exact H3 | ].
  exact (H4 eq_refl).
Defined.

Lemma dates_are_written_as_a_date_witness :
  let it := Item "a.jpg" "2023-13-45" in
  let p := ["home"; "export"; "snap 2021-03-09.jpg"] in
  extract Gui (media "a.jpg" :: text_line "seen 2023-13-45") = Ret [it] /\
  (date it = "" \/ iso_shaped (date it)) /\
  (date_from_name Gui p = "" \/ iso_shaped (date_from_name Gui p)).
Proof.
  cbv zeta. split; [reflexivity | ].
  apply (dates_are_written_as_a_date Gui (media "a.jpg" :: text_line "seen 2023-13-45")
           [Item "a.jpg" "2023-13-45"]); [reflexivity | constructor].
Defined.

Lemma gui2_reads_calendar_dates_only_witness :
  let it := Item "a.jpg" "2020-12-25" in
  let p := ["home"; "export"; "snap 2021_03_09.jpg"] in
  extract Gui2 (media "a.jpg" :: text_line "seen 2023-13-45, taken 12-25-2020") = Ret [it] /\
  (date it = "" \/ real_date (date it)) /\
  (date_from_name Gui2 p = "" \/ real_date (date_from_name Gui2 p)).
Proof.
  cbv zeta. split; [reflexivity | ].
  apply (gui2_reads_calendar_dates_only
           (media "a.jpg" :: text_line "seen 2023-13-45, taken 12-25-2020")
           [Item "a.jpg" "2020-12-25"]); [reflexivity | constructor].
Defined.

Lemma gui2_reads_the_dates_gui_reads_witness :
  first_date DATE_PATTERNS "snap 2021-03-09.jpg" = Some "2021-03-09" /\
  forall p, path_name p = "snap 2021-03-09.jpg" ->
    date_from_name Gui p = "2021-03-09" /\ date_from_name Gui2 p = "2021-03-09".
Proof.
  apply (gui2_reads_the_dates_gui_reads "snap 2021-03-09.jpg" "2021-03-09");
    [reflexivity | by eexists].
Defined.


Lemma the_totals_are_right_witness :
  let env := demo_env [media "a.jpg"; media "gone.jpg"; media "b.jpg"] never in
  let w' := fst (run env Gui2 demo_html demo_out demo_fs) in
  snd (run env Gui2 demo_html demo_out demo_fs) = Finished /\
  ok w' = length (copied (trace w')) /\
  exists text, read_html env Gui2 demo_html demo_fs = inr text /\
    last (queue (trace w')) = Some (done (ok w') (fail w')) /\
    (ok w' + fail w' = length (media_srcs (tokenize env text)))%nat.
Proof.
  cbv zeta.
  set (env := demo_env [media "a.jpg"; media "gone.jpg"; media "b.jpg"] never).
  assert (E : run env Gui2 demo_html demo_out demo_fs =
              (fst (run env Gui2 demo_html demo_out demo_fs), Finished)).
  { vm_compute. reflexivity. }
  split; [vm_compute; reflexivity | ].
  exact (the_totals_are_right env Gui2 demo_html demo_out demo_fs _ Finished E).
Defined.

Lemma a_copy_holds_what_its_source_holds_witness :
  let env := demo_env [media "a.jpg"; media "gone.jpg"; media "b.jpg"] never in
  let w' := fst (run env Gui2 demo_html demo_out demo_fs) in
  same_file (fs w') ["home"; "export"; "a.jpg"]
    ["home"; "out"; "2021"; "2021-03"; "2021-03-09_a.jpg"].
Proof.
  cbv zeta.
  set (env := demo_env [media "a.jpg"; media "gone.jpg"; media "b.jpg"] never).
  apply (a_copy_holds_what_its_source_holds env Gui2 demo_html demo_out demo_fs
           (fst (run env Gui2 demo_html demo_out demo_fs))
           (snd (run env Gui2 demo_html demo_out demo_fs))
           _ _ (surjective_pairing _)).
  vm_compute. repeat constructor.
Defined.


Lemma progress_is_reported_in_order_witness :
  let env := demo_env [media "a.jpg"; media "gone.jpg"; media "b.jpg"] never in
  let ms := queue (trace (fst (run env Gui2 demo_html demo_out demo_fs))) in
  StronglySorted lt (progress_indices ms) /\
  (forall j t x, progress j t x ∈ ms -> head ms = Some (meta t) /\ (1 <= j <= t)%nat) /\
  (Finished = Finished ->
   exists n, head ms = Some (meta n) /\ last (progress_indices ms) = Some n /\
     (Gui2 = Gui \/ (n < 200)%nat -> progress_indices ms = seq 1 n)).
Proof.
  cbv zeta.
  set (env := demo_env [media "a.jpg"; media "gone.jpg"; media "b.jpg"] never).
  assert (E : run env Gui2 demo_html demo_out demo_fs =
              (fst (run env Gui2 demo_html demo_out demo_fs), Finished)).
  { vm_compute. reflexivity. }
  exact (progress_is_reported_in_order env Gui2 demo_html demo_out demo_fs _ Finished E).
Defined.

Lemma demo_app_starts : starts demo_fs demo_app demo_html demo_out.
Proof. unfold starts. split_and!; try reflexivity; vm_compute; discriminate. Qed.

Lemma the_window_after_a_finished_run_witness :
  let env := demo_env [media "a.jpg"; media "gone.jpg"; media "b.jpg"] never in
  let evs := [Took (meta 3); Took (progress 1 3 (OK "2021-03-09_a.jpg"));
              CancelPressed true; Took (progress 2 3 (MISSING "gone.jpg"));
              Took (progress 3 3 (OK "2022-07-14_b.jpg")); Took (done 2 1);
              CancelPressed false] in
  let a' := fold_left gui_step evs (_on_start demo_fs demo_app) in
  btn_start a' = true /\ btn_cancel a' = false /\ pb_value a' = 3%nat /\
  pb_maximum a' = 3%nat /\ last (txt a') = Some (done 2 1).
Proof.
  cbv zeta.
  set (env := demo_env [media "a.jpg"; media "gone.jpg"; media "b.jpg"] never).
  assert (E : run env Gui2 demo_html demo_out demo_fs =
              (fst (run env Gui2 demo_html demo_out demo_fs), Finished)).
  { vm_compute. reflexivity. }
  pose proof (the_window_after_a_finished_run env Gui2 demo_fs demo_app demo_html demo_out
                _ [Took (meta 3); Took (progress 1 3 (OK "2021-03-09_a.jpg"));
                   CancelPressed true; Took (progress 2 3 (MISSING "gone.jpg"));
                   Took (progress 3 3 (OK "2022-07-14_b.jpg")); Took (done 2 1);
                   CancelPressed false]
                demo_app_starts E ltac:(vm_compute; reflexivity))
    as (H1 & H2 & _ & H4 & H5 & _ & H7).
  split; [exact H1 | ]. split; [exact H2 | ].
  split; [rewrite H5; exact H4 | ]. split; [exact H4 | exact H7].
Defined.

Lemma the_window_after_a_run_that_stops_early_witness :
  let evs := [Took (meta 3); Took (progress 1 3 (OK "2021-03-09_a.jpg"));
              CancelPressed true; Took (progress 2 3 (MISSING "gone.jpg"));
              Took (log 1 1)] in
  let a' := fold_left gui_step evs (_on_start demo_fs demo_app) in
  btn_start a' = false /\ btn_cancel a' = true /\ dialogs a' = [].
Proof.
  cbv zeta.
  set (env := demo_env [media "a.jpg"; media "gone.jpg"; media "b.jpg"]
                       (fun n => Nat.eqb n 3)).
  assert (E : run env Gui2 demo_html demo_out demo_fs =
              (fst (run env Gui2 demo_html demo_out demo_fs), Cancelled)).
  { vm_compute. reflexivity. }
  exact (the_window_after_a_run_that_stops_early env Gui2 demo_fs demo_app demo_html
           demo_out _ Cancelled
           [Took (meta 3); Took (progress 1 3 (OK "2021-03-09_a.jpg"));
            CancelPressed true; Took (progress 2 3 (MISSING "gone.jpg"));
            Took (log 1 1)]
           demo_app_starts E (or_introl eq_refl) ltac:(vm_compute; reflexivity)).
Defined.

Lemma the_window_after_a_fatal_error_witness :
  let a' := fold_left gui_step [Took (error NoMediaEntries)] (_on_start demo_fs demo_app) in
  exists t,
    queue (trace (fst (run (demo_env [] never) Gui demo_html demo_out demo_fs))) = [error t] /\
    btn_start a' = true /\ btn_cancel a' = false /\
    dialogs a' = ([] ++ [WorkerError t])%list /\
    txt a' = [error t] /\ pb_value a' = 0%nat /\ pb_maximum a' = 1%nat.
Proof.
  cbv zeta.
  assert (E : run (demo_env [] never) Gui demo_html demo_out demo_fs =
              (fst (run (demo_env [] never) Gui demo_html demo_out demo_fs), Fatal)).
  { vm_compute. reflexivity. }
  exact (the_window_after_a_fatal_error (demo_env [] never) Gui demo_fs demo_app demo_html
           demo_out _ [Took (error NoMediaEntries)]
           demo_app_starts E ltac:(vm_compute; reflexivity)).
Defined.

Lemma the_bar_stays_within_its_maximum_witness :
  let evs1 := [Took (meta 3); CancelPressed true;
               Took (progress 1 3 (OK "2021-03-09_a.jpg"))] in
  let a1 := fold_left gui_step evs1 (_on_start demo_fs demo_app) in
  (pb_value a1 <= pb_maximum a1)%nat.
Proof.
  cbv zeta.
  set (env := demo_env [media "a.jpg"; media "gone.jpg"; media "b.jpg"] never).
  exact (the_bar_stays_within_its_maximum env Gui2 demo_fs demo_app demo_html demo_out
           (fst (run env Gui2 demo_html demo_out demo_fs))
           (snd (run env Gui2 demo_html demo_out demo_fs))
           [Took (meta 3); CancelPressed true; Took (progress 1 3 (OK "2021-03-09_a.jpg"))]
           [Took (progress 2 3 (MISSING "gone.jpg"));
            Took (progress 3 3 (OK "2022-07-14_b.jpg")); Took (done 2 1)]
           demo_app_starts (surjective_pairing _) ltac:(vm_compute; reflexivity)).
Defined.

Lemma few_progress_messages_when_nothing_fails_witness :
  let env := demo_env [media "a.jpg"; media "b.jpg"] never in
  let w' := fst (run env Gui2 demo_html demo_out demo_fs) in
  (length (progress_indices (queue (trace w'))) <= 2 / Nat.max 1 (2 / 100) + 2)%nat.
Proof.
  cbv zeta.
  set (env := demo_env [media "a.jpg"; media "b.jpg"] never).
  apply (few_progress_messages_when_nothing_fails env demo_html demo_out demo_fs
           (fst (run env Gui2 demo_html demo_out demo_fs))
           (snd (run env Gui2 demo_html demo_out demo_fs)) 2
           (surjective_pairing _)); vm_compute; reflexivity.
Defined.
